(** * zhusuan.sgmcmc: stochastic-gradient MCMC samplers (SGLD, SGHMC, SGNHT)

    A shallow embedding of [zhusuan/sgmcmc.py] and the properties of its
    specification.

    Modelling decisions.
    - Python exceptions are values of [exn]; code that can raise returns a
      [result].
    - A float32 tensor is a shape with row-major data over the real numbers:
      rounding, infinities and NaN are abstracted away.
    - The samplers build a TensorFlow graph once ([sample]) and every
      [session.run] of the returned operation evaluates it.  A Python
      expression over tensors is read as the value its node has in one run;
      a Python name bound to a node is a [let], so a node used twice is
      evaluated once.  Variables live in a [session]; an assignment node
      evaluates to a pending [write], and running a grouped operation
      commits the writes.
    - With several latents, one run evaluates a gradient tensor, a triple
      of new values and the assignments of every latent, in any order the
      data and control dependencies of the graph allow ([valid_schedule]);
      a node that reads a variable reads what the session holds when the
      node is evaluated.
    - The collaborators are inputs of a run ([run_env]): the gradient of the
      bound log-joint at the current latent values, and the standard normal
      variates each random node draws in that run. *)

From Stdlib Require Import String ZArith Reals Bool Arith Lia Lra List.
Import ListNotations.

Set Implicit Arguments.

(** ** Python results *)

Inductive exn : Type :=
| TypeError (msg : string)
| ValueError (msg : string)
| IndexError (msg : string)
| AttributeError (msg : string)
| NotImplementedError
| InvalidArgumentError (msg : string)
| FailedPreconditionError (msg : string)
| Unsupported (msg : string).

Inductive result (A : Type) : Type :=
| Ok (a : A)
| Raise (e : exn).

Arguments Ok {A} a.
Arguments Raise {A} e.

Definition bind {A B : Type} (m : result A) (k : A -> result B) : result B :=
  match m with
  | Ok a => k a
  | Raise e => Raise e
  end.

Declare Scope result_scope.
Delimit Scope result_scope with result.
Notation "x <- m ;; k" := (bind m (fun x => k))
  (at level 100, m at next level, right associativity) : result_scope.
Notation "' p <- m ;; k" := (bind m (fun p => k))
  (at level 100, p pattern, m at next level, right associativity) : result_scope.
Open Scope result_scope.

Fixpoint mapM {A B : Type} (f : A -> result B) (l : list A) : result (list B) :=
  match l with
  | [] => Ok []
  | a :: l' => b <- f a ;; bs <- mapM f l' ;; Ok (b :: bs)
  end.

(** [self.name], for an attribute that may not have been set yet. *)
Definition attribute {A : Type} (name : string) (a : option A) : result A :=
  match a with
  | Some x => Ok x
  | None => Raise (AttributeError name)
  end.

(** What a Python call hands back when it returns normally: a value, [None],
    or an exception instance that was built but not raised. *)
Inductive returned (A : Type) : Type :=
| Value (a : A)
| NoneValue
| ExnInstance (e : exn).

Arguments Value {A} a.
Arguments NoneValue {A}.
Arguments ExnInstance {A} e.

(** [zip] applied to the unpacked [rows]: their transpose, cut to the
    shortest row; no row gives no column. *)
Fixpoint zip_with {A B C : Type} (f : A -> B -> C) (l : list A) (l' : list B) : list C :=
  match l, l' with
  | a :: r, b :: r' => f a b :: zip_with f r r'
  | _, _ => []
  end.

Fixpoint py_zip_star {A : Type} (rows : list (list A)) : list (list A) :=
  match rows with
  | [] => []
  | [r] => map (fun x => [x]) r
  | r :: rs => zip_with cons r (py_zip_star rs)
  end.

(** [a, b = xs] *)
Definition unpack2 {A : Type} (xs : list A) : result (A * A) :=
  match xs with
  | [a; b] => Ok (a, b)
  | [] => Raise (ValueError "not enough values to unpack (expected 2, got 0)")
  | [_] => Raise (ValueError "not enough values to unpack (expected 2, got 1)")
  | _ => Raise (ValueError "too many values to unpack (expected 2)")
  end.

(** ** Tensors *)

Record tensor : Type := mkTensor { shape : list nat; data : list R }.

Definition numel (s : list nat) : nat := fold_right Nat.mul 1 s.

Definition scalar (x : R) : tensor := mkTensor [] [x].

Definition as_scalar (x : tensor) : option R :=
  match shape x, data x with
  | [], [r] => Some r
  | _, _ => None
  end.

Definition shape_eqb (s s' : list nat) : bool :=
  if list_eq_dec Nat.eq_dec s s' then true else false.

Definition tmap (f : R -> R) (x : tensor) : tensor :=
  mkTensor (shape x) (map f (data x)).

(** Elementwise binary operations.  A rank-0 operand broadcasts against the
    other one; two operands of the same shape combine pointwise.  The other
    broadcasts of the engine are outside this model. *)
Definition binop (f : R -> R -> R) (x y : tensor) : result tensor :=
  match as_scalar x, as_scalar y with
  | Some a, _ => Ok (tmap (f a) y)
  | None, Some b => Ok (tmap (fun a => f a b) x)
  | None, None =>
      if shape_eqb (shape x) (shape y)
      then Ok (mkTensor (shape x) (zip_with f (data x) (data y)))
      else Raise (Unsupported "broadcast of two tensors of different rank-nonzero shapes")
  end.

Definition tadd : tensor -> tensor -> result tensor := binop Rplus.
Definition tsub : tensor -> tensor -> result tensor := binop Rminus.
Definition tmul : tensor -> tensor -> result tensor := binop Rmult.

Definition tf_sqrt (x : tensor) : tensor := tmap sqrt x.

(** [x ** 2] *)
Definition tpow2 (x : tensor) : tensor := tmap (fun a => (a ^ 2)%R) x.

Definition rsum (l : list R) : R := fold_right Rplus 0%R l.

Definition reduce_mean (x : tensor) : tensor :=
  scalar (rsum (data x) / INR (length (data x)))%R.

Definition tf_shape (x : tensor) : list nat := shape x.

Definition zeros (s : list nat) : tensor := mkTensor s (repeat 0%R (numel s)).

Definition zeros_like (x : tensor) : tensor := zeros (shape x).

(** [tf.random_normal(shape, stddev=stddev)] with the default mean 0: the
    standard normal variates [z] of the node, scaled and shifted. *)
Definition random_normal (z : nat -> R) (s : list nat) (stddev : tensor) : result tensor :=
  scaled <- tmul (mkTensor s (map z (seq 0 (numel s)))) stddev ;;
  tadd scaled (scalar 0%R).

(** ** int32 *)

Definition wrap32 (z : Z) : Z := ((z + 2 ^ 31) mod 2 ^ 32 - 2 ^ 31)%Z.

(** [tf.mod] on int32 is the flooring remainder, which fits int32 when both
    operands do; the integer kernel rejects a zero divisor. *)
Definition tf_mod (x y : Z) : result Z :=
  if (y =? 0)%Z then Raise (InvalidArgumentError "Integer division by zero")
  else Ok (x mod y)%Z.

Definition tf_equal (x y : Z) : bool := (x =? y)%Z.

(** [tf.cond]: only the chosen branch is evaluated. *)
Definition tf_cond {A : Type} (pred : bool) (true_fn false_fn : unit -> result A) : result A :=
  if pred then true_fn tt else false_fn tt.

(** ** Variables and sessions *)

Definition var : Type := nat.
Definition ivar : Type := nat.

Record session : Type := mkSession { ivars : list Z; fvars : list tensor }.

Fixpoint list_set {A : Type} (l : list A) (i : nat) (x : A) : list A :=
  match l, i with
  | [], _ => []
  | _ :: r, O => x :: r
  | a :: r, S j => a :: list_set r j x
  end.

(** [tf.Variable(init)] *)
Definition new_variable (init : tensor) (s : session) : var * session :=
  (length (fvars s), mkSession (ivars s) (fvars s ++ [init])).

Definition new_int_variable (init : Z) (s : session) : ivar * session :=
  (length (ivars s), mkSession (ivars s ++ [init]) (fvars s)).

Fixpoint new_variables (inits : list tensor) (s : session) : list var * session :=
  match inits with
  | [] => ([], s)
  | init :: rest =>
      let '(v, s1) := new_variable init s in
      let '(vs, s2) := new_variables rest s1 in
      (v :: vs, s2)
  end.

Definition read (s : session) (v : var) : result tensor :=
  match nth_error (fvars s) v with
  | Some x => Ok x
  | None => Raise (FailedPreconditionError "Attempting to use uninitialized value")
  end.

Definition read_int (s : session) (v : ivar) : result Z :=
  match nth_error (ivars s) v with
  | Some x => Ok x
  | None => Raise (FailedPreconditionError "Attempting to use uninitialized value")
  end.

(** [v.assign_add(delta)] on an int32 variable: performed when evaluated, and
    evaluates to the new value. *)
Definition assign_add (s : session) (v : ivar) (delta : Z) : result (Z * session) :=
  old <- read_int s v ;;
  let new := wrap32 (old + delta) in
  Ok (new, mkSession (list_set (ivars s) v new) (fvars s)).

(** A pending assignment [v.assign(value)]. *)
Definition write : Type := (var * tensor)%type.

(** [v.assign(value)]: the shapes must agree. *)
Definition assign (s : session) (v : var) (value : tensor) : result write :=
  old <- read s v ;;
  if shape_eqb (shape old) (shape value) then Ok (v, value)
  else Raise (ValueError "Shapes are incompatible").

Definition commit (s : session) (w : write) : session :=
  mkSession (ivars s) (list_set (fvars s) (fst w) (snd w)).

(** An operation is the list of assignments it performs; [tf.group] joins
    them. *)
Definition op : Type := list write.

Definition tf_group (ops : list op) : op := concat ops.

Definition run_op (o : op) (s : session) : session := fold_left commit o s.

(** ** The collaborators of one run *)

Inductive rand_site : Type := Momentum | Noise.

Record run_env : Type := mkEnv {
  (** [tf.gradients(log_joint(latent values merged with observed), qs)] at
      the given latent values, in the order of [qs] *)
  gradients : list tensor -> list tensor;
  (** the standard normal variates drawn in this run by the random node at
      the given site of the given latent *)
  normal : nat -> rand_site -> nat -> R
}.

Definition info : Type := list (string * tensor).

(** What [_update_single] returns: [(update_op, new_q, info)]. *)
Definition single : Type := (op * tensor * option info)%type.

Definition update_op_of (r : single) : op := fst (fst r).
Definition new_q_of (r : single) : tensor := snd (fst r).
Definition info_of (r : single) : option info := snd r.

(** [get_gradient(var_list)] of [sample], in one run. *)
Definition get_gradient (env : run_env) (s : session) (var_list : list var) : result (list tensor) :=
  values <- mapM (read s) var_list ;;
  Ok (gradients env values).

Definition grad_func_t : Type := run_env -> session -> list var -> result (list tensor).

(** The list of triples an [_update] builds, as evaluated by one run from a
    session: the session the run leaves behind before any assignment is
    committed, and the value of every triple. *)
Definition graph : Type := run_env -> session -> result (session * list single).

(** ** Python objects handed to [sample] *)

Inductive pyobj : Type :=
| PyStr (s : string)
| PyVariable (v : var)
| PyTensor (x : tensor)
| PyFloat (x : R)
| PyNone.

Definition isinstance_Variable (o : pyobj) : bool :=
  match o with
  | PyVariable _ => true
  | _ => false
  end.

Definition format_key (o : pyobj) : string :=
  match o with
  | PyStr k => k
  | _ => EmptyString
  end.

Inductive meta_model_t : Type :=
| Callable (log_joint : string)
| BayesianNet (name : string).

Inductive log_joint_t : Type :=
| LogJointCallable (f : string)
| LogJointOfObserve (model : string).

Definition dict (A : Type) : Type := list (string * A).

(** ** class SGMCMC *)

Module SGMCMC.

Record obj : Type := mk {
  t : ivar;
  _meta_model : option (option string);
  _log_joint : option log_joint_t;
  _observed : option (dict tensor);
  _latent : option (dict pyobj)
}.

Definition __init__ (s : session) : obj * session :=
  let '(t, s') := new_int_variable (-1) s in
  (mk t None None None None, s').

Definition _update (self : obj) (qs : list var) (grad_func : grad_func_t)
  : result (returned graph) :=
  Ok (ExnInstance NotImplementedError).

Definition _define_variables (self : obj) (qs : list var) : result (returned unit) :=
  Ok (ExnInstance NotImplementedError).

End SGMCMC.

(** ** class SGLD *)

Module SGLD.

Record obj : Type := mk { base : SGMCMC.obj; lr : tensor }.

Definition __init__ (learning_rate : tensor) (s : session) : obj * session :=
  let lr := learning_rate in
  let '(b, s') := SGMCMC.__init__ s in
  (mk b lr, s').

Definition _define_variables (self : obj) (qs : list var) (s : session) : obj * session :=
  (self, s).

(** The position [i] of the latent in [qs] is not an argument in the source;
    it names the random node this call creates, so that [normal env i] gives
    its draws.  The same holds for the other two classes. *)
Definition _update_single (self : obj) (env : run_env) (s : session) (i : nat)
  (q : var) (grad : tensor) : result single :=
  qv <- read s q ;;
  half_lr <- tmul (scalar 0.5) (lr self) ;;
  drift <- tmul half_lr grad ;;
  moved <- tadd qv drift ;;
  noise <- random_normal (normal env i Noise) (tf_shape qv) (tf_sqrt (lr self)) ;;
  new_q <- tadd moved noise ;;
  update_q <- assign s q new_q ;;
  Ok ([update_q], new_q, None).

Definition _update (self : obj) (qs : list var) (grad_func : grad_func_t) : graph :=
  fun env s =>
    grads <- grad_func env s qs ;;
    rs <- mapM (fun '(i, (q, grad)) => _update_single self env s i q grad)
            (combine (seq 0 (length qs)) (combine qs grads)) ;;
    Ok (s, rs).

End SGLD.

(** ** class SGHMC *)

Module SGHMC.

Record obj : Type := mk {
  base : SGMCMC.obj;
  lr : tensor;
  alpha : tensor;
  beta : tensor;
  n_iter_resample_v : Z;
  vs : option (list var)
}.

Definition int32 (z : Z) : bool := ((- 2 ^ 31 <=? z) && (z <? 2 ^ 31))%Z.

Definition __init__ (learning_rate friction variance_estimate : tensor)
  (n_iter_resample_v : option Z) (s : session) : result (obj * session) :=
  let lr := learning_rate in
  let alpha := friction in
  let beta := variance_estimate in
  let n_iter_resample_v :=
    match n_iter_resample_v with
    | None => 0%Z
    | Some n => n
    end in
  if int32 n_iter_resample_v then
    let '(b, s') := SGMCMC.__init__ s in
    Ok (mk b lr alpha beta n_iter_resample_v None, s')
  else Raise (Unsupported "n_iter_resample_v does not fit int32").

Definition _define_variables (self : obj) (qs : list var) (s : session)
  : result (obj * session) :=
  qvs <- mapM (read s) qs ;;
  let '(vs, s') := new_variables (map zeros_like qvs) s in
  Ok (mk (base self) (lr self) (alpha self) (beta self) (n_iter_resample_v self) (Some vs), s').

Definition _update_single (self : obj) (env : run_env) (s : session) (new_t : Z)
  (i : nat) (q v : var) (grad : tensor) : result single :=
  let resample_momentum (_ : unit) :=
    vv <- read s v ;;
    random_normal (normal env i Momentum) (tf_shape vv) (tf_sqrt (lr self)) in
  m <- tf_mod new_t (n_iter_resample_v self) ;;
  old_v <- tf_cond (tf_equal m 0) resample_momentum (fun _ => read s v) ;;
  keep <- tsub (scalar 1) (alpha self) ;;
  kept <- tmul keep old_v ;;
  push <- tmul (lr self) grad ;;
  drift <- tadd kept push ;;
  excess <- tsub (alpha self) (beta self) ;;
  twice <- tmul (scalar 2) excess ;;
  variance <- tmul twice (lr self) ;;
  noise <- random_normal (normal env i Noise) (tf_shape old_v) (tf_sqrt variance) ;;
  new_v <- tadd drift noise ;;
  qv <- read s q ;;
  new_q <- tadd qv new_v ;;
  let mean_k := reduce_mean (tpow2 new_v) in
  update_q <- assign s q new_q ;;
  update_v <- assign s v new_v ;;
  let update_op := tf_group [[update_q]; [update_v]] in
  Ok (update_op, new_q, Some [("mean_k"%string, mean_k)]).

Definition _update (self : obj) (qs : list var) (grad_func : grad_func_t) : graph :=
  fun env s =>
    ' (new_t, s1) <- assign_add s (SGMCMC.t (base self)) 1 ;;
    vs <- attribute "vs" (vs self) ;;
    grads <- grad_func env s1 qs ;;
    rs <- mapM (fun '(i, (q, (v, grad))) => _update_single self env s1 new_t i q v grad)
            (combine (seq 0 (length qs)) (combine qs (combine vs grads))) ;;
    Ok (s1, rs).

End SGHMC.

(** ** class SGNHT *)

Module SGNHT.

Record obj : Type := mk {
  base : SGMCMC.obj;
  lr : tensor;
  alpha : tensor;
  tune_rate : tensor;
  vs : option (list var);
  xis : option (list var)
}.

Definition __init__ (learning_rate variance_extra tune_rate : tensor) (s : session)
  : obj * session :=
  let lr := learning_rate in
  let alpha := variance_extra in
  let '(b, s') := SGMCMC.__init__ s in
  (mk b lr alpha tune_rate None None, s').

Definition _define_variables (self : obj) (qs : list var) (s : session)
  : result (obj * session) :=
  qvs <- mapM (read s) qs ;;
  let '(vs, s1) := new_variables (map zeros_like qvs) s in
  let '(xis, s2) := new_variables (map (fun _ => alpha self) qs) s1 in
  Ok (mk (base self) (lr self) (alpha self) (tune_rate self) (Some vs) (Some xis), s2).

Definition _update_single (self : obj) (env : run_env) (s : session) (new_t : Z)
  (i : nat) (q v xi : var) (grad : tensor) : result single :=
  let sample_momentum (_ : unit) :=
    vv <- read s v ;;
    random_normal (normal env i Momentum) (tf_shape vv) (tf_sqrt (lr self)) in
  old_v <- tf_cond (tf_equal new_t 0) sample_momentum (fun _ => read s v) ;;
  xiv <- read s xi ;;
  keep <- tsub (scalar 1) xiv ;;
  kept <- tmul keep old_v ;;
  push <- tmul (lr self) grad ;;
  drift <- tadd kept push ;;
  twice <- tmul (scalar 2) (alpha self) ;;
  variance <- tmul twice (lr self) ;;
  noise <- random_normal (normal env i Noise) (tf_shape old_v) (tf_sqrt variance) ;;
  new_v <- tadd drift noise ;;
  qv <- read s q ;;
  new_q <- tadd qv new_v ;;
  let mean_k := reduce_mean (tpow2 new_v) in
  gap <- tsub mean_k (lr self) ;;
  tuned <- tmul (tune_rate self) gap ;;
  new_xi <- tadd xiv tuned ;;
  update_q <- assign s q new_q ;;
  update_v <- assign s v new_v ;;
  update_xi <- assign s xi new_xi ;;
  let update_op := tf_group [[update_q]; [update_v]; [update_xi]] in
  Ok (update_op, new_q, Some [("mean_k"%string, mean_k); ("xi"%string, new_xi)]).

Definition _update (self : obj) (qs : list var) (grad_func : grad_func_t) : graph :=
  fun env s =>
    ' (new_t, s1) <- assign_add s (SGMCMC.t (base self)) 1 ;;
    vs <- attribute "vs" (vs self) ;;
    xis <- attribute "xis" (xis self) ;;
    grads <- grad_func env s1 qs ;;
    rs <- mapM (fun '(i, (q, (v, (xi, grad)))) =>
                  _update_single self env s1 new_t i q v xi grad)
            (combine (seq 0 (length qs)) (combine qs (combine vs (combine xis grads)))) ;;
    Ok (s1, rs).

End SGNHT.

(** ** Binding: [SGMCMC.sample] *)

(** A sampler object with the class it was built from; the hooks dispatch on
    the class. *)
Inductive sampler : Type :=
| Base (o : SGMCMC.obj)
| Sgld (o : SGLD.obj)
| Sghmc (o : SGHMC.obj)
| Sgnht (o : SGNHT.obj).

Definition base_of (self : sampler) : SGMCMC.obj :=
  match self with
  | Base o => o
  | Sgld o => SGLD.base o
  | Sghmc o => SGHMC.base o
  | Sgnht o => SGNHT.base o
  end.

Definition with_base (self : sampler) (b : SGMCMC.obj) : sampler :=
  match self with
  | Base _ => Base b
  | Sgld o => Sgld (SGLD.mk b (SGLD.lr o))
  | Sghmc o =>
      Sghmc (SGHMC.mk b (SGHMC.lr o) (SGHMC.alpha o) (SGHMC.beta o)
               (SGHMC.n_iter_resample_v o) (SGHMC.vs o))
  | Sgnht o =>
      Sgnht (SGNHT.mk b (SGNHT.lr o) (SGNHT.alpha o) (SGNHT.tune_rate o)
               (SGNHT.vs o) (SGNHT.xis o))
  end.

(** The velocity and thermostat variables a sampler object holds. *)
Definition auxiliary (self : sampler) : option (list var) * option (list var) :=
  match self with
  | Base _ => (None, None)
  | Sgld _ => (None, None)
  | Sghmc o => (SGHMC.vs o, None)
  | Sgnht o => (SGNHT.vs o, SGNHT.xis o)
  end.

(** [self._define_variables(qs)] *)
Definition call_define_variables (self : sampler) (qs : list var) (s : session)
  : result (returned unit * sampler * session) :=
  match self with
  | Base o => r <- SGMCMC._define_variables o qs ;; Ok (r, self, s)
  | Sgld o =>
      let '(o', s') := SGLD._define_variables o qs s in
      Ok (NoneValue, Sgld o', s')
  | Sghmc o =>
      ' (o', s') <- SGHMC._define_variables o qs s ;;
      Ok (NoneValue, Sghmc o', s')
  | Sgnht o =>
      ' (o', s') <- SGNHT._define_variables o qs s ;;
      Ok (NoneValue, Sgnht o', s')
  end.

(** [self._update(qs, grad_func)] *)
Definition call_update (self : sampler) (qs : list var) (grad_func : grad_func_t)
  : result (returned graph) :=
  match self with
  | Base o => SGMCMC._update o qs grad_func
  | Sgld o => Ok (Value (SGLD._update o qs grad_func))
  | Sghmc o => Ok (Value (SGHMC._update o qs grad_func))
  | Sgnht o => Ok (Value (SGNHT._update o qs grad_func))
  end.

(** [six.iteritems(latent)]: the (key, value) pairs in the mapping's order. *)
Definition iteritems (latent : dict pyobj) : list (list pyobj) :=
  map (fun kv => [PyStr (fst kv); snd kv]) latent.

Definition index {A : Type} (l : list A) (i : nat) : result A :=
  match nth_error l i with
  | Some a => Ok a
  | None => Raise (IndexError "list index out of range")
  end.

(** The loop over [enumerate(latent_v)], entered at position [i]. *)
Fixpoint check_latent (latent_k : list pyobj) (i : nat) (latent_v : list pyobj)
  : result unit :=
  match latent_v with
  | [] => Ok tt
  | v :: rest =>
      if isinstance_Variable v then check_latent latent_k (S i) rest
      else
        k <- index latent_k i ;;
        Raise (TypeError ("latent['" ++ format_key k ++ "'] is not a tensorflow Variable."))
  end.

Definition copy {A : Type} (l : list A) : list A := l.

Definition handles (objs : list pyobj) : list var :=
  flat_map (fun o => match o with PyVariable v => [v] | _ => [] end) objs.

(** What one [session.run] of a node returns, and the session it leaves. *)
Definition fetch (A : Type) : Type := run_env -> session -> result (A * session).

Record bound : Type := mkBound {
  sample_op : fetch unit;
  new_samples : fetch (dict tensor);
  sample_info : fetch (dict (option info))
}.

(** The attributes [sample] stores before it looks at the latent values. *)
Definition store_arguments (self : sampler) (meta_model : meta_model_t)
  (observed : dict tensor) (latent : dict pyobj) : sampler :=
  let b := base_of self in
  let b :=
    match meta_model with
    | Callable f =>
        SGMCMC.mk (SGMCMC.t b) (Some None) (Some (LogJointCallable f))
          (SGMCMC._observed b) (SGMCMC._latent b)
    | BayesianNet m =>
        SGMCMC.mk (SGMCMC.t b) (Some (Some m)) (Some (LogJointOfObserve m))
          (SGMCMC._observed b) (SGMCMC._latent b)
    end in
  let b :=
    SGMCMC.mk (SGMCMC.t b) (SGMCMC._meta_model b) (SGMCMC._log_joint b)
      (Some observed) (Some latent) in
  with_base self b.

(** What [sample] returns for the list of triples [g]: the grouped update
    operations, and the new values and the diagnostics under the latent
    keys. *)
Definition bound_of (latent_k : list pyobj) (g : graph) : bound :=
  let keys := map format_key latent_k in
  let sample_op : fetch unit := fun env s =>
    ' (s1, rs) <- g env s ;;
    Ok (tt, run_op (tf_group (map update_op_of rs)) s1) in
  let new_samples : fetch (dict tensor) := fun env s =>
    ' (s1, rs) <- g env s ;;
    Ok (combine keys (map new_q_of rs), s1) in
  let sample_info : fetch (dict (option info)) := fun env s =>
    ' (s1, rs) <- g env s ;;
    Ok (combine keys (map info_of rs), s1) in
  mkBound sample_op new_samples sample_info.

Definition sample (self : sampler) (meta_model : meta_model_t) (observed : dict tensor)
  (latent : dict pyobj) (s : session) : result bound * sampler * session :=
  let self := store_arguments self meta_model observed latent in
  match unpack2 (py_zip_star (iteritems latent)) with
  | Raise e => (Raise e, self, s)
  | Ok (latent_k, latent_v) =>
  match check_latent latent_k 0 latent_v with
  | Raise e => (Raise e, self, s)
  | Ok _ =>
  let qs := handles (copy latent_v) in
  match call_define_variables self qs s with
  | Raise e => (Raise e, self, s)
  | Ok (_, self, s) =>
  match call_update self qs get_gradient with
  | Raise e => (Raise e, self, s)
  | Ok NoneValue =>
      (Raise (TypeError "zip argument after * must be an iterable, not NoneType"), self, s)
  | Ok (ExnInstance _) =>
      (Raise (TypeError "zip argument after * must be an iterable, not NotImplementedError"),
       self, s)
  | Ok (Value g) => (Ok (bound_of latent_k g), self, s)
  end end end end.

(** Running the sample operation once per environment of [envs], in order. *)
Fixpoint run_steps (b : bound) (envs : list run_env) (s : session) : result session :=
  match envs with
  | [] => Ok s
  | env :: rest => ' (_, s') <- sample_op b env s ;; run_steps b rest s'
  end.

(** ** The update rules in the words of the specification

    Per element, over real numbers; [z] is the standard normal variate behind
    a draw. *)

Module Spec.

Local Open Scope R_scope.

(** A draw from Normal(0, variance). *)
Definition normal_draw (variance z : R) : R := sqrt variance * z.

(** Langevin: new_q = q + 0.5 * lr * g + noise, noise from Normal(0, lr). *)
Definition sgld_new_q (lr q g z : R) : R := q + 0.5 * lr * g + normal_draw lr z.

(** Hamiltonian: a fresh Normal(0, lr) draw when t mod resample_interval is
    0, the current velocity otherwise. *)
Definition sghmc_old_v (resample_interval t : Z) (lr v z : R) : R :=
  if (t mod resample_interval =? 0)%Z then normal_draw lr z else v.

Definition sghmc_new_v (lr alpha beta old_v g z : R) : R :=
  (1 - alpha) * old_v + lr * g + normal_draw (2 * (alpha - beta) * lr) z.

Definition new_q (q new_v : R) : R := q + new_v.

(** The mean over all elements of new_v squared. *)
Definition mean_k (new_v : list R) : R :=
  rsum (map (fun x => x * x) new_v) / INR (length new_v).

(** Thermostat: a fresh Normal(0, lr) draw when t is 0, the current velocity
    otherwise. *)
Definition sgnht_old_v (t : Z) (lr v z : R) : R :=
  if (t =? 0)%Z then normal_draw lr z else v.

Definition sgnht_new_v (lr alpha xi old_v g z : R) : R :=
  (1 - xi) * old_v + lr * g + normal_draw (2 * alpha * lr) z.

Definition sgnht_new_xi (tune_rate lr xi mean_k : R) : R :=
  xi + tune_rate * (mean_k - lr).

End Spec.

(** The tensor of shape [s] whose [j]-th element, in row-major order, is
    [f j]. *)
Definition tab (s : list nat) (f : nat -> R) : tensor :=
  mkTensor s (map f (seq 0 (numel s))).

(** The [j]-th element of a tensor, in row-major order. *)
Definition elem (x : tensor) (j : nat) : R := nth j (data x) 0%R.

(** ** Sessions a bound sampler can step from *)

Definition wf_b (x : tensor) : bool := length (data x) =? numel (shape x).

(** Variable [v] holds a well-formed tensor of shape [shp]. *)
Definition holds (s : session) (shp : list nat) (v : var) : bool :=
  match nth_error (fvars s) v with
  | Some x => shape_eqb (shape x) shp && wf_b x
  | None => false
  end.

Definition value_at (s : session) (v : var) : tensor := nth v (fvars s) (scalar 0%R).

Definition shape_at (s : session) (v : var) : list nat := shape (value_at s v).

Fixpoint distinct (l : list nat) : bool :=
  match l with
  | [] => true
  | a :: r => negb (existsb (Nat.eqb a) r) && distinct r
  end.

Definition has_counter (s : session) (b : SGMCMC.obj) : bool :=
  SGMCMC.t b <? length (ivars s).

(** The latent variables are pairwise distinct and hold well-formed tensors;
    every velocity has its latent's shape, every thermostat variable is
    rank 0, no variable serves twice, and the counter exists. *)
Definition ready (self : sampler) (qs : list var) (s : session) : bool :=
  match self with
  | Base _ => false
  | Sgld o =>
      distinct qs && forallb (fun q => holds s (shape_at s q) q) qs
  | Sghmc o =>
      match SGHMC.vs o with
      | Some vs =>
          (length vs =? length qs) && distinct (qs ++ vs)
          && forallb (fun q => holds s (shape_at s q) q) qs
          && forallb (fun qv => holds s (shape_at s (fst qv)) (snd qv)) (combine qs vs)
          && has_counter s (SGHMC.base o)
      | None => false
      end
  | Sgnht o =>
      match SGNHT.vs o, SGNHT.xis o with
      | Some vs, Some xis =>
          (length vs =? length qs) && (length xis =? length qs)
          && distinct (qs ++ vs ++ xis)
          && forallb (fun q => holds s (shape_at s q) q) qs
          && forallb (fun qv => holds s (shape_at s (fst qv)) (snd qv)) (combine qs vs)
          && forallb (holds s []) xis
          && has_counter s (SGNHT.base o)
      | _, _ => false
      end
  end.

(** The gradient oracle answers with one well-formed gradient per latent, of
    the latent's shape. *)
Definition gradients_ready (env : run_env) (s : session) (qs : list var) : bool :=
  let values := map (value_at s) qs in
  let grads := gradients env values in
  (length grads =? length qs)
  && forallb (fun xg => shape_eqb (shape (snd xg)) (shape (fst xg)) && wf_b (snd xg))
       (combine values grads).

(** ** The nodes of one run and the orders the engine may evaluate them in *)

(** The nodes one run of the sample operation evaluates: the increment of
    the counter, and for every latent [i] its gradient tensor (the [i]-th
    tensor [tf.gradients] returned), its triple of new values, and the
    assignments its update operation groups. *)
Inductive node : Type :=
| NCounter
| NGradient (i : nat)
| NValues (i : nat)
| NAssign (i k : nat).

Definition node_eqb (x y : node) : bool :=
  match x, y with
  | NCounter, NCounter => true
  | NGradient i, NGradient j => i =? j
  | NValues i, NValues j => i =? j
  | NAssign i k, NAssign j l => (i =? j) && (k =? l)
  | _, _ => false
  end.

Definition mem (x : node) (l : list node) : bool := existsb (node_eqb x) l.

Definition uses_counter (self : sampler) : bool :=
  match self with
  | Sghmc _ | Sgnht _ => true
  | _ => false
  end.

(** How many assignments the update operation of one latent groups. *)
Definition assignments (self : sampler) : nat :=
  match self with
  | Base _ => 0
  | Sgld _ => 1
  | Sghmc _ => 2
  | Sgnht _ => 3
  end.

(** The nodes a node waits for.  The values of a latent need the gradient
    of that latent and, where the class has one, the incremented counter;
    an assignment of a latent needs the values of that latent, which is
    what [tf.control_dependencies] in [_update_single] asks for.  A
    gradient reads the variables and waits for nothing: no gradient is
    ordered before or after the assignments of another latent. *)
Definition inputs (self : sampler) (x : node) : list node :=
  match x with
  | NCounter => []
  | NGradient i => []
  | NValues i => NGradient i :: (if uses_counter self then [NCounter] else [])
  | NAssign i k => [NValues i]
  end.

(** The nodes the sample operation of [n] latents runs, latent by latent. *)
Definition nodes (self : sampler) (n : nat) : list node :=
  (if uses_counter self then [NCounter] else [])
  ++ flat_map
       (fun i => NGradient i :: NValues i :: map (NAssign i) (seq 0 (assignments self)))
       (seq 0 n).

Fixpoint ordered (self : sampler) (done sched : list node) : bool :=
  match sched with
  | [] => true
  | x :: rest =>
      forallb (fun y => mem y done) (inputs self x) && negb (mem x done)
      && ordered self (x :: done) rest
  end.

(** A schedule evaluates every node of the run once, each after its inputs. *)
Definition valid_schedule (self : sampler) (n : nat) (sched : list node) : bool :=
  ordered self [] sched
  && forallb (fun x => mem x sched) (nodes self n)
  && forallb (fun x => mem x (nodes self n)) sched.

(** Every gradient and every new value is computed before any assignment
    is performed. *)
Fixpoint computed_before_assignments (sched : list node) : bool :=
  match sched with
  | [] => true
  | NAssign _ _ :: rest =>
      forallb (fun y => match y with NGradient _ | NValues _ => false | _ => true end) rest
      && computed_before_assignments rest
  | _ :: rest => computed_before_assignments rest
  end.

(** The [i]-th triple of the list [_update] builds. *)
Definition single_at (self : sampler) (qs : list var) (env : run_env) (s : session)
  (new_t : Z) (grads : list tensor) (i : nat) : result single :=
  match self with
  | Base _ => Raise (Unsupported "the base class builds no graph")
  | Sgld o =>
      q <- index qs i ;;
      grad <- index grads i ;;
      SGLD._update_single o env s i q grad
  | Sghmc o =>
      q <- index qs i ;;
      vs <- attribute "vs" (SGHMC.vs o) ;;
      v <- index vs i ;;
      grad <- index grads i ;;
      SGHMC._update_single o env s new_t i q v grad
  | Sgnht o =>
      q <- index qs i ;;
      vs <- attribute "vs" (SGNHT.vs o) ;;
      v <- index vs i ;;
      xis <- attribute "xis" (SGNHT.xis o) ;;
      xi <- index xis i ;;
      grad <- index grads i ;;
      SGNHT._update_single o env s new_t i q v xi grad
  end.

(** What a run has evaluated so far.  [m_grads] holds, for every latent
    whose gradient tensor is evaluated, what [tf.gradients] yields from the
    values the variables had at that moment; the tensor of latent [i] is
    its [i]-th entry. *)
Record machine : Type := mkMachine {
  m_session : session;
  m_counter : option Z;
  m_grads : list (nat * list tensor);
  m_values : list (nat * single)
}.

Definition start (s : session) : machine := mkMachine s None [] [].

Fixpoint lookup_single (i : nat) (l : list (nat * single)) : option single :=
  match l with
  | [] => None
  | (j, r) :: rest => if i =? j then Some r else lookup_single i rest
  end.

Fixpoint lookup_grads (i : nat) (l : list (nat * list tensor)) : option (list tensor) :=
  match l with
  | [] => None
  | (j, g) :: rest => if i =? j then Some g else lookup_grads i rest
  end.

Definition evaluated {A : Type} (a : option A) : result A :=
  match a with
  | Some x => Ok x
  | None => Raise (FailedPreconditionError "input not evaluated")
  end.

(** Evaluating one node against whatever the session holds at that moment. *)
Definition exec (self : sampler) (qs : list var) (env : run_env) (x : node) (m : machine)
  : result machine :=
  match x with
  | NCounter =>
      ' (new_t, s') <- assign_add (m_session m) (SGMCMC.t (base_of self)) 1 ;;
      Ok (mkMachine s' (Some new_t) (m_grads m) (m_values m))
  | NGradient i =>
      grads <- get_gradient env (m_session m) qs ;;
      Ok (mkMachine (m_session m) (m_counter m) ((i, grads) :: m_grads m) (m_values m))
  | NValues i =>
      new_t <- (if uses_counter self then evaluated (m_counter m) else Ok 0%Z) ;;
      grads <- evaluated (lookup_grads i (m_grads m)) ;;
      r <- single_at self qs env (m_session m) new_t grads i ;;
      Ok (mkMachine (m_session m) (m_counter m) (m_grads m) ((i, r) :: m_values m))
  | NAssign i k =>
      r <- evaluated (lookup_single i (m_values m)) ;;
      w <- index (update_op_of r) k ;;
      Ok (mkMachine (commit (m_session m) w) (m_counter m) (m_grads m) (m_values m))
  end.

Fixpoint run_schedule (self : sampler) (qs : list var) (env : run_env)
  (sched : list node) (m : machine) : result machine :=
  match sched with
  | [] => Ok m
  | x :: rest => m' <- exec self qs env x m ;; run_schedule self qs env rest m'
  end.

(** The variables of a bound sampler: latents, then velocities, then
    thermostat variables. *)
Definition all_vars (self : sampler) (qs : list var) : list var :=
  qs
  ++ match fst (auxiliary self) with Some vs => vs | None => [] end
  ++ match snd (auxiliary self) with Some xis => xis | None => [] end.

(** The variable the [k]-th assignment of latent [i] writes: the latent, its
    velocity, its thermostat variable. *)
Definition slot (self : sampler) (qs : list var) (i k : nat) : option var :=
  match k with
  | 0 => nth_error qs i
  | 1 => match fst (auxiliary self) with Some vs => nth_error vs i | None => None end
  | 2 => match snd (auxiliary self) with Some xis => nth_error xis i | None => None end
  | _ => None
  end.

(** ** What one run yields for latent [i] of a ready session

    The triple of [_update_single], with every tensor tabulated by the rule
    of the specification. *)

Definition sgld_expected (lr : R) (qs : list var) (env : run_env) (s : session) (i : nat)
  : single :=
  let q := nth i qs 0 in
  let x := value_at s q in
  let g := nth i (gradients env (map (value_at s) qs)) (scalar 0%R) in
  let new_q :=
    tab (shape x)
      (fun j => Spec.sgld_new_q lr (elem x j) (elem g j) (normal env i Noise j)) in
  ([(q, new_q)], new_q, None).

Definition sghmc_expected (o : SGHMC.obj) (lr alpha beta : R) (new_t : Z)
  (qs vs : list var) (env : run_env) (s : session) (i : nat) : single :=
  let q := nth i qs 0 in
  let v := nth i vs 0 in
  let x := value_at s q in
  let y := value_at s v in
  let g := nth i (gradients env (map (value_at s) qs)) (scalar 0%R) in
  let old_v j :=
    Spec.sghmc_old_v (SGHMC.n_iter_resample_v o) new_t lr (elem y j)
      (normal env i Momentum j) in
  let new_v j :=
    Spec.sghmc_new_v lr alpha beta (old_v j) (elem g j) (normal env i Noise j) in
  let new_q j := Spec.new_q (elem x j) (new_v j) in
  ([(q, tab (shape x) new_q); (v, tab (shape x) new_v)], tab (shape x) new_q,
   Some [("mean_k"%string, scalar (Spec.mean_k (data (tab (shape x) new_v))))]).

Definition sgnht_expected (lr alpha tune_rate : R) (new_t : Z)
  (qs vs xis : list var) (env : run_env) (s : session) (i : nat) : single :=
  let q := nth i qs 0 in
  let v := nth i vs 0 in
  let xi := nth i xis 0 in
  let x := value_at s q in
  let y := value_at s v in
  let xi0 := elem (value_at s xi) 0 in
  let g := nth i (gradients env (map (value_at s) qs)) (scalar 0%R) in
  let old_v j := Spec.sgnht_old_v new_t lr (elem y j) (normal env i Momentum j) in
  let new_v j :=
    Spec.sgnht_new_v lr alpha xi0 (old_v j) (elem g j) (normal env i Noise j) in
  let new_q j := Spec.new_q (elem x j) (new_v j) in
  let mean_k := Spec.mean_k (data (tab (shape x) new_v)) in
  let new_xi := Spec.sgnht_new_xi tune_rate lr xi0 mean_k in
  ([(q, tab (shape x) new_q); (v, tab (shape x) new_v); (xi, scalar new_xi)],
   tab (shape x) new_q,
   Some [("mean_k"%string, scalar mean_k); ("xi"%string, scalar new_xi)]).

(** ** Constructed samplers *)

(** A sampler object as its constructor returns it, with the session the
    constructor leaves. *)
Inductive constructed : sampler -> session -> Prop :=
| constructed_base (s : session) :
    constructed (Base (fst (SGMCMC.__init__ s))) (snd (SGMCMC.__init__ s))
| constructed_sgld (learning_rate : tensor) (s : session) :
    constructed (Sgld (fst (SGLD.__init__ learning_rate s)))
      (snd (SGLD.__init__ learning_rate s))
| constructed_sghmc (learning_rate friction variance_estimate : tensor)
    (n_iter_resample_v : option Z) (s : session) (o : SGHMC.obj) (s' : session) :
    SGHMC.__init__ learning_rate friction variance_estimate n_iter_resample_v s
    = Ok (o, s') ->
    constructed (Sghmc o) s'
| constructed_sgnht (learning_rate variance_extra tune_rate : tensor) (s : session) :
    constructed (Sgnht (fst (SGNHT.__init__ learning_rate variance_extra tune_rate s)))
      (snd (SGNHT.__init__ learning_rate variance_extra tune_rate s)).

(** ** A small instance: two latents, of shape [2] and of rank 0, under a
    standard normal log-joint, whose gradient at q is -q, in a run whose
    random nodes all draw 0. *)

Module Demo.

Definition s0 : session := mkSession [] [mkTensor [2] [1%R; 2%R]; scalar 3%R].

Definition latent : dict pyobj :=
  [("w"%string, PyVariable 0); ("b"%string, PyVariable 1)].

Definition env : run_env := mkEnv (map (tmap Ropp)) (fun _ _ _ => 0%R).

Definition qs : list var := handles (map snd latent).

Definition sgld : SGLD.obj * session := SGLD.__init__ (scalar 0%R) s0.

Definition sghmc (n_iter_resample_v : option Z) : result (SGHMC.obj * session) :=
  SGHMC.__init__ (scalar 0.1%R) (scalar 0.25%R) (scalar 0%R) n_iter_resample_v s0.

Definition sgnht : SGNHT.obj * session :=
  SGNHT.__init__ (scalar 0.1%R) (scalar 0%R) (scalar 1%R) s0.

End Demo.

Definition no_single : single := ([], scalar 0%R, None).

(** ** An instance whose gradients couple the latents

    The latents [a], of shape [2], and [b], of rank 0, under the log joint
    sum(a) + sum(a * b), whose gradient is 1 + b in every element of [a]
    and sum(a) in [b].  SGHMC with learning rate 0.5 and with friction and
    variance estimate 0.25, so that the injected noise has variance 0; every
    random node draws 0. *)

Module Coupled.

Definition s0 : session := mkSession [] [mkTensor [2] [1%R; 2%R]; scalar 3%R].

Definition latent : dict pyobj :=
  [("a"%string, PyVariable 0); ("b"%string, PyVariable 1)].

Definition log_joint_gradients (values : list tensor) : list tensor :=
  match values with
  | [a; b] => [tmap (fun _ => (1 + elem b 0)%R) a; scalar (rsum (data a))]
  | _ => []
  end.

Definition env : run_env := mkEnv log_joint_gradients (fun _ _ _ => 0%R).

Definition sghmc : result (SGHMC.obj * session) :=
  SGHMC.__init__ (scalar 0.5%R) (scalar 0.25%R) (scalar 0.25%R) (Some 20%Z) s0.

End Coupled.

(** ** The [bn] property *)

(** The meta-model objects a sampler can be handed, as [bn] uses them: the
    truth value of the object, and what its [observe] method gives for the
    keyword arguments it is called with.  [merge_dicts] is the function of
    that name this module imports from [zhusuan.utils]. *)
Record models (net : Type) : Type := mkModels {
  truth : string -> bool;
  observe : string -> dict pyobj -> result net;
  merge_dicts : dict pyobj -> dict pyobj -> dict pyobj
}.

(** The observed tensors, as entries of a dictionary of objects. *)
Definition as_objects (observed : dict tensor) : dict pyobj :=
  map (fun kv => (fst kv, PyTensor (snd kv))) observed.

(** [self.bn]: an AttributeError raised anywhere in the body, by a missing
    attribute of the sampler or from inside [observe], becomes [None]. *)
Definition bn {net : Type} (w : models net) (self : SGMCMC.obj) : result (returned net) :=
  let body :=
    meta_model <- attribute "_meta_model" (SGMCMC._meta_model self) ;;
    match meta_model with
    | Some m =>
        if truth w m then
          latent <- attribute "_latent" (SGMCMC._latent self) ;;
          observed <- attribute "_observed" (SGMCMC._observed self) ;;
          r <- observe w m (merge_dicts w latent (as_objects observed)) ;;
          Ok (Value r)
        else Ok NoneValue
    | None => Ok NoneValue
    end in
  match body with
  | Raise (AttributeError _) => Ok NoneValue
  | r => r
  end.

(** ** The dictionary of the log joint *)

(** [d[k] = a] *)
Fixpoint dict_set {A : Type} (d : dict A) (k : string) (a : A) : dict A :=
  match d with
  | [] => [(k, a)]
  | (k', a') :: r =>
      if String.eqb k k' then (k, a) :: r else (k', a') :: dict_set r k a
  end.

(** [dict(pairs)]: a pair whose key came before replaces the value under
    that key. *)
Definition py_dict {A : Type} (pairs : list (string * A)) : dict A :=
  fold_left (fun d kv => dict_set d (fst kv) (snd kv)) pairs [].

(** [joint_obs] of [get_log_posterior(var_list)]. *)
Definition joint_obs {net : Type} (w : models net) (latent_k : list pyobj)
  (var_list : list var) (observed : dict tensor) : dict pyobj :=
  merge_dicts w
    (py_dict (combine (map format_key latent_k) (map PyVariable var_list)))
    (as_objects observed).

(** ** Samplers whose steps this model evaluates *)

Definition is_scalar (x : tensor) : bool :=
  match as_scalar x with
  | Some _ => true
  | None => false
  end.

(** The hyper-parameters are rank-0 tensors, and the resample interval of
    SGHMC is not 0. *)
Definition steppable (self : sampler) : bool :=
  match self with
  | Base _ => false
  | Sgld o => is_scalar (SGLD.lr o)
  | Sghmc o =>
      is_scalar (SGHMC.lr o) && is_scalar (SGHMC.alpha o) && is_scalar (SGHMC.beta o)
      && negb (SGHMC.n_iter_resample_v o =? 0)%Z
  | Sgnht o =>
      is_scalar (SGNHT.lr o) && is_scalar (SGNHT.alpha o) && is_scalar (SGNHT.tune_rate o)
  end.

(** The triple one run yields for latent [i], whatever the class. *)
Definition expected (self : sampler) (new_t : Z) (qs : list var) (env : run_env)
  (s : session) (i : nat) : single :=
  match self with
  | Base _ => no_single
  | Sgld o => sgld_expected (elem (SGLD.lr o) 0) qs env s i
  | Sghmc o =>
      sghmc_expected o (elem (SGHMC.lr o) 0) (elem (SGHMC.alpha o) 0)
        (elem (SGHMC.beta o) 0) new_t qs
        (match SGHMC.vs o with Some vs => vs | None => [] end) env s i
  | Sgnht o =>
      sgnht_expected (elem (SGNHT.lr o) 0) (elem (SGNHT.alpha o) 0)
        (elem (SGNHT.tune_rate o) 0) new_t qs
        (match SGNHT.vs o with Some vs => vs | None => [] end)
        (match SGNHT.xis o with Some xis => xis | None => [] end) env s i
  end.

(** The counter value the triples of a run from [s] are evaluated with, and
    the session the increment leaves. *)
Definition next_t (self : sampler) (s : session) : Z :=
  if uses_counter self
  then wrap32 (nth (SGMCMC.t (base_of self)) (ivars s) 0%Z + 1)
  else 0%Z.

Definition counted (self : sampler) (s : session) : session :=
  if uses_counter self
  then mkSession (list_set (ivars s) (SGMCMC.t (base_of self)) (next_t self s)) (fvars s)
  else s.

(** The session one run of the sample operation leaves. *)
Definition stepped (self : sampler) (qs : list var) (env : run_env) (s : session)
  : session :=
  run_op
    (tf_group
       (map update_op_of (map (expected self (next_t self s) qs env s) (seq 0 (length qs)))))
    (counted self s).

(** ** Constructing a sampler in a session *)

(** [construction s self s']: a constructor of the module, run in session
    [s], returns [self] and leaves [s']. *)
Inductive construction (s : session) : sampler -> session -> Prop :=
| construction_base :
    construction s (Base (fst (SGMCMC.__init__ s))) (snd (SGMCMC.__init__ s))
| construction_sgld (learning_rate : tensor) :
    construction s (Sgld (fst (SGLD.__init__ learning_rate s)))
      (snd (SGLD.__init__ learning_rate s))
| construction_sghmc (learning_rate friction variance_estimate : tensor)
    (n_iter_resample_v : option Z) (o : SGHMC.obj) (s' : session) :
    SGHMC.__init__ learning_rate friction variance_estimate n_iter_resample_v s
    = Ok (o, s') ->
    construction s (Sghmc o) s'
| construction_sgnht (learning_rate variance_extra tune_rate : tensor) :
    construction s (Sgnht (fst (SGNHT.__init__ learning_rate variance_extra tune_rate s)))
      (snd (SGNHT.__init__ learning_rate variance_extra tune_rate s)).

(** * Properties *)

(** ** Results *)

Lemma bind_ok {A B : Type} (m : result A) (k : A -> result B) (b : B) :
  bind m k = Ok b -> exists a, m = Ok a /\ k a = Ok b.
Proof.
  destruct m as [a|e]; simpl; intros H.
  - exists a; split; [reflexivity | exact H].
  - discriminate H.
Qed.

Lemma mapM_ok_Forall2 {A B : Type} (f : A -> result B) (l : list A) (bs : list B) :
  mapM f l = Ok bs <-> Forall2 (fun a b => f a = Ok b) l bs.
Proof.
  revert bs; induction l as [|a l IH]; intros bs; simpl.
  - split; intros H.
    + injection H as <-. constructor.
    + inversion H. reflexivity.
  - split; intros H.
    + apply bind_ok in H as (b & Hb & H).
      apply bind_ok in H as (bs' & Hbs & H).
      injection H as <-. constructor; [exact Hb | apply IH, Hbs].
    + inversion H as [|? b ? bs' Hb Hbs]; subst.
      rewrite Hb; simpl. apply IH in Hbs. rewrite Hbs. reflexivity.
Qed.

Lemma mapM_length {A B : Type} (f : A -> result B) (l : list A) (bs : list B) :
  mapM f l = Ok bs -> length bs = length l.
Proof.
  intros H. apply mapM_ok_Forall2 in H.
  symmetry. eapply Forall2_length, H.
Qed.

Lemma mapM_nth {A B : Type} (f : A -> result B) (l : list A) (bs : list B) :
  mapM f l = Ok bs ->
  forall i a, nth_error l i = Some a -> exists b, nth_error bs i = Some b /\ f a = Ok b.
Proof.
  intros H. apply mapM_ok_Forall2 in H.
  induction H as [|a b l bs Hab _ IH]; intros i x Hi.
  - destruct i; discriminate Hi.
  - destruct i as [|i]; simpl in *.
    + injection Hi as <-. exists b. split; [reflexivity | exact Hab].
    + apply IH, Hi.
Qed.

Lemma mapM_nth_inv {A B : Type} (f : A -> result B) (l : list A) (bs : list B) :
  mapM f l = Ok bs ->
  forall i b, nth_error bs i = Some b -> exists a, nth_error l i = Some a /\ f a = Ok b.
Proof.
  intros H. apply mapM_ok_Forall2 in H.
  induction H as [|a b l bs Hab _ IH]; intros i x Hi.
  - destruct i; discriminate Hi.
  - destruct i as [|i]; simpl in *.
    + injection Hi as <-. exists a. split; [reflexivity | exact Hab].
    + apply IH, Hi.
Qed.

Lemma mapM_ext {A B : Type} (f g : A -> result B) (l : list A) :
  (forall a, In a l -> f a = g a) -> mapM f l = mapM g l.
Proof.
  induction l as [|a l IH]; intros H; simpl.
  - reflexivity.
  - rewrite (H a (or_introl eq_refl)), IH; [reflexivity|].
    intros x Hx. apply H. right. exact Hx.
Qed.

(** ** Unpacking the latent mapping *)

Lemma py_zip_star_iteritems (kv : string * pyobj) (latent : dict pyobj) :
  py_zip_star (iteritems (kv :: latent))
  = [map (fun kv => PyStr (fst kv)) (kv :: latent); map snd (kv :: latent)].
Proof.
  revert kv; induction latent as [|kv' latent IH]; intros kv.
  - reflexivity.
  - change (py_zip_star (iteritems (kv :: kv' :: latent)))
      with (zip_with cons [PyStr (fst kv); snd kv] (py_zip_star (iteritems (kv' :: latent)))).
    rewrite IH. reflexivity.
Qed.

Lemma first_non_variable (latent : dict pyobj) :
  existsb (fun kv => negb (isinstance_Variable (snd kv))) latent = true ->
  exists good k o rest,
    latent = good ++ (k, o) :: rest
    /\ forallb (fun kv => isinstance_Variable (snd kv)) good = true
    /\ isinstance_Variable o = false.
Proof.
  induction latent as [|[k o] latent IH]; simpl; intros H.
  - discriminate H.
  - destruct (isinstance_Variable o) eqn:Ho; simpl in H.
    + destruct (IH H) as (good & k' & o' & rest & -> & Hgood & Ho').
      exists ((k, o) :: good), k', o', rest. simpl. rewrite Ho, Hgood. auto.
    + exists [], k, o, latent. simpl. auto.
Qed.

Lemma check_latent_raises (latent_k : list pyobj) (good : dict pyobj) (k : string)
  (o : pyobj) (rest : dict pyobj) (i : nat) :
  forallb (fun kv => isinstance_Variable (snd kv)) good = true ->
  isinstance_Variable o = false ->
  nth_error latent_k (i + length good) = Some (PyStr k) ->
  check_latent latent_k i (map snd (good ++ (k, o) :: rest))
  = Raise (TypeError ("latent['" ++ k ++ "'] is not a tensorflow Variable.")).
Proof.
  revert i; induction good as [|[k' o'] good IH]; simpl; intros i Hgood Ho Hk.
  - rewrite Ho. unfold index. rewrite Nat.add_0_r in Hk. rewrite Hk. reflexivity.
  - apply andb_prop in Hgood as [Ho' Hgood]. rewrite Ho'.
    apply IH; [exact Hgood | exact Ho |].
    rewrite <- Hk. f_equal. lia.
Qed.

Lemma check_latent_passes (latent_k : list pyobj) (latent_v : list pyobj) (i : nat) :
  forallb isinstance_Variable latent_v = true -> check_latent latent_k i latent_v = Ok tt.
Proof.
  revert i; induction latent_v as [|v latent_v IH]; simpl; intros i H.
  - reflexivity.
  - apply andb_prop in H as [Hv H]. rewrite Hv. apply IH, H.
Qed.

Lemma check_latent_ok (latent_k : list pyobj) (latent_v : list pyobj) (i : nat) (u : unit) :
  check_latent latent_k i latent_v = Ok u -> forallb isinstance_Variable latent_v = true.
Proof.
  revert i; induction latent_v as [|v latent_v IH]; simpl; intros i H.
  - reflexivity.
  - destruct (isinstance_Variable v).
    + simpl. eapply IH, H.
    + destruct (index latent_k i); discriminate H.
Qed.

Lemma nth_error_keys (good : dict pyobj) (k : string) (o : pyobj) (rest : dict pyobj) :
  nth_error (map (fun kv => PyStr (fst kv)) (good ++ (k, o) :: rest)) (0 + length good)
  = Some (PyStr k).
Proof.
  induction good as [|kv good IH]; simpl.
  - reflexivity.
  - exact IH.
Qed.

(** What [sample] does up to the type check, for a mapping that is not
    empty. *)
Lemma sample_checks (self : sampler) (mm : meta_model_t) (observed : dict tensor)
  (kv : string * pyobj) (latent : dict pyobj) (s : session) (e : exn) :
  check_latent (map (fun kv => PyStr (fst kv)) (kv :: latent)) 0 (map snd (kv :: latent))
  = Raise e ->
  exists self',
    sample self mm observed (kv :: latent) s = (Raise e, self', s)
    /\ auxiliary self' = auxiliary self.
Proof.
  intros H. unfold sample.
  rewrite py_zip_star_iteritems. cbv beta iota delta [unpack2].
  rewrite H.
  eexists. split; [reflexivity|].
  destruct self, mm; reflexivity.
Qed.

Lemma auxiliary_store_arguments (self : sampler) (mm : meta_model_t)
  (observed : dict tensor) (latent : dict pyobj) :
  auxiliary (store_arguments self mm observed latent) = auxiliary self.
Proof. destruct self, mm; reflexivity. Qed.

Lemma handles_variables (objs : list pyobj) :
  forallb isinstance_Variable objs = true -> map PyVariable (handles objs) = objs.
Proof.
  induction objs as [|o objs IH]; simpl; intros H.
  - reflexivity.
  - apply andb_prop in H as [Ho H].
    destruct o; try discriminate Ho. simpl. rewrite IH by exact H. reflexivity.
Qed.

Lemma handles_nth (latent : dict pyobj) (i : nat) (k : string) (q : var) :
  forallb isinstance_Variable (map snd latent) = true ->
  nth_error latent i = Some (k, PyVariable q) ->
  nth_error (handles (map snd latent)) i = Some q.
Proof.
  intros Hall Hi. apply handles_variables in Hall.
  assert (H : nth_error (map PyVariable (handles (map snd latent))) i = Some (PyVariable q)).
  { rewrite Hall. rewrite nth_error_map, Hi. reflexivity. }
  rewrite nth_error_map in H.
  destruct (nth_error (handles (map snd latent)) i); [|discriminate H].
  simpl in H. injection H as <-. reflexivity.
Qed.

Lemma handles_length (latent : dict pyobj) :
  forallb isinstance_Variable (map snd latent) = true ->
  length (handles (map snd latent)) = length latent.
Proof.
  intros Hall. apply handles_variables in Hall.
  rewrite <- (length_map PyVariable), Hall, length_map. reflexivity.
Qed.

(** What a successful [sample] went through. *)
Lemma sample_ok (self : sampler) (mm : meta_model_t) (observed : dict tensor)
  (latent : dict pyobj) (s : session) (b : bound) (self' : sampler) (s' : session) :
  sample self mm observed latent s = (Ok b, self', s') ->
  latent <> []
  /\ forallb isinstance_Variable (map snd latent) = true
  /\ exists r g,
       call_define_variables (store_arguments self mm observed latent)
         (handles (map snd latent)) s = Ok (r, self', s')
       /\ call_update self' (handles (map snd latent)) get_gradient = Ok (Value g)
       /\ b = bound_of (map (fun kv => PyStr (fst kv)) latent) g.
Proof.
  unfold sample. destruct latent as [|kv latent].
  - simpl. intros H. discriminate H.
  - rewrite py_zip_star_iteritems. cbv beta iota delta [unpack2 copy].
    destruct (check_latent _ 0 _) as [u|e] eqn:Hcheck; [|intros H; discriminate H].
    apply check_latent_ok in Hcheck.
    destruct (call_define_variables _ _ s) as [[[r self1] s1]|e] eqn:Hdef;
      [|intros H; discriminate H].
    destruct (call_update self1 _ get_gradient) as [[g| |e]|e] eqn:Hupd;
      intros H; try discriminate H.
    injection H as <- <- <-.
    split; [discriminate|]. split; [exact Hcheck|].
    exists r, g. auto.
Qed.

(** C2: the update and variable-definition hooks of the base class return
    normally: what they hand back is a NotImplementedError instance, which
    they do not raise. *)
Theorem base_hooks_return_error_instance :
  forall (o : SGMCMC.obj) (qs : list var) (grad_func : grad_func_t),
    SGMCMC._update o qs grad_func = Ok (ExnInstance NotImplementedError)
    /\ SGMCMC._define_variables o qs = Ok (ExnInstance NotImplementedError)
    /\ (forall e, SGMCMC._update o qs grad_func <> Raise e)
    /\ (forall e, SGMCMC._define_variables o qs <> Raise e).
Proof.
  intros o qs grad_func. repeat split; intros e H; discriminate H.
Qed.

(** Binding the base class fails only when [sample] unpacks what [_update]
    handed back, and with a TypeError. *)
Lemma sample_base_class (o : SGMCMC.obj) (mm : meta_model_t) (observed : dict tensor)
  (latent : dict pyobj) (s : session) :
  latent <> [] ->
  forallb isinstance_Variable (map snd latent) = true ->
  fst (fst (sample (Base o) mm observed latent s))
  = Raise (TypeError "zip argument after * must be an iterable, not NotImplementedError").
Proof.
  intros Hne Hall. unfold sample. destruct latent as [|kv latent]; [contradiction|].
  rewrite py_zip_star_iteritems. cbv beta iota delta [unpack2 copy].
  rewrite check_latent_passes by exact Hall.
  destruct mm; reflexivity.
Qed.

(** C3: binding a mapping in which some value is not a variable raises the
    TypeError that names the first such key, on every class, and leaves the
    session and the auxiliary variables of the sampler as they were. *)
Theorem sample_rejects_non_variable :
  forall (self : sampler) (mm : meta_model_t) (observed : dict tensor)
    (latent : dict pyobj) (s : session),
    existsb (fun kv => negb (isinstance_Variable (snd kv))) latent = true ->
    exists good k o rest self',
      latent = good ++ (k, o) :: rest
      /\ forallb (fun kv => isinstance_Variable (snd kv)) good = true
      /\ isinstance_Variable o = false
      /\ sample self mm observed latent s
         = (Raise (TypeError ("latent['" ++ k ++ "'] is not a tensorflow Variable.")),
            self', s)
      /\ auxiliary self' = auxiliary self.
Proof.
  intros self mm observed latent s H.
  destruct (first_non_variable latent H) as (good & k & o & rest & Hlatent & Hgood & Ho).
  assert (Hcheck : check_latent (map (fun kv => PyStr (fst kv)) latent) 0 (map snd latent)
                   = Raise (TypeError ("latent['" ++ k ++ "'] is not a tensorflow Variable."))).
  { rewrite Hlatent. apply check_latent_raises; [exact Hgood | exact Ho |].
    apply nth_error_keys. }
  destruct latent as [|kv latent].
  - destruct good; discriminate Hlatent.
  - destruct (@sample_checks self mm observed kv latent s _ Hcheck) as (self' & Hs & Haux).
    exists good, k, o, rest, self'. auto.
Qed.

Lemma sample_rejects_non_variable_witness :
  exists good k o rest self',
    [("w"%string, PyVariable 0); ("b"%string, PyFloat 1%R)] = good ++ (k, o) :: rest
    /\ forallb (fun kv => isinstance_Variable (snd kv)) good = true
    /\ isinstance_Variable o = false
    /\ sample (Sgnht (fst (SGNHT.__init__ (scalar 0.1%R) (scalar 0%R) (scalar 1%R)
                             (mkSession [] [scalar 0%R]))))
         (Callable "log_joint") []
         [("w"%string, PyVariable 0); ("b"%string, PyFloat 1%R)]
         (mkSession [(-1)%Z] [scalar 0%R])
       = (Raise (TypeError ("latent['" ++ k ++ "'] is not a tensorflow Variable.")),
          self', mkSession [(-1)%Z] [scalar 0%R])
    /\ auxiliary self'
       = auxiliary (Sgnht (fst (SGNHT.__init__ (scalar 0.1%R) (scalar 0%R) (scalar 1%R)
                                  (mkSession [] [scalar 0%R])))).
Proof.
  apply sample_rejects_non_variable. reflexivity.
Defined.

(** C10: binding an empty mapping raises the ValueError of the unpacking
    assignment, on every class; the type check, which has nothing to reject
    in an empty list of values, is not what fails. *)
Theorem sample_empty_latent_unpack_error :
  forall (self : sampler) (mm : meta_model_t) (observed : dict tensor) (s : session),
    exists self',
      sample self mm observed [] s
      = (Raise (ValueError "not enough values to unpack (expected 2, got 0)"), self', s)
      /\ auxiliary self' = auxiliary self
      /\ (forall latent_k i, check_latent latent_k i [] = Ok tt)
      /\ unpack2 (py_zip_star (iteritems [])) 
         = Raise (ValueError "not enough values to unpack (expected 2, got 0)").
Proof.
  intros self mm observed s.
  exists (store_arguments self mm observed []).
  split; [reflexivity|]. split; [apply auxiliary_store_arguments|].
  split; reflexivity.
Qed.

(** ** Variables *)

Lemma new_variables_spec (inits : list tensor) (s : session) :
  new_variables inits s
  = (seq (length (fvars s)) (length inits), mkSession (ivars s) (fvars s ++ inits)).
Proof.
  revert s; induction inits as [|init inits IH]; intros s; simpl.
  - rewrite app_nil_r. destruct s; reflexivity.
  - rewrite IH. simpl. rewrite length_app, Nat.add_1_r, <- app_assoc. reflexivity.
Qed.

Lemma read_value_at (s : session) (v : var) (x : tensor) :
  read s v = Ok x <-> nth_error (fvars s) v = Some x.
Proof.
  unfold read. destruct (nth_error (fvars s) v) as [y|]; split; intros H;
    try discriminate H; injection H as <-; reflexivity.
Qed.

Lemma nth_error_value_at (s : session) (v : var) (x : tensor) :
  nth_error (fvars s) v = Some x -> value_at s v = x.
Proof. intros H. unfold value_at. apply nth_error_nth, H. Qed.

Lemma holds_read (s : session) (shp : list nat) (v : var) :
  holds s shp v = true -> read s v = Ok (value_at s v).
Proof.
  unfold holds, read. destruct (nth_error (fvars s) v) as [x|] eqn:Hx; [|discriminate].
  intros _. rewrite (nth_error_value_at _ _ Hx). reflexivity.
Qed.

Lemma mapM_read (s : session) (qs : list var) :
  forallb (fun q => holds s (shape_at s q) q) qs = true ->
  mapM (read s) qs = Ok (map (value_at s) qs).
Proof.
  induction qs as [|q qs IH]; simpl; intros H.
  - reflexivity.
  - apply andb_prop in H as [Hq H]. rewrite (holds_read _ _ _ Hq). simpl.
    rewrite IH by exact H. reflexivity.
Qed.

Lemma mapM_read_values (s : session) (qs : list var) (xs : list tensor) :
  mapM (read s) qs = Ok xs -> xs = map (value_at s) qs.
Proof.
  revert xs; induction qs as [|q qs IH]; simpl; intros xs H.
  - injection H as <-. reflexivity.
  - apply bind_ok in H as (x & Hx & H). apply bind_ok in H as (xs' & Hxs & H).
    injection H as <-. apply read_value_at, nth_error_value_at in Hx.
    rewrite Hx, (IH _ Hxs). reflexivity.
Qed.

Lemma get_gradient_ready (env : run_env) (s : session) (qs : list var) :
  forallb (fun q => holds s (shape_at s q) q) qs = true ->
  get_gradient env s qs = Ok (gradients env (map (value_at s) qs)).
Proof. intros H. unfold get_gradient. rewrite mapM_read by exact H. reflexivity. Qed.

Lemma nth_error_app_seq {A : Type} (l l' : list A) (i : nat) :
  nth_error (l ++ l') (length l + i) = nth_error l' i.
Proof.
  rewrite nth_error_app2 by lia. f_equal. lia.
Qed.

Lemma nth_error_seq_Some (a n i : nat) :
  i < n -> nth_error (seq a n) i = Some (a + i).
Proof.
  revert a i; induction n as [|n IH]; intros a i Hi; [lia|].
  destruct i as [|i]; simpl.
  - f_equal. lia.
  - rewrite IH by lia. f_equal. lia.
Qed.

(** What [SGNHT._define_variables] allocates. *)
Lemma sgnht_define_variables (o o' : SGNHT.obj) (qs : list var) (s s' : session) :
  SGNHT._define_variables o qs s = Ok (o', s') ->
  let n := length qs in
  let first := length (fvars s) in
  SGNHT.vs o' = Some (seq first n)
  /\ SGNHT.xis o' = Some (seq (first + n) n)
  /\ SGNHT.base o' = SGNHT.base o
  /\ SGNHT.lr o' = SGNHT.lr o /\ SGNHT.alpha o' = SGNHT.alpha o
  /\ SGNHT.tune_rate o' = SGNHT.tune_rate o
  /\ ivars s' = ivars s
  /\ fvars s'
     = fvars s ++ map (fun q => zeros_like (value_at s q)) qs
         ++ map (fun _ => SGNHT.alpha o) qs.
Proof.
  unfold SGNHT._define_variables. intros H.
  apply bind_ok in H as (qvs & Hqvs & H).
  pose proof (mapM_length _ _ Hqvs) as Hlen.
  apply mapM_read_values in Hqvs. subst qvs.
  rewrite !new_variables_spec in H. simpl in H.
  injection H as <- <-. simpl.
  rewrite !length_map, length_app, !length_map, map_map, <- app_assoc.
  repeat split; reflexivity.
Qed.

(** What [SGHMC._define_variables] allocates. *)
Lemma sghmc_define_variables (o o' : SGHMC.obj) (qs : list var) (s s' : session) :
  SGHMC._define_variables o qs s = Ok (o', s') ->
  SGHMC.vs o' = Some (seq (length (fvars s)) (length qs))
  /\ SGHMC.base o' = SGHMC.base o
  /\ SGHMC.lr o' = SGHMC.lr o /\ SGHMC.alpha o' = SGHMC.alpha o
  /\ SGHMC.beta o' = SGHMC.beta o
  /\ SGHMC.n_iter_resample_v o' = SGHMC.n_iter_resample_v o
  /\ ivars s' = ivars s
  /\ fvars s' = fvars s ++ map (fun q => zeros_like (value_at s q)) qs.
Proof.
  unfold SGHMC._define_variables. intros H.
  apply bind_ok in H as (qvs & Hqvs & H).
  apply mapM_read_values in Hqvs. subst qvs.
  rewrite new_variables_spec in H. simpl in H.
  injection H as <- <-. simpl.
  rewrite !length_map, map_map.
  repeat split; reflexivity.
Qed.

(** [sample] stores its arguments in the base part of the object only. *)
Lemma store_arguments_sghmc (o : SGHMC.obj) (mm : meta_model_t) (observed : dict tensor)
  (latent : dict pyobj) :
  exists b, SGMCMC.t b = SGMCMC.t (SGHMC.base o)
    /\ store_arguments (Sghmc o) mm observed latent
       = Sghmc (SGHMC.mk b (SGHMC.lr o) (SGHMC.alpha o) (SGHMC.beta o)
                  (SGHMC.n_iter_resample_v o) (SGHMC.vs o)).
Proof. destruct mm; eexists; (split; [|reflexivity]); reflexivity. Qed.

Lemma store_arguments_sgnht (o : SGNHT.obj) (mm : meta_model_t) (observed : dict tensor)
  (latent : dict pyobj) :
  exists b, SGMCMC.t b = SGMCMC.t (SGNHT.base o)
    /\ store_arguments (Sgnht o) mm observed latent
       = Sgnht (SGNHT.mk b (SGNHT.lr o) (SGNHT.alpha o) (SGNHT.tune_rate o)
                  (SGNHT.vs o) (SGNHT.xis o)).
Proof. destruct mm; eexists; (split; [|reflexivity]); reflexivity. Qed.

(** C4, as the code has it: binding an SGNHT sampler gives every latent a
    velocity of zeros in the latent's shape and a thermostat variable that
    holds the tensor alpha itself, in the shape of alpha. *)
Theorem sgnht_auxiliary_state_at_bind :
  forall (o : SGNHT.obj) (mm : meta_model_t) (observed : dict tensor)
    (latent : dict pyobj) (s : session) (b : bound) (self' : sampler) (s' : session),
    sample (Sgnht o) mm observed latent s = (Ok b, self', s') ->
    exists o' vs xis,
      self' = Sgnht o'
      /\ SGNHT.vs o' = Some vs /\ SGNHT.xis o' = Some xis
      /\ length vs = length latent /\ length xis = length latent
      /\ forall i k q, nth_error latent i = Some (k, PyVariable q) ->
           exists x v xi,
             read s q = Ok x /\ read s' q = Ok x
             /\ nth_error vs i = Some v /\ nth_error xis i = Some xi
             /\ read s' v = Ok (zeros (shape x))
             /\ read s' xi = Ok (SGNHT.alpha o)
             /\ shape_at s' v = shape_at s' q
             /\ shape_at s' xi = shape (SGNHT.alpha o).
Proof.
  intros o mm observed latent s b self' s' H.
  apply sample_ok in H as (_ & Hall & r & g & Hdef & _ & _).
  pose proof (handles_length latent Hall) as Hlen.
  set (qs := handles (map snd latent)) in *.
  destruct (store_arguments_sgnht o mm observed latent) as (b0 & _ & Hstore).
  rewrite Hstore in Hdef. simpl in Hdef.
  apply bind_ok in Hdef as ([o' s1] & Hdef & Hret). injection Hret as _ <- <-.
  pose proof Hdef as Hreads.
  unfold SGNHT._define_variables in Hreads. apply bind_ok in Hreads as (qvs & Hreads & _).
  apply sgnht_define_variables in Hdef. simpl in Hdef.
  destruct Hdef as (Hvs & Hxis & _ & _ & Halpha & _ & _ & Hf).
  exists o', (seq (length (fvars s)) (length qs)), (seq (length (fvars s) + length qs) (length qs)).
  split; [reflexivity|]. split; [exact Hvs|]. split; [exact Hxis|].
  rewrite !length_seq. split; [exact Hlen|]. split; [exact Hlen|].
  intros i k q Hi.
  pose proof (handles_nth latent i Hall Hi) as Hq. fold qs in Hq.
  destruct (mapM_nth _ _ Hreads _ Hq) as (x & _ & Hx).
  assert (Hi' : i < length qs) by (apply nth_error_Some; rewrite Hq; discriminate).
  pose proof Hx as Hxn. apply read_value_at in Hxn.
  pose proof (nth_error_value_at _ _ Hxn) as Hval.
  assert (Hq' : nth_error (fvars s1) q = Some x).
  { rewrite Hf. rewrite nth_error_app1; [exact Hxn|]. apply nth_error_Some. rewrite Hxn. discriminate. }
  assert (Hv' : nth_error (fvars s1) (length (fvars s) + i) = Some (zeros (shape x))).
  { rewrite Hf, nth_error_app_seq, nth_error_app1 by (rewrite length_map; exact Hi').
    rewrite nth_error_map, Hq. simpl. rewrite Hval. reflexivity. }
  assert (Hxi' : nth_error (fvars s1) (length (fvars s) + length qs + i) = Some (SGNHT.alpha o)).
  { rewrite Hf, <- Nat.add_assoc, nth_error_app_seq.
    replace (length qs + i) with (length (map (fun q => zeros_like (value_at s q)) qs) + i)
      by (rewrite length_map; reflexivity).
    rewrite nth_error_app_seq, nth_error_map, Hq. reflexivity. }
  exists x, (length (fvars s) + i), (length (fvars s) + length qs + i).
  split; [exact Hx|]. split; [apply read_value_at, Hq'|].
  split; [apply nth_error_seq_Some, Hi'|]. split; [apply nth_error_seq_Some, Hi'|].
  split; [apply read_value_at, Hv'|]. split; [apply read_value_at, Hxi'|].
  unfold shape_at.
  rewrite (nth_error_value_at _ _ Hq'), (nth_error_value_at _ _ Hv'),
    (nth_error_value_at _ _ Hxi').
  split; reflexivity.
Qed.

Lemma sgnht_auxiliary_state_at_bind_witness :
  exists b self' s',
    sample (Sgnht (fst (SGNHT.__init__ (scalar 0.1%R) (scalar 0%R) (scalar 1%R)
                          (mkSession [] [mkTensor [2] [1%R; 2%R]]))))
      (Callable "log_joint") [] [("w"%string, PyVariable 0)]
      (mkSession [(-1)%Z] [mkTensor [2] [1%R; 2%R]])
    = (Ok b, self', s')
    /\ exists o' vs xis,
         self' = Sgnht o'
         /\ SGNHT.vs o' = Some vs /\ SGNHT.xis o' = Some xis
         /\ length vs = 1 /\ length xis = 1
         /\ forall i k q, nth_error [("w"%string, PyVariable 0)] i = Some (k, PyVariable q) ->
              exists x v xi,
                read (mkSession [(-1)%Z] [mkTensor [2] [1%R; 2%R]]) q = Ok x
                /\ read s' q = Ok x
                /\ nth_error vs i = Some v /\ nth_error xis i = Some xi
                /\ read s' v = Ok (zeros (shape x))
                /\ read s' xi = Ok (scalar 0%R)
                /\ shape_at s' v = shape_at s' q
                /\ shape_at s' xi = [].
Proof.
  eexists _, _, _. split; [reflexivity|].
  eapply (sgnht_auxiliary_state_at_bind
            (fst (SGNHT.__init__ (scalar 0.1%R) (scalar 0%R) (scalar 1%R)
                    (mkSession [] [mkTensor [2] [1%R; 2%R]])))
            (Callable "log_joint") [] [("w"%string, PyVariable 0)]
            (mkSession [(-1)%Z] [mkTensor [2] [1%R; 2%R]])).
  reflexivity.
Defined.

(** C4 as stated fails: a latent of shape [2] bound to an SGNHT sampler
    with the default rank-0 alpha gets a thermostat variable of shape [],
    which is not the latent's shape. *)
Lemma sgnht_thermostat_shape_counterexample :
  exists b o' s' xi,
    sample (Sgnht (fst (SGNHT.__init__ (scalar 0.1%R) (scalar 0%R) (scalar 1%R)
                          (mkSession [] [mkTensor [2] [1%R; 2%R]]))))
      (Callable "log_joint") [] [("w"%string, PyVariable 0)]
      (mkSession [(-1)%Z] [mkTensor [2] [1%R; 2%R]])
    = (Ok b, Sgnht o', s')
    /\ SGNHT.xis o' = Some [xi]
    /\ read s' xi = Ok (scalar 0%R)
    /\ shape_at s' 0 = [2]
    /\ shape_at s' xi = []
    /\ shape_at s' xi <> shape_at s' 0.
Proof.
  eexists _, _, _, _. split; [reflexivity|].
  repeat split; try reflexivity. intros H. discriminate H.
Qed.

(** ** Tensor algebra on tabulated tensors *)

Lemma shape_eqb_refl (s : list nat) : shape_eqb s s = true.
Proof. unfold shape_eqb. destruct (list_eq_dec Nat.eq_dec s s); congruence. Qed.

Lemma shape_eqb_eq (s s' : list nat) : shape_eqb s s' = true -> s = s'.
Proof. unfold shape_eqb. destruct (list_eq_dec Nat.eq_dec s s'); congruence. Qed.

Lemma list_tabulate {A : Type} (l : list A) (d : A) (a : nat) :
  map (fun j => nth (j - a) l d) (seq a (length l)) = l.
Proof.
  revert a; induction l as [|x l IH]; intros a; simpl.
  - reflexivity.
  - rewrite Nat.sub_diag. f_equal.
    rewrite <- (IH (S a)) at 2. apply map_ext_in.
    intros j Hj. apply in_seq in Hj.
    replace (j - a) with (S (j - S a)) by lia. reflexivity.
Qed.

Lemma as_tab (x : tensor) : wf_b x = true -> x = tab (shape x) (elem x).
Proof.
  unfold wf_b, tab, elem. intros H. apply Nat.eqb_eq in H.
  destruct x as [shp dat]; simpl in *. f_equal.
  rewrite <- H. rewrite <- (list_tabulate dat 0%R 0) at 1.
  apply map_ext. intros j. rewrite Nat.sub_0_r. reflexivity.
Qed.

Lemma tab_ext (s : list nat) (f g : nat -> R) :
  (forall j, j < numel s -> f j = g j) -> tab s f = tab s g.
Proof.
  intros H. unfold tab. f_equal. apply map_ext_in.
  intros j Hj. apply in_seq in Hj. apply H. lia.
Qed.

Lemma wf_tab (s : list nat) (f : nat -> R) : wf_b (tab s f) = true.
Proof. unfold wf_b, tab. simpl. rewrite length_map, length_seq. apply Nat.eqb_refl. Qed.

Lemma elem_tab (s : list nat) (f : nat -> R) (j : nat) :
  j < numel s -> elem (tab s f) j = f j.
Proof.
  intros Hj. unfold elem, tab. simpl.
  rewrite (nth_indep _ 0%R (f 0)) by (rewrite length_map, length_seq; exact Hj).
  rewrite map_nth, seq_nth by exact Hj. reflexivity.
Qed.

Lemma zip_with_map {A : Type} (f : R -> R -> R) (a b : A -> R) (l : list A) :
  zip_with f (map a l) (map b l) = map (fun j => f (a j) (b j)) l.
Proof. induction l as [|x l IH]; simpl; [reflexivity | rewrite IH; reflexivity]. Qed.

Lemma tmap_tab (g : R -> R) (s : list nat) (a : nat -> R) :
  tmap g (tab s a) = tab s (fun j => g (a j)).
Proof. unfold tmap, tab. simpl. rewrite map_map. reflexivity. Qed.

Lemma binop_tab_tab (f : R -> R -> R) (s : list nat) (a b : nat -> R) :
  binop f (tab s a) (tab s b) = Ok (tab s (fun j => f (a j) (b j))).
Proof.
  destruct s as [|n s].
  - reflexivity.
  - unfold binop, as_scalar. simpl shape. cbv iota.
    rewrite shape_eqb_refl. unfold tab. simpl shape. simpl data.
    rewrite zip_with_map. reflexivity.
Qed.

Lemma binop_scalar_l (f : R -> R -> R) (c : R) (x : tensor) :
  binop f (scalar c) x = Ok (tmap (f c) x).
Proof. reflexivity. Qed.

Lemma binop_scalar_r (f : R -> R -> R) (x : tensor) (c : R) :
  binop f x (scalar c) = Ok (tmap (fun a => f a c) x).
Proof. destruct x as [[|n s] [|r [|r' dat]]]; reflexivity. Qed.

Lemma tadd_tab (s : list nat) (a b : nat -> R) :
  tadd (tab s a) (tab s b) = Ok (tab s (fun j => a j + b j)%R).
Proof. apply binop_tab_tab. Qed.

Lemma tmul_scalar_tab (c : R) (s : list nat) (a : nat -> R) :
  tmul (scalar c) (tab s a) = Ok (tab s (fun j => c * a j)%R).
Proof. unfold tmul. rewrite binop_scalar_l, tmap_tab. reflexivity. Qed.

Lemma tmul_scalars (c d : R) : tmul (scalar c) (scalar d) = Ok (scalar (c * d)%R).
Proof. reflexivity. Qed.

Lemma tsub_scalars (c d : R) : tsub (scalar c) (scalar d) = Ok (scalar (c - d)%R).
Proof. reflexivity. Qed.

Lemma tadd_scalars (c d : R) : tadd (scalar c) (scalar d) = Ok (scalar (c + d)%R).
Proof. reflexivity. Qed.

Lemma tf_sqrt_scalar (c : R) : tf_sqrt (scalar c) = scalar (sqrt c).
Proof. reflexivity. Qed.

Lemma random_normal_scalar (z : nat -> R) (s : list nat) (sigma : R) :
  random_normal z s (scalar sigma) = Ok (tab s (fun j => z j * sigma + 0)%R).
Proof.
  unfold random_normal. change (mkTensor s (map z (seq 0 (numel s)))) with (tab s z).
  unfold tmul, tadd. rewrite binop_scalar_r. cbn [bind].
  rewrite binop_scalar_r, !tmap_tab. reflexivity.
Qed.

Lemma reduce_mean_tpow2 (x : tensor) :
  reduce_mean (tpow2 x) = scalar (Spec.mean_k (data x)).
Proof.
  unfold reduce_mean, tpow2, tmap, Spec.mean_k. simpl.
  rewrite length_map. f_equal. f_equal. f_equal. apply map_ext.
  intros a. simpl. ring.
Qed.

Lemma read_assign (s : session) (v : var) (old new : tensor) :
  read s v = Ok old -> shape old = shape new -> assign s v new = Ok (v, new).
Proof.
  intros H Hs. unfold assign. rewrite H. cbn [bind]. rewrite Hs, shape_eqb_refl. reflexivity.
Qed.

Lemma cond_tab (c : bool) (s : list nat) (f g : nat -> R) :
  (if c then Ok (tab s f) else Ok (tab s g))
  = Ok (tab s (fun j => if c then f j else g j)).
Proof. destruct c; reflexivity. Qed.

(** ** One latent, one step *)

Lemma sgld_single (o : SGLD.obj) (env : run_env) (s : session) (i : nat) (q : var)
  (lr : R) (shp : list nat) (qf gf : nat -> R) :
  SGLD.lr o = scalar lr ->
  read s q = Ok (tab shp qf) ->
  let new_q :=
    tab shp (fun j => Spec.sgld_new_q lr (qf j) (gf j) (normal env i Noise j)) in
  SGLD._update_single o env s i q (tab shp gf) = Ok ([(q, new_q)], new_q, None).
Proof.
  intros Hlr Hq new_q. unfold SGLD._update_single.
  rewrite Hq, Hlr. cbn [bind].
  rewrite tmul_scalars. cbn [bind].
  rewrite tmul_scalar_tab. cbn [bind].
  rewrite tadd_tab. cbn [bind].
  rewrite tf_sqrt_scalar. unfold tf_shape. simpl shape.
  rewrite random_normal_scalar. cbn [bind].
  rewrite tadd_tab. cbn [bind].
  assert (E : tab shp (fun j => (qf j + 0.5 * lr * gf j + (normal env i Noise j * sqrt lr + 0))%R)
              = new_q).
  { apply tab_ext. intros j _. unfold Spec.sgld_new_q, Spec.normal_draw. ring. }
  rewrite E.
  rewrite (read_assign _ _ _ Hq) by reflexivity. reflexivity.
Qed.

Lemma sghmc_single (o : SGHMC.obj) (env : run_env) (s : session) (new_t : Z) (i : nat)
  (q v : var) (lr alpha beta : R) (shp : list nat) (qf vf gf : nat -> R) :
  SGHMC.lr o = scalar lr -> SGHMC.alpha o = scalar alpha -> SGHMC.beta o = scalar beta ->
  SGHMC.n_iter_resample_v o <> 0%Z ->
  read s q = Ok (tab shp qf) ->
  read s v = Ok (tab shp vf) ->
  let old_v j :=
    Spec.sghmc_old_v (SGHMC.n_iter_resample_v o) new_t lr (vf j) (normal env i Momentum j) in
  let new_v j := Spec.sghmc_new_v lr alpha beta (old_v j) (gf j) (normal env i Noise j) in
  let new_q j := Spec.new_q (qf j) (new_v j) in
  SGHMC._update_single o env s new_t i q v (tab shp gf)
  = Ok ([(q, tab shp new_q); (v, tab shp new_v)], tab shp new_q,
        Some [("mean_k"%string, scalar (Spec.mean_k (data (tab shp new_v))))]).
Proof.
  intros Hlr Halpha Hbeta Hn Hq Hv old_v new_v new_q. unfold SGHMC._update_single.
  unfold tf_mod. destruct (Z.eqb_spec (SGHMC.n_iter_resample_v o) 0) as [E|_]; [contradiction|].
  cbn [bind]. unfold tf_cond, tf_equal.
  rewrite Hq, Hv, Hlr, Halpha, Hbeta. cbn [bind].
  rewrite tf_sqrt_scalar. unfold tf_shape. simpl shape.
  rewrite random_normal_scalar, cond_tab. cbn [bind].
  rewrite tsub_scalars. cbn [bind].
  rewrite tmul_scalar_tab. cbn [bind].
  rewrite tmul_scalar_tab. cbn [bind].
  rewrite tadd_tab. cbn [bind].
  rewrite tsub_scalars. cbn [bind].
  rewrite tmul_scalars. cbn [bind].
  rewrite tmul_scalars. cbn [bind].
  rewrite tf_sqrt_scalar. simpl shape.
  rewrite random_normal_scalar. cbn [bind].
  rewrite tadd_tab. cbn [bind].
  rewrite tadd_tab. cbn [bind].
  assert (Ev : forall j, j < numel shp ->
            ((1 - alpha) *
             (if (new_t mod SGHMC.n_iter_resample_v o =? 0)%Z
              then normal env i Momentum j * sqrt lr + 0 else vf j) + lr * gf j +
             (normal env i Noise j * sqrt (2 * (alpha - beta) * lr) + 0))%R = new_v j).
  { intros j _. unfold new_v, old_v, Spec.sghmc_new_v, Spec.sghmc_old_v, Spec.normal_draw.
    destruct (new_t mod SGHMC.n_iter_resample_v o =? 0)%Z; ring. }
  rewrite (tab_ext shp _ new_v Ev).
  assert (Eq : forall j, j < numel shp ->
            (qf j +
             ((1 - alpha) *
              (if (new_t mod SGHMC.n_iter_resample_v o =? 0)%Z
               then normal env i Momentum j * sqrt lr + 0 else vf j) + lr * gf j +
              (normal env i Noise j * sqrt (2 * (alpha - beta) * lr) + 0)))%R = new_q j).
  { intros j Hj. unfold new_q, Spec.new_q. rewrite <- (Ev j Hj). reflexivity. }
  rewrite (tab_ext shp _ new_q Eq).
  rewrite (read_assign _ _ _ Hq) by reflexivity. cbn [bind].
  rewrite (read_assign _ _ _ Hv) by reflexivity. cbn [bind].
  rewrite reduce_mean_tpow2. reflexivity.
Qed.

Lemma sgnht_single (o : SGNHT.obj) (env : run_env) (s : session) (new_t : Z) (i : nat)
  (q v xi : var) (lr alpha tune_rate xi0 : R) (shp : list nat) (qf vf gf : nat -> R) :
  SGNHT.lr o = scalar lr -> SGNHT.alpha o = scalar alpha ->
  SGNHT.tune_rate o = scalar tune_rate ->
  read s q = Ok (tab shp qf) ->
  read s v = Ok (tab shp vf) ->
  read s xi = Ok (scalar xi0) ->
  let old_v j := Spec.sgnht_old_v new_t lr (vf j) (normal env i Momentum j) in
  let new_v j := Spec.sgnht_new_v lr alpha xi0 (old_v j) (gf j) (normal env i Noise j) in
  let new_q j := Spec.new_q (qf j) (new_v j) in
  let mean_k := Spec.mean_k (data (tab shp new_v)) in
  let new_xi := Spec.sgnht_new_xi tune_rate lr xi0 mean_k in
  SGNHT._update_single o env s new_t i q v xi (tab shp gf)
  = Ok ([(q, tab shp new_q); (v, tab shp new_v); (xi, scalar new_xi)], tab shp new_q,
        Some [("mean_k"%string, scalar mean_k); ("xi"%string, scalar new_xi)]).
Proof.
  intros Hlr Halpha Htune Hq Hv Hxi old_v new_v new_q mean_k new_xi.
  unfold SGNHT._update_single.
  unfold tf_cond, tf_equal.
  rewrite Hq, Hv, Hxi, Hlr, Halpha, Htune. cbn [bind].
  rewrite tf_sqrt_scalar. unfold tf_shape. simpl shape.
  rewrite random_normal_scalar, cond_tab. cbn [bind].
  rewrite tsub_scalars. cbn [bind].
  rewrite tmul_scalar_tab. cbn [bind].
  rewrite tmul_scalar_tab. cbn [bind].
  rewrite tadd_tab. cbn [bind].
  rewrite tmul_scalars. cbn [bind].
  rewrite tmul_scalars. cbn [bind].
  rewrite tf_sqrt_scalar. simpl shape.
  rewrite random_normal_scalar. cbn [bind].
  rewrite tadd_tab. cbn [bind].
  rewrite tadd_tab. cbn [bind].
  assert (Ev : forall j, j < numel shp ->
            ((1 - xi0) *
             (if (new_t =? 0)%Z
              then normal env i Momentum j * sqrt lr + 0 else vf j) + lr * gf j +
             (normal env i Noise j * sqrt (2 * alpha * lr) + 0))%R = new_v j).
  { intros j _. unfold new_v, old_v, Spec.sgnht_new_v, Spec.sgnht_old_v, Spec.normal_draw.
    destruct (new_t =? 0)%Z; ring. }
  rewrite (tab_ext shp _ new_v Ev).
  assert (Eq : forall j, j < numel shp ->
            (qf j +
             ((1 - xi0) *
              (if (new_t =? 0)%Z
               then normal env i Momentum j * sqrt lr + 0 else vf j) + lr * gf j +
              (normal env i Noise j * sqrt (2 * alpha * lr) + 0)))%R = new_q j).
  { intros j Hj. unfold new_q, Spec.new_q. rewrite <- (Ev j Hj). reflexivity. }
  rewrite (tab_ext shp _ new_q Eq).
  rewrite reduce_mean_tpow2. fold mean_k.
  rewrite tsub_scalars. cbn [bind].
  rewrite tmul_scalars. cbn [bind].
  rewrite tadd_scalars. cbn [bind].
  rewrite (read_assign _ _ _ Hq) by reflexivity. cbn [bind].
  rewrite (read_assign _ _ _ Hv) by reflexivity. cbn [bind].
  rewrite (read_assign _ _ _ Hxi) by reflexivity. cbn [bind].
  reflexivity.
Qed.

(** ** Lists *)

Lemma distinct_NoDup (l : list nat) : distinct l = true -> NoDup l.
Proof.
  induction l as [|a l IH]; simpl; intros H.
  - constructor.
  - apply andb_prop in H as [Ha H]. constructor; [|apply IH, H].
    intros Hin. apply negb_true_iff in Ha.
    assert (E : existsb (Nat.eqb a) l = true).
    { apply existsb_exists. exists a. split; [exact Hin | apply Nat.eqb_refl]. }
    congruence.
Qed.

Lemma nth_error_combine {A B : Type} (l : list A) (l' : list B) (i : nat) (a : A) (b : B) :
  nth_error (combine l l') i = Some (a, b)
  <-> nth_error l i = Some a /\ nth_error l' i = Some b.
Proof.
  revert l' i; induction l as [|x l IH]; intros l' i.
  - simpl. destruct i; split; intros H; try discriminate H; destruct H as [H _]; discriminate H.
  - destruct l' as [|y l'].
    + simpl. destruct i; split; intros H; try discriminate H; destruct H as [_ H]; discriminate H.
    + destruct i as [|i]; simpl.
      * split; intros H.
        -- injection H as <- <-. auto.
        -- destruct H as [H1 H2]. injection H1 as <-. injection H2 as <-. reflexivity.
      * apply IH.
Qed.

Lemma nth_error_seq_inv (a n i x : nat) :
  nth_error (seq a n) i = Some x -> x = a + i /\ i < n.
Proof.
  intros H. assert (Hi : i < length (seq a n)).
  { apply nth_error_Some. rewrite H. discriminate. }
  rewrite length_seq in Hi.
  rewrite nth_error_seq_Some in H by exact Hi. injection H as <-. auto.
Qed.

Lemma mapM_combine_seq {A B : Type} (F : nat * A -> result B) (G : nat -> result B)
  (l : list A) (a : nat) :
  (forall i x, nth_error l i = Some x -> F (a + i, x) = G (a + i)) ->
  mapM F (combine (seq a (length l)) l) = mapM G (seq a (length l)).
Proof.
  revert a; induction l as [|x l IH]; intros a H; simpl.
  - reflexivity.
  - pose proof (H 0 x eq_refl) as H0. rewrite Nat.add_0_r in H0. rewrite H0.
    rewrite (IH (S a)); [reflexivity|].
    intros i y Hi. replace (S a + i) with (a + S i) by lia. apply H. exact Hi.
Qed.

Lemma mapM_seq_tabulate {B : Type} (G : nat -> result B) (R : nat -> B) (a n : nat) :
  (forall i, a <= i < a + n -> G i = Ok (R i)) ->
  mapM G (seq a n) = Ok (map R (seq a n)).
Proof.
  revert a; induction n as [|n IH]; intros a H; simpl.
  - reflexivity.
  - rewrite H by lia. cbn [bind]. rewrite IH; [reflexivity|].
    intros i Hi. apply H. lia.
Qed.

Lemma in_group (rs : list single) (w : write) :
  In w (tf_group (map update_op_of rs))
  <-> exists i r, nth_error rs i = Some r /\ In w (update_op_of r).
Proof.
  unfold tf_group. rewrite in_concat. split.
  - intros (ws & Hws & Hw). apply in_map_iff in Hws as (r & <- & Hr).
    apply In_nth_error in Hr as (i & Hi). exists i, r. auto.
  - intros (i & r & Hi & Hw). exists (update_op_of r). split; [|exact Hw].
    apply in_map. eapply nth_error_In, Hi.
Qed.

(** ** Committing writes *)

Lemma list_set_length {A : Type} (l : list A) (i : nat) (x : A) :
  length (list_set l i x) = length l.
Proof.
  revert i; induction l as [|a l IH]; intros [|i]; simpl; try reflexivity.
  rewrite IH. reflexivity.
Qed.

Lemma nth_error_list_set_eq {A : Type} (l : list A) (i : nat) (x : A) :
  i < length l -> nth_error (list_set l i x) i = Some x.
Proof.
  revert i; induction l as [|a l IH]; intros [|i] H; simpl in *; try lia.
  - reflexivity.
  - apply IH. lia.
Qed.

Lemma nth_error_list_set_neq {A : Type} (l : list A) (i j : nat) (x : A) :
  i <> j -> nth_error (list_set l i x) j = nth_error l j.
Proof.
  revert i j; induction l as [|a l IH]; intros [|i] [|j] H; simpl; try reflexivity.
  - contradiction.
  - apply IH. lia.
Qed.

Lemma run_op_ivars (ws : op) (s : session) : ivars (run_op ws s) = ivars s.
Proof.
  revert s; induction ws as [|w ws IH]; intros s.
  - reflexivity.
  - change (run_op (w :: ws) s) with (run_op ws (commit s w)). rewrite IH. reflexivity.
Qed.

Lemma run_op_other (ws : op) (s : session) (v : var) :
  (forall w, In w ws -> fst w <> v) ->
  nth_error (fvars (run_op ws s)) v = nth_error (fvars s) v.
Proof.
  revert s; induction ws as [|w ws IH]; intros s H.
  - reflexivity.
  - change (run_op (w :: ws) s) with (run_op ws (commit s w)).
    rewrite IH by (intros w' Hw'; apply H; right; exact Hw').
    simpl. apply nth_error_list_set_neq. apply H. left. reflexivity.
Qed.

Lemma run_op_write (ws : op) (s : session) (v : var) (x : tensor) :
  In (v, x) ws ->
  (forall x', In (v, x') ws -> x' = x) ->
  v < length (fvars s) ->
  nth_error (fvars (run_op ws s)) v = Some x.
Proof.
  revert s; induction ws as [|w ws IH]; intros s Hin Huniq Hv.
  - destruct Hin.
  - change (run_op (w :: ws) s) with (run_op ws (commit s w)).
    assert (Hlen : v < length (fvars (commit s w))).
    { simpl. rewrite list_set_length. exact Hv. }
    destruct (in_dec Nat.eq_dec v (map fst ws)) as [Hmem|Hmem].
    + apply in_map_iff in Hmem as ([v' x'] & Hfst & Hw). simpl in Hfst. subst v'.
      pose proof (Huniq x' (or_intror Hw)) as ->.
      apply IH; [exact Hw | | exact Hlen].
      intros y Hy. apply Huniq. right. exact Hy.
    + destruct Hin as [Hw|Hin].
      * subst w. rewrite run_op_other.
        -- simpl. apply nth_error_list_set_eq, Hv.
        -- intros w Hw E. apply Hmem. rewrite <- E. apply in_map, Hw.
      * exfalso. apply Hmem. change v with (fst (v, x)). apply in_map, Hin.
Qed.

(** ** Sessions a sampler can step from *)

Ltac split_andb :=
  repeat match goal with
    | H : _ && _ = true |- _ => apply andb_prop in H; destruct H
    end.

Lemma forallb_nth {A : Type} (f : A -> bool) (l : list A) (i : nat) (a : A) :
  forallb f l = true -> nth_error l i = Some a -> f a = true.
Proof.
  intros H Hi. rewrite forallb_forall in H. apply H. eapply nth_error_In, Hi.
Qed.

Lemma holds_value (s : session) (shp : list nat) (v : var) :
  holds s shp v = true ->
  nth_error (fvars s) v = Some (value_at s v)
  /\ shape (value_at s v) = shp /\ wf_b (value_at s v) = true.
Proof.
  unfold holds. destruct (nth_error (fvars s) v) as [x|] eqn:Hx; [|discriminate].
  intros H. split_andb. rewrite (nth_error_value_at _ _ Hx).
  split; [reflexivity|]. split; [apply shape_eqb_eq; assumption | assumption].
Qed.

Lemma holds_tab (s : session) (shp : list nat) (v : var) :
  holds s shp v = true -> read s v = Ok (tab shp (elem (value_at s v))).
Proof.
  intros H. apply holds_value in H as (Hv & Hs & Hwf).
  apply read_value_at. rewrite Hv. f_equal. rewrite <- Hs. apply as_tab, Hwf.
Qed.

Lemma ready_latents (self : sampler) (qs : list var) (s : session) :
  ready self qs s = true -> forallb (fun q => holds s (shape_at s q) q) qs = true.
Proof.
  destruct self as [o|o|o|o]; simpl; intros H; try discriminate H.
  - split_andb. assumption.
  - destruct (SGHMC.vs o); [|discriminate H]. split_andb. assumption.
  - destruct (SGNHT.vs o); [|discriminate H]. destruct (SGNHT.xis o); [|discriminate H].
    split_andb. assumption.
Qed.

Lemma ready_all_vars (self : sampler) (qs : list var) (s : session) :
  ready self qs s = true -> NoDup (all_vars self qs).
Proof.
  unfold all_vars.
  destruct self as [o|o|o|o]; simpl; intros H; try discriminate H.
  - split_andb. rewrite app_nil_r. apply distinct_NoDup. assumption.
  - destruct (SGHMC.vs o); [|discriminate H]. split_andb.
    rewrite app_nil_r. apply distinct_NoDup. assumption.
  - destruct (SGNHT.vs o); [|discriminate H]. destruct (SGNHT.xis o); [|discriminate H].
    split_andb. apply distinct_NoDup. assumption.
Qed.

Lemma ready_velocities (self : sampler) (qs : list var) (s : session) :
  ready self qs s = true ->
  match fst (auxiliary self) with
  | Some vs =>
      length vs = length qs
      /\ forallb (fun qv => holds s (shape_at s (fst qv)) (snd qv)) (combine qs vs) = true
  | None => assignments self = 1
  end.
Proof.
  destruct self as [o|o|o|o]; simpl; intros H; try discriminate H.
  - reflexivity.
  - destruct (SGHMC.vs o); [|discriminate H]. split_andb.
    split; [apply Nat.eqb_eq|]; assumption.
  - destruct (SGNHT.vs o); [|discriminate H]. destruct (SGNHT.xis o); [|discriminate H].
    split_andb. split; [apply Nat.eqb_eq|]; assumption.
Qed.

Lemma ready_thermostats (self : sampler) (qs : list var) (s : session) :
  ready self qs s = true ->
  match snd (auxiliary self) with
  | Some xis =>
      length xis = length qs /\ forallb (holds s []) xis = true
      /\ exists vs, fst (auxiliary self) = Some vs
  | None => assignments self <= 2
  end.
Proof.
  destruct self as [o|o|o|o]; simpl; intros H; try discriminate H.
  - lia.
  - lia.
  - destruct (SGNHT.vs o) as [vs|]; [|discriminate H].
    destruct (SGNHT.xis o); [|discriminate H].
    split_andb. split; [apply Nat.eqb_eq; assumption|]. split; [assumption|].
    exists vs. reflexivity.
Qed.

Lemma ready_counter (self : sampler) (qs : list var) (s : session) :
  ready self qs s = true -> uses_counter self = true ->
  exists old, read_int s (SGMCMC.t (base_of self)) = Ok old.
Proof.
  assert (E : forall b, has_counter s b = true -> exists old, read_int s (SGMCMC.t b) = Ok old).
  { intros b Hb. unfold has_counter in Hb. apply Nat.ltb_lt in Hb.
    unfold read_int. destruct (nth_error (ivars s) (SGMCMC.t b)) as [old|] eqn:Hold.
    - exists old. reflexivity.
    - apply nth_error_None in Hold. lia. }
  destruct self as [o|o|o|o]; simpl; intros H Hc; try discriminate.
  - destruct (SGHMC.vs o); [|discriminate H]. split_andb. apply E. assumption.
  - destruct (SGNHT.vs o); [|discriminate H]. destruct (SGNHT.xis o); [|discriminate H].
    split_andb. apply E. assumption.
Qed.

(** The variable a slot names, as a position in [all_vars]. *)
Lemma slot_index (self : sampler) (qs : list var) (s : session) (i k : nat) (v : var) :
  ready self qs s = true ->
  slot self qs i k = Some v ->
  nth_error (all_vars self qs) (k * length qs + i) = Some v
  /\ i < length qs /\ k < assignments self.
Proof.
  intros Hready Hslot.
  pose proof (ready_velocities _ _ _ Hready) as Hvs.
  pose proof (ready_thermostats _ _ _ Hready) as Hxis.
  unfold all_vars. unfold slot in Hslot.
  destruct k as [|[|[|k]]]; [| | |discriminate Hslot].
  - assert (Hi : i < length qs) by (apply nth_error_Some; rewrite Hslot; discriminate).
    simpl. rewrite nth_error_app1 by exact Hi.
    split; [exact Hslot|]. split; [exact Hi|].
    destruct self; simpl; try lia. discriminate Hready.
  - destruct (fst (auxiliary self)) as [vs|] eqn:Eaux; [|discriminate Hslot].
    destruct Hvs as [Hlen _].
    assert (Hi : i < length vs) by (apply nth_error_Some; rewrite Hslot; discriminate).
    rewrite Nat.mul_1_l, nth_error_app_seq, nth_error_app1 by exact Hi.
    split; [exact Hslot|]. split; [lia|].
    destruct self; simpl in *; try discriminate Eaux; lia.
  - destruct (snd (auxiliary self)) as [xis|] eqn:Eaux; [|discriminate Hslot].
    destruct Hxis as (Hlen & _ & vs & Evs). rewrite Evs in *. destruct Hvs as [Hlenv _].
    assert (Hi : i < length xis) by (apply nth_error_Some; rewrite Hslot; discriminate).
    replace (2 * length qs + i) with (length qs + (length vs + i)) by lia.
    rewrite !nth_error_app_seq.
    split; [exact Hslot|]. split; [lia|].
    destruct self; simpl in *; try discriminate Eaux; lia.
Qed.

Lemma slot_inj (self : sampler) (qs : list var) (s : session) (i k i' k' : nat) (v : var) :
  ready self qs s = true ->
  slot self qs i k = Some v -> slot self qs i' k' = Some v ->
  i = i' /\ k = k'.
Proof.
  intros Hready H H'.
  destruct (slot_index _ _ _ _ _ Hready H) as (Hn & Hi & _).
  destruct (slot_index _ _ _ _ _ Hready H') as (Hn' & Hi' & _).
  pose proof (ready_all_vars _ _ _ Hready) as Hnd.
  rewrite NoDup_nth_error in Hnd.
  assert (E : k * length qs + i = k' * length qs + i').
  { apply Hnd.
    - apply nth_error_Some. rewrite Hn. discriminate.
    - rewrite Hn, Hn'. reflexivity. }
  assert (k = k') by nia. subst k'. split; [lia | reflexivity].
Qed.

(** What a slot holds: a well-formed tensor, of the latent's shape for the
    latent and its velocity, of rank 0 for its thermostat variable. *)
Lemma slot_holds (self : sampler) (qs : list var) (s : session) (i k : nat) (v q : var) :
  ready self qs s = true ->
  nth_error qs i = Some q ->
  slot self qs i k = Some v ->
  holds s (if k =? 2 then [] else shape_at s q) v = true.
Proof.
  intros Hready Hq Hslot.
  pose proof (ready_velocities _ _ _ Hready) as Hvs.
  pose proof (ready_thermostats _ _ _ Hready) as Hxis.
  unfold slot in Hslot.
  destruct k as [|[|[|k]]]; [| | |discriminate Hslot]; simpl.
  - rewrite Hq in Hslot. injection Hslot as <-.
    apply (forallb_nth _ _ i (ready_latents _ _ _ Hready) Hq).
  - destruct (fst (auxiliary self)) as [vs|]; [|discriminate Hslot].
    destruct Hvs as [_ Hvs].
    assert (Hqv : nth_error (combine qs vs) i = Some (q, v)) by (apply nth_error_combine; auto).
    apply (forallb_nth _ _ i Hvs Hqv).
  - destruct (snd (auxiliary self)) as [xis|]; [|discriminate Hslot].
    destruct Hxis as (_ & Hxis & _).
    apply (forallb_nth _ _ i Hxis Hslot).
Qed.

Lemma slot_allocated (self : sampler) (qs : list var) (s : session) (i k : nat) (v : var) :
  ready self qs s = true -> slot self qs i k = Some v -> v < length (fvars s).
Proof.
  intros Hready Hslot.
  destruct (slot_index _ _ _ _ _ Hready Hslot) as (_ & Hi & _).
  destruct (nth_error qs i) as [q|] eqn:Hq; [|apply nth_error_None in Hq; lia].
  pose proof (@slot_holds self qs s i k v q Hready Hq Hslot) as H.
  apply holds_value in H as (H & _). apply nth_error_Some. rewrite H. discriminate.
Qed.

(** ** The list of triples, latent by latent *)

Lemma index_nth {A : Type} (l : list A) (i : nat) (a : A) :
  nth_error l i = Some a -> index l i = Ok a.
Proof. intros H. unfold index. rewrite H. reflexivity. Qed.

Lemma assign_add_fvars (s s' : session) (t : ivar) (delta new : Z) :
  assign_add s t delta = Ok (new, s') ->
  fvars s' = fvars s
  /\ exists old, read_int s t = Ok old /\ new = wrap32 (old + delta)
       /\ ivars s' = list_set (ivars s) t new.
Proof.
  unfold assign_add. intros H. apply bind_ok in H as (old & Hold & H).
  injection H as <- <-. split; [reflexivity|]. exists old. auto.
Qed.

Lemma get_gradient_fvars (env : run_env) (s s' : session) (qs : list var) :
  fvars s' = fvars s -> get_gradient env s' qs = get_gradient env s qs.
Proof.
  intros H. unfold get_gradient. f_equal. apply mapM_ext.
  intros q _. unfold read. rewrite H. reflexivity.
Qed.

(** Every triple of the list a class builds is [single_at] of its position,
    evaluated with the one incremented counter of the run. *)
Lemma graph_singles (self : sampler) (qs : list var) (g : graph) (env : run_env)
  (s s2 : session) (rs : list single) :
  call_update self qs get_gradient = Ok (Value g) ->
  g env s = Ok (s2, rs) ->
  exists new_t grads,
    fvars s2 = fvars s
    /\ (if uses_counter self
        then assign_add s (SGMCMC.t (base_of self)) 1 = Ok (new_t, s2)
        else s2 = s)
    /\ forall i r, nth_error rs i = Some r ->
         single_at self qs env s2 new_t grads i = Ok r.
Proof.
  destruct self as [o|o|o|o]; simpl; intros Hg H; try discriminate Hg;
    injection Hg as <-.
  - unfold SGLD._update in H.
    apply bind_ok in H as (grads & Hgrads & H).
    apply bind_ok in H as (rs' & Hrs & H). injection H as <- <-.
    exists 0%Z, grads. split; [reflexivity|]. split; [reflexivity|].
    intros i r Hr.
    destruct (mapM_nth_inv _ _ Hrs _ Hr) as ([i' [q grad]] & Ha & Hf).
    apply nth_error_combine in Ha as [Hi Ha].
    apply nth_error_combine in Ha as [Hq Hgrad].
    apply nth_error_seq_inv in Hi as [-> _]. simpl in Hf.
    rewrite (index_nth _ _ Hq), (index_nth _ _ Hgrad). exact Hf.
  - unfold SGHMC._update in H.
    apply bind_ok in H as ([new_t s1] & Ht & H).
    apply bind_ok in H as (vs & Hvs & H).
    apply bind_ok in H as (grads & Hgrads & H).
    apply bind_ok in H as (rs' & Hrs & H). injection H as <- <-.
    exists new_t, grads.
    split; [apply (assign_add_fvars _ _ _ Ht)|]. split; [exact Ht|].
    intros i r Hr.
    destruct (mapM_nth_inv _ _ Hrs _ Hr) as ([i' [q [v grad]]] & Ha & Hf).
    apply nth_error_combine in Ha as [Hi Ha].
    apply nth_error_combine in Ha as [Hq Ha].
    apply nth_error_combine in Ha as [Hv Hgrad].
    apply nth_error_seq_inv in Hi as [-> _]. simpl in Hf.
    rewrite (index_nth _ _ Hq), Hvs. cbn [bind].
    rewrite (index_nth _ _ Hv), (index_nth _ _ Hgrad). exact Hf.
  - unfold SGNHT._update in H.
    apply bind_ok in H as ([new_t s1] & Ht & H).
    apply bind_ok in H as (vs & Hvs & H).
    apply bind_ok in H as (xis & Hxis & H).
    apply bind_ok in H as (grads & Hgrads & H).
    apply bind_ok in H as (rs' & Hrs & H). injection H as <- <-.
    exists new_t, grads.
    split; [apply (assign_add_fvars _ _ _ Ht)|]. split; [exact Ht|].
    intros i r Hr.
    destruct (mapM_nth_inv _ _ Hrs _ Hr) as ([i' [q [v [xi grad]]]] & Ha & Hf).
    apply nth_error_combine in Ha as [Hi Ha].
    apply nth_error_combine in Ha as [Hq Ha].
    apply nth_error_combine in Ha as [Hv Ha].
    apply nth_error_combine in Ha as [Hxi Hgrad].
    apply nth_error_seq_inv in Hi as [-> _]. simpl in Hf.
    rewrite (index_nth _ _ Hq), Hvs. cbn [bind].
    rewrite (index_nth _ _ Hv), Hxis. cbn [bind].
    rewrite (index_nth _ _ Hxi), (index_nth _ _ Hgrad). exact Hf.
Qed.

Lemma gradients_ready_length (env : run_env) (s : session) (qs : list var) :
  gradients_ready env s qs = true ->
  length (gradients env (map (value_at s) qs)) = length qs.
Proof.
  unfold gradients_ready. intros H. split_andb. apply Nat.eqb_eq. assumption.
Qed.

(** From a ready session, the list a class builds is [single_at] at every
    position, provided each of them evaluates. *)
Lemma graph_total (self : sampler) (qs : list var) (g : graph) (env : run_env)
  (s s2 : session) (new_t : Z) (R : nat -> single) :
  ready self qs s = true ->
  gradients_ready env s qs = true ->
  call_update self qs get_gradient = Ok (Value g) ->
  (if uses_counter self
   then assign_add s (SGMCMC.t (base_of self)) 1 = Ok (new_t, s2)
   else s2 = s) ->
  (forall i, i < length qs ->
     single_at self qs env s2 new_t (gradients env (map (value_at s) qs)) i = Ok (R i)) ->
  g env s = Ok (s2, map R (seq 0 (length qs))).
Proof.
  intros Hready Hgrads Hg Ht Hsingle.
  pose proof (ready_latents _ _ _ Hready) as Hqs.
  pose proof (ready_velocities _ _ _ Hready) as Hvs.
  pose proof (ready_thermostats _ _ _ Hready) as Hxis.
  pose proof (gradients_ready_length _ _ _ Hgrads) as Hlen.
  set (grads := gradients env (map (value_at s) qs)) in *.
  destruct self as [o|o|o|o]; simpl in Hg, Ht, Hvs, Hxis, Hready;
    try discriminate Hg; injection Hg as <-.
  - subst s2. unfold SGLD._update.
    rewrite get_gradient_ready by exact Hqs. fold grads. cbn [bind].
    replace (length qs) with (length (combine qs grads)) by (rewrite length_combine; lia).
    erewrite mapM_combine_seq with (G := single_at (Sgld o) qs env s new_t grads).
    + rewrite (mapM_seq_tabulate _ R); [reflexivity|].
      intros i Hi. apply Hsingle. rewrite length_combine in Hi. lia.
    + intros i [q grad] Ha. apply nth_error_combine in Ha as [Hq Hgrad]. simpl.
      rewrite (index_nth _ _ Hq), (index_nth _ _ Hgrad). reflexivity.
  - destruct (SGHMC.vs o) as [vs|] eqn:Evs; [|discriminate Hready].
    destruct Hvs as [Hlenv _].
    unfold SGHMC._update. rewrite Ht. cbn [bind]. rewrite Evs. cbn [bind attribute].
    apply assign_add_fvars in Ht as [Hf _].
    rewrite (get_gradient_fvars env _ _ _ Hf), get_gradient_ready by exact Hqs.
    fold grads. cbn [bind].
    replace (length qs) with (length (combine qs (combine vs grads)))
      by (rewrite !length_combine; lia).
    erewrite mapM_combine_seq with (G := single_at (Sghmc o) qs env s2 new_t grads).
    + rewrite (mapM_seq_tabulate _ R); [reflexivity|].
      intros i Hi. apply Hsingle. rewrite !length_combine in Hi. lia.
    + intros i [q [v grad]] Ha. apply nth_error_combine in Ha as [Hq Ha].
      apply nth_error_combine in Ha as [Hv Hgrad]. simpl.
      rewrite (index_nth _ _ Hq), Evs. cbn [bind attribute].
      rewrite (index_nth _ _ Hv), (index_nth _ _ Hgrad). reflexivity.
  - destruct (SGNHT.vs o) as [vs|] eqn:Evs; [|discriminate Hready].
    destruct (SGNHT.xis o) as [xis|] eqn:Exis; [|discriminate Hready].
    destruct Hvs as [Hlenv _]. destruct Hxis as (Hlenx & _).
    unfold SGNHT._update. rewrite Ht. cbn [bind]. rewrite Evs, Exis. cbn [bind attribute].
    apply assign_add_fvars in Ht as [Hf _].
    rewrite (get_gradient_fvars env _ _ _ Hf), get_gradient_ready by exact Hqs.
    fold grads. cbn [bind].
    replace (length qs) with (length (combine qs (combine vs (combine xis grads))))
      by (rewrite !length_combine; lia).
    erewrite mapM_combine_seq with (G := single_at (Sgnht o) qs env s2 new_t grads).
    + rewrite (mapM_seq_tabulate _ R); [reflexivity|].
      intros i Hi. apply Hsingle. rewrite !length_combine in Hi. lia.
    + intros i [q [v [xi grad]]] Ha. apply nth_error_combine in Ha as [Hq Ha].
      apply nth_error_combine in Ha as [Hv Ha].
      apply nth_error_combine in Ha as [Hxi Hgrad]. simpl.
      rewrite (index_nth _ _ Hq), Evs. cbn [bind attribute].
      rewrite (index_nth _ _ Hv), Exis. cbn [bind attribute].
      rewrite (index_nth _ _ Hxi), (index_nth _ _ Hgrad). reflexivity.
Qed.

(** ** The session after the grouped assignments *)

Lemma nth_error_tabulate {B : Type} (R : nat -> B) (n i : nat) :
  i < n -> nth_error (map R (seq 0 n)) i = Some (R i).
Proof. intros H. rewrite nth_error_map, nth_error_seq_Some by exact H. reflexivity. Qed.

Lemma nth_error_tabulate_inv {B : Type} (R : nat -> B) (n i : nat) (r : B) :
  nth_error (map R (seq 0 n)) i = Some r -> i < n /\ r = R i.
Proof.
  intros H. rewrite nth_error_map in H.
  destruct (nth_error (seq 0 n) i) as [x|] eqn:Hx; [|discriminate H].
  apply nth_error_seq_inv in Hx as [-> Hi]. injection H as <-. auto.
Qed.

(** Every assignment of the group lands: the variable of slot [k] of latent
    [i] ends up holding the value of that assignment. *)
Lemma group_write (self : sampler) (qs : list var) (s s2 : session) (R : nat -> single)
  (n i k : nat) (v : var) (x : tensor) :
  ready self qs s = true ->
  fvars s2 = fvars s ->
  (forall i' k' w, i' < n -> nth_error (update_op_of (R i')) k' = Some w ->
     slot self qs i' k' = Some (fst w)) ->
  i < n ->
  nth_error (update_op_of (R i)) k = Some (v, x) ->
  nth_error (fvars (run_op (tf_group (map update_op_of (map R (seq 0 n)))) s2)) v = Some x.
Proof.
  intros Hready Hf Hslots Hi Hw.
  pose proof (Hslots i k _ Hi Hw) as Hslot. simpl in Hslot.
  apply run_op_write.
  - apply in_group. exists i, (R i). split; [apply nth_error_tabulate, Hi|].
    eapply nth_error_In, Hw.
  - intros x' Hin. apply in_group in Hin as (i' & r & Hr & Hin).
    apply nth_error_tabulate_inv in Hr as [Hi' ->].
    apply In_nth_error in Hin as (k' & Hw').
    pose proof (Hslots i' k' _ Hi' Hw') as Hslot'. simpl in Hslot'.
    destruct (@slot_inj self qs s i k i' k' v Hready Hslot Hslot') as [<- <-].
    rewrite Hw in Hw'. injection Hw' as <-. reflexivity.
  - rewrite Hf. eapply slot_allocated; eassumption.
Qed.

(** A variable no slot names keeps its value. *)
Lemma group_other (self : sampler) (qs : list var) (s2 : session) (R : nat -> single)
  (n : nat) (v : var) :
  (forall i' k' w, i' < n -> nth_error (update_op_of (R i')) k' = Some w ->
     slot self qs i' k' = Some (fst w)) ->
  (forall i k, slot self qs i k <> Some v) ->
  nth_error (fvars (run_op (tf_group (map update_op_of (map R (seq 0 n)))) s2)) v
  = nth_error (fvars s2) v.
Proof.
  intros Hslots Hv. apply run_op_other.
  intros w Hin E. apply in_group in Hin as (i' & r & Hr & Hin).
  apply nth_error_tabulate_inv in Hr as [Hi' ->].
  apply In_nth_error in Hin as (k' & Hw').
  apply (Hv i' k'). rewrite (Hslots i' k' _ Hi' Hw'), E. reflexivity.
Qed.

Lemma read_fvars (s s' : session) (v : var) :
  fvars s' = fvars s -> read s' v = read s v.
Proof. intros H. unfold read. rewrite H. reflexivity. Qed.

Lemma gradients_ready_nth (env : run_env) (s : session) (qs : list var) (i : nat) (q : var) :
  gradients_ready env s qs = true ->
  nth_error qs i = Some q ->
  let g := nth i (gradients env (map (value_at s) qs)) (scalar 0%R) in
  nth_error (gradients env (map (value_at s) qs)) i = Some g
  /\ g = tab (shape_at s q) (elem g).
Proof.
  intros H Hq g. pose proof (gradients_ready_length _ _ _ H) as Hlen.
  unfold gradients_ready in H. split_andb.
  assert (Hi : i < length qs) by (apply nth_error_Some; rewrite Hq; discriminate).
  assert (Hg : nth_error (gradients env (map (value_at s) qs)) i = Some g).
  { apply nth_error_nth'. lia. }
  split; [exact Hg|].
  assert (Hx : nth_error (map (value_at s) qs) i = Some (value_at s q)).
  { rewrite nth_error_map, Hq. reflexivity. }
  assert (Hxg : nth_error (combine (map (value_at s) qs) (gradients env (map (value_at s) qs))) i
                = Some (value_at s q, g)) by (apply nth_error_combine; auto).
  match goal with
  | Hall : forallb _ (combine _ _) = true |- _ => pose proof (forallb_nth _ _ i Hall Hxg) as Hok
  end.
  simpl in Hok. apply andb_prop in Hok as [Hs Hwf].
  apply shape_eqb_eq in Hs. unfold shape_at. rewrite <- Hs. apply as_tab, Hwf.
Qed.

Lemma nth_error_keys_latent (latent : dict pyobj) (i : nat) (k : string) (o : pyobj) :
  nth_error latent i = Some (k, o) ->
  nth_error (map format_key (map (fun kv => PyStr (fst kv)) latent)) i = Some k.
Proof. intros H. rewrite !nth_error_map, H. reflexivity. Qed.

(** A session stays ready when every slot keeps a well-formed tensor of its
    shape and the counters stay in place. *)
Lemma ready_preserved (self : sampler) (qs : list var) (s s' : session) :
  ready self qs s = true ->
  length (ivars s') = length (ivars s) ->
  (forall i k q v, nth_error qs i = Some q -> slot self qs i k = Some v ->
     holds s' (if k =? 2 then [] else shape_at s q) v = true) ->
  ready self qs s' = true.
Proof.
  intros Hready Hiv Hslots.
  assert (Hshape : forall i q, nth_error qs i = Some q -> shape_at s' q = shape_at s q).
  { intros i q Hq. pose proof (Hslots i 0 q q Hq Hq) as H. simpl in H.
    apply holds_value in H as (_ & H & _). exact H. }
  assert (Hq' : forallb (fun q => holds s' (shape_at s' q) q) qs = true).
  { apply forallb_forall. intros q Hin. apply In_nth_error in Hin as (i & Hq).
    rewrite (Hshape i q Hq). apply (Hslots i 0 q q Hq Hq). }
  assert (Hv' : forall vs, fst (auxiliary self) = Some vs ->
            forallb (fun qv => holds s' (shape_at s' (fst qv)) (snd qv)) (combine qs vs) = true).
  { intros vs Evs. apply forallb_forall. intros [q v] Hin.
    apply In_nth_error in Hin as (i & Hqv). apply nth_error_combine in Hqv as [Hq Hv].
    simpl. rewrite (Hshape i q Hq). apply (Hslots i 1 q v Hq). simpl. rewrite Evs. exact Hv. }
  assert (Hx' : forall xis, snd (auxiliary self) = Some xis -> forallb (holds s' []) xis = true).
  { intros xis Exis. apply forallb_forall. intros xi Hin.
    apply In_nth_error in Hin as (i & Hxi).
    pose proof (ready_thermostats _ _ _ Hready) as Hth. rewrite Exis in Hth.
    destruct Hth as (Hlen & _).
    assert (Hi : i < length qs).
    { rewrite <- Hlen. apply nth_error_Some. rewrite Hxi. discriminate. }
    destruct (nth_error qs i) as [q|] eqn:Hq; [|apply nth_error_None in Hq; lia].
    apply (Hslots i 2 q xi Hq). simpl. rewrite Exis. exact Hxi. }
  destruct self as [o|o|o|o]; simpl in Hready |- *; try discriminate Hready.
  - split_andb. rewrite Hq'. rewrite andb_true_r. assumption.
  - destruct (SGHMC.vs o) as [vs|] eqn:Evs; [|discriminate Hready].
    split_andb. rewrite Hq', (Hv' vs) by (simpl; rewrite Evs; reflexivity).
    unfold has_counter in *. rewrite Hiv.
    repeat (apply andb_true_intro; split); try assumption; reflexivity.
  - destruct (SGNHT.vs o) as [vs|] eqn:Evs; [|discriminate Hready].
    destruct (SGNHT.xis o) as [xis|] eqn:Exis; [|discriminate Hready].
    split_andb. rewrite Hq', (Hv' vs), (Hx' xis) by (simpl; rewrite ?Evs, ?Exis; reflexivity).
    unfold has_counter in *. rewrite Hiv.
    repeat (apply andb_true_intro; split); try assumption; reflexivity.
Qed.

(** ** Langevin dynamics *)

Lemma sgld_single_at (o : SGLD.obj) (qs : list var) (env : run_env) (s : session)
  (lr : R) (i : nat) :
  ready (Sgld o) qs s = true ->
  gradients_ready env s qs = true ->
  SGLD.lr o = scalar lr ->
  i < length qs ->
  single_at (Sgld o) qs env s 0 (gradients env (map (value_at s) qs)) i
  = Ok (sgld_expected lr qs env s i).
Proof.
  intros Hready Hgrads Hlr Hi.
  assert (Hq : nth_error qs i = Some (nth i qs 0)) by (apply nth_error_nth'; exact Hi).
  destruct (@gradients_ready_nth env s qs i _ Hgrads Hq) as [Hg Etab].
  pose proof (@forallb_nth _ _ _ i _ (@ready_latents _ _ _ Hready) Hq) as Hholds.
  apply holds_tab in Hholds.
  pose proof (@sgld_single o env s i _ lr _ _
                (elem (nth i (gradients env (map (value_at s) qs)) (scalar 0%R)))
                Hlr Hholds) as H.
  cbv zeta in H. rewrite <- Etab in H.
  unfold single_at. rewrite (index_nth _ _ Hq), (index_nth _ _ Hg). cbn [bind].
  exact H.
Qed.

Lemma sgld_expected_slots (o : SGLD.obj) (lr : R) (qs : list var) (env : run_env)
  (s : session) :
  forall i' k' w, i' < length qs ->
    nth_error (update_op_of (sgld_expected lr qs env s i')) k' = Some w ->
    slot (Sgld o) qs i' k' = Some (fst w).
Proof.
  intros i' k' w Hi' Hw. unfold sgld_expected, update_op_of in Hw. simpl in Hw.
  destruct k' as [|[|k']]; try discriminate Hw. injection Hw as <-. simpl.
  apply nth_error_nth'. exact Hi'.
Qed.

(** C8: one run of the sample operation of a bound SGLD sampler assigns to
    every latent, and reports as its new sample, q + 0.5 * lr * g + noise
    with noise drawn per element from Normal(0, lr); with lr = 0 the new
    value is q. *)
Theorem sgld_step_rule :
  forall (self : sampler) (mm : meta_model_t) (observed : dict tensor)
    (latent : dict pyobj) (s0 : session) (b : bound) (o : SGLD.obj) (s1 : session)
    (lr : R) (env : run_env) (s : session),
    sample self mm observed latent s0 = (Ok b, Sgld o, s1) ->
    SGLD.lr o = scalar lr ->
    ready (Sgld o) (handles (map snd latent)) s = true ->
    gradients_ready env s (handles (map snd latent)) = true ->
    exists s' samples,
      sample_op b env s = Ok (tt, s')
      /\ new_samples b env s = Ok (samples, s)
      /\ ready (Sgld o) (handles (map snd latent)) s' = true
      /\ forall i k q, nth_error latent i = Some (k, PyVariable q) ->
           let x := value_at s q in
           let g :=
             nth i (gradients env (map (value_at s) (handles (map snd latent))))
               (scalar 0%R) in
           let new_q :=
             tab (shape x)
               (fun j => Spec.sgld_new_q lr (elem x j) (elem g j) (normal env i Noise j)) in
           read s' q = Ok new_q
           /\ nth_error samples i = Some (k, new_q)
           /\ (lr = 0%R -> new_q = x).
Proof.
  intros self mm observed latent s0 b o s1 lr env s Hsample Hlr Hready Hgrads.
  apply sample_ok in Hsample as (_ & Hall & r & g & _ & Hupd & ->).
  remember (handles (map snd latent)) as qs eqn:Eqs.
  set (R := sgld_expected lr qs env s).
  assert (Hg : g env s = Ok (s, map R (seq 0 (length qs)))).
  { apply (@graph_total (Sgld o) qs g env s s 0%Z R Hready Hgrads Hupd eq_refl).
    intros i Hi. apply sgld_single_at; assumption. }
  pose proof (@sgld_expected_slots o lr qs env s) as Hslots. fold R in Hslots.
  set (s' := run_op (tf_group (map update_op_of (map R (seq 0 (length qs))))) s).
  assert (Hwrite : forall i q, nth_error qs i = Some q ->
            nth_error (fvars s') q = Some (new_q_of (R i))).
  { intros i q Hq.
    assert (Hi : i < length qs) by (apply nth_error_Some; rewrite Hq; discriminate).
    apply (@group_write (Sgld o) qs s s R (length qs) i 0 q (new_q_of (R i))
             Hready eq_refl Hslots Hi).
    unfold R, sgld_expected, update_op_of, new_q_of. simpl.
    rewrite (nth_error_nth _ _ _ Hq). reflexivity. }
  exists s', (combine (map format_key (map (fun kv => PyStr (fst kv)) latent))
               (map new_q_of (map R (seq 0 (length qs))))).
  split; [simpl; rewrite Hg; reflexivity|].
  split; [simpl; rewrite Hg; reflexivity|].
  split.
  - apply (@ready_preserved (Sgld o) qs s s' Hready).
    + unfold s'. rewrite run_op_ivars. reflexivity.
    + intros i k q v Hq Hslot.
      destruct k as [|[|[|k]]]; try discriminate Hslot.
      simpl in Hslot. rewrite Hq in Hslot. injection Hslot as <-. simpl.
      unfold holds. rewrite (Hwrite i q Hq).
      unfold R, sgld_expected, new_q_of. simpl.
      rewrite (nth_error_nth _ _ _ Hq). fold (shape_at s q).
      rewrite shape_eqb_refl. simpl. apply wf_tab.
  - intros i k q Hi x gr new_q.
    pose proof (handles_nth latent i Hall Hi) as Hq. rewrite <- Eqs in Hq.
    assert (Hlt : i < length qs) by (apply nth_error_Some; rewrite Hq; discriminate).
    assert (E : new_q_of (R i) = new_q).
    { unfold R, sgld_expected, new_q_of. simpl. rewrite (nth_error_nth _ _ _ Hq). reflexivity. }
    split; [apply read_value_at; rewrite (Hwrite i q Hq), E; reflexivity|].
    split.
    + apply nth_error_combine. split; [eapply nth_error_keys_latent, Hi|].
      rewrite nth_error_map, nth_error_tabulate by exact Hlt. cbn [option_map].
      rewrite E. reflexivity.
    + intros ->.
      pose proof (@forallb_nth _ _ _ i _ (@ready_latents _ _ _ Hready) Hq) as Hholds.
      apply holds_value in Hholds as (_ & _ & Hwf).
      subst new_q x.
      transitivity (tab (shape (value_at s q)) (elem (value_at s q)));
        [|symmetry; apply as_tab, Hwf].
      apply tab_ext. intros j _.
      unfold Spec.sgld_new_q, Spec.normal_draw. rewrite sqrt_0. ring.
Qed.

(** ** Hamiltonian dynamics *)

Lemma sghmc_single_at (o : SGHMC.obj) (qs vs : list var) (env : run_env) (s s2 : session)
  (lr alpha beta : R) (new_t : Z) (i : nat) :
  ready (Sghmc o) qs s = true ->
  gradients_ready env s qs = true ->
  fvars s2 = fvars s ->
  SGHMC.vs o = Some vs ->
  SGHMC.lr o = scalar lr -> SGHMC.alpha o = scalar alpha -> SGHMC.beta o = scalar beta ->
  SGHMC.n_iter_resample_v o <> 0%Z ->
  i < length qs ->
  single_at (Sghmc o) qs env s2 new_t (gradients env (map (value_at s) qs)) i
  = Ok (sghmc_expected o lr alpha beta new_t qs vs env s i).
Proof.
  intros Hready Hgrads Hf Hvs Hlr Halpha Hbeta Hn Hi.
  assert (Hq : nth_error qs i = Some (nth i qs 0)) by (apply nth_error_nth'; exact Hi).
  pose proof (ready_velocities _ _ _ Hready) as Hvel. simpl in Hvel. rewrite Hvs in Hvel.
  destruct Hvel as [Hlen _].
  assert (Hv : nth_error vs i = Some (nth i vs 0)) by (apply nth_error_nth'; lia).
  destruct (@gradients_ready_nth env s qs i _ Hgrads Hq) as [Hg Etab].
  assert (Hs0 : slot (Sghmc o) qs i 0 = Some (nth i qs 0)) by exact Hq.
  assert (Hs1 : slot (Sghmc o) qs i 1 = Some (nth i vs 0)) by (simpl; rewrite Hvs; exact Hv).
  pose proof (@slot_holds _ _ _ _ _ _ _ Hready Hq Hs0) as Hhq.
  pose proof (@slot_holds _ _ _ _ _ _ _ Hready Hq Hs1) as Hhv.
  simpl in Hhq, Hhv. apply holds_tab in Hhq, Hhv.
  rewrite <- (read_fvars _ _ (nth i qs 0) Hf) in Hhq.
  rewrite <- (read_fvars _ _ (nth i vs 0) Hf) in Hhv.
  pose proof (@sghmc_single o env s2 new_t i _ _ lr alpha beta _ _ _
                (elem (nth i (gradients env (map (value_at s) qs)) (scalar 0%R)))
                Hlr Halpha Hbeta Hn Hhq Hhv) as H.
  cbv zeta in H. rewrite <- Etab in H.
  unfold single_at. rewrite (index_nth _ _ Hq), Hvs. cbn [bind attribute].
  rewrite (index_nth _ _ Hv), (index_nth _ _ Hg). cbn [bind].
  exact H.
Qed.

Lemma sghmc_expected_slots (o : SGHMC.obj) (lr alpha beta : R) (new_t : Z)
  (qs vs : list var) (env : run_env) (s : session) :
  SGHMC.vs o = Some vs -> length vs = length qs ->
  forall i' k' w, i' < length qs ->
    nth_error (update_op_of (sghmc_expected o lr alpha beta new_t qs vs env s i')) k' = Some w ->
    slot (Sghmc o) qs i' k' = Some (fst w).
Proof.
  intros Hvs Hlen i' k' w Hi' Hw. unfold sghmc_expected, update_op_of in Hw. simpl in Hw.
  destruct k' as [|[|[|k']]]; try discriminate Hw; injection Hw as <-; simpl.
  - apply nth_error_nth'. exact Hi'.
  - rewrite Hvs. apply nth_error_nth'. lia.
Qed.

Lemma read_int_list_set (s : session) (t : ivar) (old new : Z) (fv : list tensor) :
  read_int s t = Ok old ->
  read_int (mkSession (list_set (ivars s) t new) fv) t = Ok new.
Proof.
  unfold read_int. simpl. intros H.
  rewrite nth_error_list_set_eq; [reflexivity|].
  apply nth_error_Some. destruct (nth_error (ivars s) t); [discriminate|discriminate H].
Qed.

Lemma assign_add_ok (s : session) (t : ivar) (old : Z) :
  read_int s t = Ok old ->
  assign_add s t 1
  = Ok (wrap32 (old + 1), mkSession (list_set (ivars s) t (wrap32 (old + 1))) (fvars s)).
Proof. intros H. unfold assign_add. rewrite H. reflexivity. Qed.

(** C6: one run of the sample operation of a bound SGHMC sampler with a
    positive resample interval, from a session whose counter holds t.  With
    new_t the incremented counter, every latent gets: old_v, a fresh
    Normal(0, lr) draw when new_t mod resample_interval is 0 and the current
    velocity otherwise; new_v = (1 - alpha) * old_v + lr * g + a
    Normal(0, 2 * (alpha - beta) * lr) draw, assigned to the velocity;
    new_q = q + new_v, assigned to the latent and reported as its sample;
    and mean_k, the mean of the squares of new_v, reported as its
    diagnostic. *)
Theorem sghmc_step_rule :
  forall (self : sampler) (mm : meta_model_t) (observed : dict tensor)
    (latent : dict pyobj) (s0 : session) (b : bound) (o : SGHMC.obj) (s1 : session)
    (lr alpha beta : R) (env : run_env) (s : session) (t : Z),
    sample self mm observed latent s0 = (Ok b, Sghmc o, s1) ->
    SGHMC.lr o = scalar lr -> SGHMC.alpha o = scalar alpha -> SGHMC.beta o = scalar beta ->
    (0 < SGHMC.n_iter_resample_v o)%Z ->
    ready (Sghmc o) (handles (map snd latent)) s = true ->
    gradients_ready env s (handles (map snd latent)) = true ->
    read_int s (SGMCMC.t (SGHMC.base o)) = Ok t ->
    exists s' s2 samples infos vs,
      sample_op b env s = Ok (tt, s')
      /\ new_samples b env s = Ok (samples, s2)
      /\ sample_info b env s = Ok (infos, s2)
      /\ SGHMC.vs o = Some vs
      /\ read_int s' (SGMCMC.t (SGHMC.base o)) = Ok (wrap32 (t + 1))
      /\ ready (Sghmc o) (handles (map snd latent)) s' = true
      /\ forall i k q, nth_error latent i = Some (k, PyVariable q) ->
           exists v,
             nth_error vs i = Some v
             /\ let new_t := wrap32 (t + 1) in
                let x := value_at s q in
                let y := value_at s v in
                let g :=
                  nth i (gradients env (map (value_at s) (handles (map snd latent))))
                    (scalar 0%R) in
                let old_v j :=
                  Spec.sghmc_old_v (SGHMC.n_iter_resample_v o) new_t lr (elem y j)
                    (normal env i Momentum j) in
                let new_v :=
                  tab (shape x)
                    (fun j => Spec.sghmc_new_v lr alpha beta (old_v j) (elem g j)
                                (normal env i Noise j)) in
                let new_q :=
                  tab (shape x) (fun j => Spec.new_q (elem x j) (elem new_v j)) in
                read s' v = Ok new_v
                /\ read s' q = Ok new_q
                /\ nth_error samples i = Some (k, new_q)
                /\ nth_error infos i
                   = Some (k, Some [("mean_k"%string, scalar (Spec.mean_k (data new_v)))]).
Proof.
  intros self mm observed latent s0 b o s1 lr alpha beta env s t
    Hsample Hlr Halpha Hbeta Hn Hready Hgrads Ht.
  apply sample_ok in Hsample as (_ & Hall & r & g & _ & Hupd & ->).
  remember (handles (map snd latent)) as qs eqn:Eqs.
  pose proof (ready_velocities _ _ _ Hready) as Hvel. simpl in Hvel.
  destruct (SGHMC.vs o) as [vs|] eqn:Hvs; [|discriminate Hvel].
  destruct Hvel as [Hlen _].
  set (new_t := wrap32 (t + 1)).
  set (s2 := mkSession (list_set (ivars s) (SGMCMC.t (SGHMC.base o)) new_t) (fvars s)).
  set (R := sghmc_expected o lr alpha beta new_t qs vs env s).
  assert (Hg : g env s = Ok (s2, map R (seq 0 (length qs)))).
  { apply (@graph_total (Sghmc o) qs g env s s2 new_t R Hready Hgrads Hupd).
    - apply assign_add_ok, Ht.
    - intros i Hi. apply sghmc_single_at; try assumption; [reflexivity | lia]. }
  pose proof (@sghmc_expected_slots o lr alpha beta new_t qs vs env s Hvs Hlen) as Hslots.
  fold R in Hslots.
  set (s' := run_op (tf_group (map update_op_of (map R (seq 0 (length qs))))) s2).
  assert (HwriteQ : forall i q, nth_error qs i = Some q ->
            nth_error (fvars s') q = Some (new_q_of (R i))).
  { intros i q Hq.
    assert (Hi : i < length qs) by (apply nth_error_Some; rewrite Hq; discriminate).
    apply (@group_write (Sghmc o) qs s s2 R (length qs) i 0 q (new_q_of (R i))
             Hready eq_refl Hslots Hi).
    unfold R, sghmc_expected, update_op_of, new_q_of. simpl.
    rewrite (nth_error_nth _ _ _ Hq). reflexivity. }
  assert (HwriteV : forall i v, nth_error vs i = Some v ->
            exists x, nth_error (update_op_of (R i)) 1 = Some (v, x)
                      /\ nth_error (fvars s') v = Some x).
  { intros i v Hv.
    assert (Hi : i < length qs) by (rewrite <- Hlen; apply nth_error_Some; rewrite Hv; discriminate).
    eexists. split.
    - unfold R, sghmc_expected, update_op_of. simpl.
      rewrite (nth_error_nth _ _ _ Hv). reflexivity.
    - apply (@group_write (Sghmc o) qs s s2 R (length qs) i 1 v _
               Hready eq_refl Hslots Hi).
      unfold R, sghmc_expected, update_op_of. simpl.
      rewrite (nth_error_nth _ _ _ Hv). reflexivity. }
  exists s', s2,
    (combine (map format_key (map (fun kv => PyStr (fst kv)) latent))
       (map new_q_of (map R (seq 0 (length qs))))),
    (combine (map format_key (map (fun kv => PyStr (fst kv)) latent))
       (map info_of (map R (seq 0 (length qs))))),
    vs.
  split; [simpl; rewrite Hg; reflexivity|].
  split; [simpl; rewrite Hg; reflexivity|].
  split; [simpl; rewrite Hg; reflexivity|].
  split; [reflexivity|].
  split.
  { unfold s'. unfold read_int. rewrite run_op_ivars.
    apply (read_int_list_set s _ new_t (fvars s) Ht). }
  split.
  - apply (@ready_preserved (Sghmc o) qs s s' Hready).
    + unfold s'. rewrite run_op_ivars. simpl. apply list_set_length.
    + intros i k q v Hq Hslot.
      destruct k as [|[|[|k]]]; try discriminate Hslot; simpl in Hslot |- *.
      * rewrite Hq in Hslot. injection Hslot as <-.
        unfold holds. rewrite (HwriteQ i q Hq).
        unfold R, sghmc_expected, new_q_of. simpl.
        rewrite (nth_error_nth _ _ _ Hq). fold (shape_at s q).
        rewrite shape_eqb_refl. simpl. apply wf_tab.
      * rewrite Hvs in Hslot.
        destruct (HwriteV i v Hslot) as (x & Hx & Hw).
        unfold holds. rewrite Hw.
        unfold R, sghmc_expected, update_op_of in Hx. simpl in Hx.
        injection Hx as _ <-.
        rewrite (nth_error_nth _ _ _ Hq). fold (shape_at s q).
        simpl. rewrite shape_eqb_refl. simpl. apply wf_tab.
  - intros i k q Hi.
    pose proof (handles_nth latent i Hall Hi) as Hq. rewrite <- Eqs in Hq.
    assert (Hlt : i < length qs) by (apply nth_error_Some; rewrite Hq; discriminate).
    assert (Hv : nth_error vs i = Some (nth i vs 0)) by (apply nth_error_nth'; lia).
    exists (nth i vs 0). split; [exact Hv|].
    intros new_t' x y gr old_v new_v new_q.
    assert (Eq : forall j, j < numel (shape x) ->
              Spec.new_q (elem x j) (elem new_v j)
              = Spec.new_q (elem x j)
                  (Spec.sghmc_new_v lr alpha beta (old_v j) (elem gr j)
                     (normal env i Noise j))).
    { intros j Hj. unfold new_v. rewrite elem_tab by exact Hj. reflexivity. }
    assert (E : R i = ([(q, new_q); (nth i vs 0, new_v)], new_q,
                       Some [("mean_k"%string, scalar (Spec.mean_k (data new_v)))])).
    { unfold R, sghmc_expected. rewrite (nth_error_nth _ _ _ Hq).
      unfold new_q. rewrite (tab_ext _ _ _ Eq). reflexivity. }
    destruct (HwriteV i _ Hv) as (x' & Hx' & Hw).
    rewrite E in Hx'. unfold update_op_of in Hx'. simpl in Hx'. injection Hx' as <-.
    split; [apply read_value_at, Hw|].
    split; [apply read_value_at; rewrite (HwriteQ i q Hq), E; reflexivity|].
    split.
    + apply nth_error_combine. split; [eapply nth_error_keys_latent, Hi|].
      rewrite nth_error_map, nth_error_tabulate by exact Hlt. cbn [option_map].
      rewrite E. reflexivity.
    + apply nth_error_combine. split; [eapply nth_error_keys_latent, Hi|].
      rewrite nth_error_map, nth_error_tabulate by exact Hlt. cbn [option_map].
      rewrite E. reflexivity.
Qed.

(** ** Nose-Hoover thermostat *)

Lemma sgnht_single_at (o : SGNHT.obj) (qs vs xis : list var) (env : run_env)
  (s s2 : session) (lr alpha tune_rate : R) (new_t : Z) (i : nat) :
  ready (Sgnht o) qs s = true ->
  gradients_ready env s qs = true ->
  fvars s2 = fvars s ->
  SGNHT.vs o = Some vs -> SGNHT.xis o = Some xis ->
  SGNHT.lr o = scalar lr -> SGNHT.alpha o = scalar alpha ->
  SGNHT.tune_rate o = scalar tune_rate ->
  i < length qs ->
  single_at (Sgnht o) qs env s2 new_t (gradients env (map (value_at s) qs)) i
  = Ok (sgnht_expected lr alpha tune_rate new_t qs vs xis env s i).
Proof.
  intros Hready Hgrads Hf Hvs Hxis Hlr Halpha Htune Hi.
  assert (Hq : nth_error qs i = Some (nth i qs 0)) by (apply nth_error_nth'; exact Hi).
  pose proof (ready_velocities _ _ _ Hready) as Hvel. simpl in Hvel. rewrite Hvs in Hvel.
  destruct Hvel as [Hlen _].
  pose proof (ready_thermostats _ _ _ Hready) as Hth. simpl in Hth. rewrite Hxis in Hth.
  destruct Hth as (Hlenx & _).
  assert (Hv : nth_error vs i = Some (nth i vs 0)) by (apply nth_error_nth'; lia).
  assert (Hxi : nth_error xis i = Some (nth i xis 0)) by (apply nth_error_nth'; lia).
  destruct (@gradients_ready_nth env s qs i _ Hgrads Hq) as [Hg Etab].
  assert (Hs0 : slot (Sgnht o) qs i 0 = Some (nth i qs 0)) by exact Hq.
  assert (Hs1 : slot (Sgnht o) qs i 1 = Some (nth i vs 0)) by (simpl; rewrite Hvs; exact Hv).
  assert (Hs2 : slot (Sgnht o) qs i 2 = Some (nth i xis 0)) by (simpl; rewrite Hxis; exact Hxi).
  pose proof (@slot_holds _ _ _ _ _ _ _ Hready Hq Hs0) as Hhq.
  pose proof (@slot_holds _ _ _ _ _ _ _ Hready Hq Hs1) as Hhv.
  pose proof (@slot_holds _ _ _ _ _ _ _ Hready Hq Hs2) as Hhx.
  simpl in Hhq, Hhv, Hhx. apply holds_tab in Hhq, Hhv, Hhx.
  change (tab [] (elem (value_at s (nth i xis 0))))
    with (scalar (elem (value_at s (nth i xis 0)) 0)) in Hhx.
  rewrite <- (read_fvars _ _ (nth i qs 0) Hf) in Hhq.
  rewrite <- (read_fvars _ _ (nth i vs 0) Hf) in Hhv.
  rewrite <- (read_fvars _ _ (nth i xis 0) Hf) in Hhx.
  pose proof (@sgnht_single o env s2 new_t i _ _ _ lr alpha tune_rate _ _ _ _
                (elem (nth i (gradients env (map (value_at s) qs)) (scalar 0%R)))
                Hlr Halpha Htune Hhq Hhv Hhx) as H.
  cbv zeta in H. rewrite <- Etab in H.
  unfold single_at. rewrite (index_nth _ _ Hq), Hvs. cbn [bind attribute].
  rewrite (index_nth _ _ Hv), Hxis. cbn [bind attribute].
  rewrite (index_nth _ _ Hxi), (index_nth _ _ Hg). cbn [bind].
  exact H.
Qed.

Lemma sgnht_expected_slots (o : SGNHT.obj) (lr alpha tune_rate : R) (new_t : Z)
  (qs vs xis : list var) (env : run_env) (s : session) :
  SGNHT.vs o = Some vs -> SGNHT.xis o = Some xis ->
  length vs = length qs -> length xis = length qs ->
  forall i' k' w, i' < length qs ->
    nth_error (update_op_of (sgnht_expected lr alpha tune_rate new_t qs vs xis env s i')) k'
    = Some w ->
    slot (Sgnht o) qs i' k' = Some (fst w).
Proof.
  intros Hvs Hxis Hlen Hlenx i' k' w Hi' Hw.
  unfold sgnht_expected, update_op_of in Hw. simpl in Hw.
  destruct k' as [|[|[|[|k']]]]; try discriminate Hw; injection Hw as <-; simpl.
  - apply nth_error_nth'. exact Hi'.
  - rewrite Hvs. apply nth_error_nth'. lia.
  - rewrite Hxis. apply nth_error_nth'. lia.
Qed.

(** C7: one run of the sample operation of a bound SGNHT sampler, from a
    session whose counter holds t.  With new_t the incremented counter,
    every latent gets: old_v, a fresh Normal(0, lr) draw when new_t is 0 and
    the current velocity otherwise; new_v = (1 - xi) * old_v + lr * g + a
    Normal(0, 2 * alpha * lr) draw, assigned to the velocity; new_q = q +
    new_v, assigned to the latent; mean_k, the mean of the squares of
    new_v; and new_xi = xi + tune_rate * (mean_k - lr), assigned to the
    thermostat variable. *)
Theorem sgnht_step_rule :
  forall (self : sampler) (mm : meta_model_t) (observed : dict tensor)
    (latent : dict pyobj) (s0 : session) (b : bound) (o : SGNHT.obj) (s1 : session)
    (lr alpha tune_rate : R) (env : run_env) (s : session) (t : Z),
    sample self mm observed latent s0 = (Ok b, Sgnht o, s1) ->
    SGNHT.lr o = scalar lr -> SGNHT.alpha o = scalar alpha ->
    SGNHT.tune_rate o = scalar tune_rate ->
    ready (Sgnht o) (handles (map snd latent)) s = true ->
    gradients_ready env s (handles (map snd latent)) = true ->
    read_int s (SGMCMC.t (SGNHT.base o)) = Ok t ->
    exists s' s2 samples infos vs xis,
      sample_op b env s = Ok (tt, s')
      /\ new_samples b env s = Ok (samples, s2)
      /\ sample_info b env s = Ok (infos, s2)
      /\ SGNHT.vs o = Some vs /\ SGNHT.xis o = Some xis
      /\ read_int s' (SGMCMC.t (SGNHT.base o)) = Ok (wrap32 (t + 1))
      /\ ready (Sgnht o) (handles (map snd latent)) s' = true
      /\ forall i k q, nth_error latent i = Some (k, PyVariable q) ->
           exists v xi,
             nth_error vs i = Some v /\ nth_error xis i = Some xi
             /\ let new_t := wrap32 (t + 1) in
                let x := value_at s q in
                let y := value_at s v in
                let xi0 := elem (value_at s xi) 0 in
                let g :=
                  nth i (gradients env (map (value_at s) (handles (map snd latent))))
                    (scalar 0%R) in
                let old_v j :=
                  Spec.sgnht_old_v new_t lr (elem y j) (normal env i Momentum j) in
                let new_v :=
                  tab (shape x)
                    (fun j => Spec.sgnht_new_v lr alpha xi0 (old_v j) (elem g j)
                                (normal env i Noise j)) in
                let new_q :=
                  tab (shape x) (fun j => Spec.new_q (elem x j) (elem new_v j)) in
                let mean_k := Spec.mean_k (data new_v) in
                let new_xi := scalar (Spec.sgnht_new_xi tune_rate lr xi0 mean_k) in
                read s xi = Ok (scalar xi0)
                /\ read s' v = Ok new_v
                /\ read s' q = Ok new_q
                /\ read s' xi = Ok new_xi
                /\ nth_error samples i = Some (k, new_q)
                /\ nth_error infos i
                   = Some (k, Some [("mean_k"%string, scalar mean_k);
                                    ("xi"%string, new_xi)]).
Proof.
  intros self mm observed latent s0 b o s1 lr alpha tune_rate env s t
    Hsample Hlr Halpha Htune Hready Hgrads Ht.
  apply sample_ok in Hsample as (_ & Hall & r & g & _ & Hupd & ->).
  remember (handles (map snd latent)) as qs eqn:Eqs.
  pose proof (ready_velocities _ _ _ Hready) as Hvel. simpl in Hvel.
  pose proof (ready_thermostats _ _ _ Hready) as Hth. simpl in Hth.
  destruct (SGNHT.vs o) as [vs|] eqn:Hvs; [|discriminate Hvel].
  destruct (SGNHT.xis o) as [xis|] eqn:Hxis; [|lia].
  destruct Hvel as [Hlen _]. destruct Hth as (Hlenx & Hhx & _).
  set (new_t := wrap32 (t + 1)).
  set (s2 := mkSession (list_set (ivars s) (SGMCMC.t (SGNHT.base o)) new_t) (fvars s)).
  set (R := sgnht_expected lr alpha tune_rate new_t qs vs xis env s).
  assert (Hg : g env s = Ok (s2, map R (seq 0 (length qs)))).
  { apply (@graph_total (Sgnht o) qs g env s s2 new_t R Hready Hgrads Hupd).
    - apply assign_add_ok, Ht.
    - intros i Hi. apply (@sgnht_single_at o qs vs xis env s s2); try assumption. reflexivity. }
  pose proof (@sgnht_expected_slots o lr alpha tune_rate new_t qs vs xis env s
                Hvs Hxis Hlen Hlenx) as Hslots.
  fold R in Hslots.
  set (s' := run_op (tf_group (map update_op_of (map R (seq 0 (length qs))))) s2).
  assert (Hwrite : forall i k v x, i < length qs ->
            nth_error (update_op_of (R i)) k = Some (v, x) ->
            nth_error (fvars s') v = Some x).
  { intros i k v x Hi Hw.
    apply (@group_write (Sgnht o) qs s s2 R (length qs) i k v x Hready eq_refl Hslots Hi Hw). }
  assert (HR : forall i q, nth_error qs i = Some q ->
            exists v xi, nth_error vs i = Some v /\ nth_error xis i = Some xi
              /\ R i = sgnht_expected lr alpha tune_rate new_t qs vs xis env s i
              /\ nth i qs 0 = q /\ nth i vs 0 = v /\ nth i xis 0 = xi).
  { intros i q Hq.
    assert (Hi : i < length qs) by (apply nth_error_Some; rewrite Hq; discriminate).
    exists (nth i vs 0), (nth i xis 0).
    split; [apply nth_error_nth'; lia|]. split; [apply nth_error_nth'; lia|].
    split; [reflexivity|]. split; [apply (nth_error_nth _ _ _ Hq)|]. auto. }
  exists s', s2,
    (combine (map format_key (map (fun kv => PyStr (fst kv)) latent))
       (map new_q_of (map R (seq 0 (length qs))))),
    (combine (map format_key (map (fun kv => PyStr (fst kv)) latent))
       (map info_of (map R (seq 0 (length qs))))),
    vs, xis.
  split; [simpl; rewrite Hg; reflexivity|].
  split; [simpl; rewrite Hg; reflexivity|].
  split; [simpl; rewrite Hg; reflexivity|].
  split; [reflexivity|]. split; [reflexivity|].
  split.
  { unfold s'. unfold read_int. rewrite run_op_ivars.
    apply (read_int_list_set s _ new_t (fvars s) Ht). }
  split.
  - apply (@ready_preserved (Sgnht o) qs s s' Hready).
    + unfold s'. rewrite run_op_ivars. simpl. apply list_set_length.
    + intros i k q v Hq Hslot.
      assert (Hi : i < length qs) by (apply nth_error_Some; rewrite Hq; discriminate).
      destruct (HR i q Hq) as (v' & xi' & Hv' & Hxi' & _ & Eq & Ev & Ex).
      destruct k as [|[|[|k]]]; try discriminate Hslot; simpl in Hslot |- *.
      * rewrite Hq in Hslot. injection Hslot as <-.
        unfold holds. erewrite (Hwrite i 0 q) by
          (try exact Hi; unfold R, sgnht_expected, update_op_of; simpl; rewrite Eq; reflexivity).
        rewrite ?Eq. fold (shape_at s q). simpl. rewrite shape_eqb_refl. simpl. apply wf_tab.
      * rewrite Hvs, Hv' in Hslot. injection Hslot as <-.
        unfold holds. erewrite (Hwrite i 1 v') by
          (try exact Hi; unfold R, sgnht_expected, update_op_of; simpl; rewrite Ev; reflexivity).
        rewrite ?Eq. fold (shape_at s q). simpl. rewrite shape_eqb_refl. simpl. apply wf_tab.
      * rewrite Hxis, Hxi' in Hslot. injection Hslot as <-.
        unfold holds. erewrite (Hwrite i 2 xi') by
          (try exact Hi; unfold R, sgnht_expected, update_op_of; simpl; rewrite Ex; reflexivity).
        reflexivity.
  - intros i k q Hi.
    pose proof (handles_nth latent i Hall Hi) as Hq. rewrite <- Eqs in Hq.
    assert (Hlt : i < length qs) by (apply nth_error_Some; rewrite Hq; discriminate).
    destruct (HR i q Hq) as (v & xi & Hv & Hxi & _ & Eq' & Ev & Ex).
    exists v, xi. split; [exact Hv|]. split; [exact Hxi|].
    intros new_t' x y xi0 gr old_v new_v new_q mean_k new_xi.
    assert (Eq : forall j, j < numel (shape x) ->
              Spec.new_q (elem x j) (elem new_v j)
              = Spec.new_q (elem x j)
                  (Spec.sgnht_new_v lr alpha xi0 (old_v j) (elem gr j)
                     (normal env i Noise j))).
    { intros j Hj. unfold new_v. rewrite elem_tab by exact Hj. reflexivity. }
    assert (E : R i = ([(q, new_q); (v, new_v); (xi, new_xi)], new_q,
                       Some [("mean_k"%string, scalar mean_k); ("xi"%string, new_xi)])).
    { unfold R, sgnht_expected. rewrite Eq', Ev, Ex.
      unfold new_q. rewrite (tab_ext _ _ _ Eq). reflexivity. }
    split.
    { pose proof (forallb_nth _ _ i Hhx Hxi) as H. apply holds_tab in H. exact H. }
    split; [apply read_value_at, (Hwrite i 1); [exact Hlt | rewrite E; reflexivity]|].
    split; [apply read_value_at, (Hwrite i 0); [exact Hlt | rewrite E; reflexivity]|].
    split; [apply read_value_at, (Hwrite i 2); [exact Hlt | rewrite E; reflexivity]|].
    split.
    + apply nth_error_combine. split; [eapply nth_error_keys_latent, Hi|].
      rewrite nth_error_map, nth_error_tabulate by exact Hlt. cbn [option_map].
      rewrite E. reflexivity.
    + apply nth_error_combine. split; [eapply nth_error_keys_latent, Hi|].
      rewrite nth_error_map, nth_error_tabulate by exact Hlt. cbn [option_map].
      rewrite E. reflexivity.
Qed.

(** ** The theorems on the small instance *)

(** Proves the first conjunct of the goal by computation and keeps it. *)
Ltac keep_computed H :=
  match goal with
  | |- ?A /\ _ => assert (H : A) by reflexivity; split; [exact H|]
  end.

Lemma sgld_step_rule_witness :
  exists b o s1,
    sample (Sgld (fst Demo.sgld)) (Callable "log_joint") [] Demo.latent (snd Demo.sgld)
    = (Ok b, Sgld o, s1)
    /\ SGLD.lr o = scalar 0%R
    /\ ready (Sgld o) Demo.qs s1 = true
    /\ gradients_ready Demo.env s1 Demo.qs = true
    /\ exists s',
         sample_op b Demo.env s1 = Ok (tt, s')
         /\ ready (Sgld o) Demo.qs s' = true
         /\ read s' 0 = Ok (mkTensor [2] [1%R; 2%R])
         /\ read s' 1 = Ok (scalar 3%R).
Proof.
  eexists _, _, _. split; [reflexivity|]. split; [reflexivity|].
  split; [reflexivity|]. split; [reflexivity|].
  destruct (@sgld_step_rule (Sgld (fst Demo.sgld)) (Callable "log_joint") [] Demo.latent
              (snd Demo.sgld) _ _ _ 0%R Demo.env (snd Demo.sgld)
              eq_refl eq_refl eq_refl eq_refl)
    as (s' & samples & Hop & _ & Hready & H).
  exists s'. split; [exact Hop|]. split; [exact Hready|].
  destruct (H 0 "w"%string 0 eq_refl) as (H0 & _ & E0).
  destruct (H 1 "b"%string 1 eq_refl) as (H1 & _ & E1).
  rewrite (E0 eq_refl) in H0. rewrite (E1 eq_refl) in H1.
  split; [exact H0 | exact H1].
Defined.

Lemma sghmc_step_rule_witness :
  exists o0 s0 b o s1,
    Demo.sghmc (Some 20%Z) = Ok (o0, s0)
    /\ sample (Sghmc o0) (Callable "log_joint") [] Demo.latent s0 = (Ok b, Sghmc o, s1)
    /\ SGHMC.lr o = scalar 0.1%R /\ SGHMC.alpha o = scalar 0.25%R
    /\ SGHMC.beta o = scalar 0%R
    /\ (0 < SGHMC.n_iter_resample_v o)%Z
    /\ ready (Sghmc o) Demo.qs s1 = true
    /\ gradients_ready Demo.env s1 Demo.qs = true
    /\ read_int s1 (SGMCMC.t (SGHMC.base o)) = Ok (-1)%Z
    /\ exists s',
         sample_op b Demo.env s1 = Ok (tt, s')
         /\ read_int s' (SGMCMC.t (SGHMC.base o)) = Ok 0%Z
         /\ ready (Sghmc o) Demo.qs s' = true.
Proof.
  eexists _, _, _, _, _. keep_computed Hinit. keep_computed Hsample.
  keep_computed Hlr. keep_computed Halpha. keep_computed Hbeta. keep_computed Hn.
  keep_computed Hready. keep_computed Hgrads. keep_computed Ht.
  destruct (@sghmc_step_rule _ _ _ _ _ _ _ _ _ _ _ _ _ _ Hsample Hlr Halpha Hbeta Hn Hready Hgrads Ht)
    as (s' & s2 & samples & infos & vs & Hop & _ & _ & _ & Ht' & Hready' & _).
  exists s'. split; [exact Hop|]. split; [exact Ht' | exact Hready'].
Defined.

Lemma sgnht_step_rule_witness :
  exists b o s1,
    sample (Sgnht (fst Demo.sgnht)) (Callable "log_joint") [] Demo.latent (snd Demo.sgnht)
    = (Ok b, Sgnht o, s1)
    /\ SGNHT.lr o = scalar 0.1%R /\ SGNHT.alpha o = scalar 0%R
    /\ SGNHT.tune_rate o = scalar 1%R
    /\ ready (Sgnht o) Demo.qs s1 = true
    /\ gradients_ready Demo.env s1 Demo.qs = true
    /\ read_int s1 (SGMCMC.t (SGNHT.base o)) = Ok (-1)%Z
    /\ exists s',
         sample_op b Demo.env s1 = Ok (tt, s')
         /\ read_int s' (SGMCMC.t (SGNHT.base o)) = Ok 0%Z
         /\ ready (Sgnht o) Demo.qs s' = true.
Proof.
  eexists _, _, _. keep_computed Hsample.
  keep_computed Hlr. keep_computed Halpha. keep_computed Htune.
  keep_computed Hready. keep_computed Hgrads. keep_computed Ht.
  destruct (@sgnht_step_rule _ _ _ _ _ _ _ _ _ _ _ _ _ _ Hsample Hlr Halpha Htune Hready Hgrads Ht)
    as (s' & s2 & samples & infos & vs & xis & Hop & _ & _ & _ & _ & Ht' & Hready' & _).
  exists s'. split; [exact Hop|]. split; [exact Ht' | exact Hready'].
Defined.

(** ** A resample interval of 0 *)

Lemma sghmc_init_interval (lr alpha beta : tensor) (n : option Z) (s s' : session)
  (o : SGHMC.obj) :
  SGHMC.__init__ lr alpha beta n s = Ok (o, s') ->
  SGHMC.n_iter_resample_v o = match n with None => 0%Z | Some n => n end
  /\ SGHMC.vs o = None.
Proof.
  unfold SGHMC.__init__. destruct (SGHMC.int32 _); [|discriminate].
  intros H. injection H as <- _. split; reflexivity.
Qed.

(** Binding keeps the hyper-parameters of an SGHMC sampler. *)
Lemma sample_sghmc (o0 : SGHMC.obj) (mm : meta_model_t) (observed : dict tensor)
  (latent : dict pyobj) (s0 : session) (b : bound) (self' : sampler) (s1 : session) :
  sample (Sghmc o0) mm observed latent s0 = (Ok b, self', s1) ->
  exists o, self' = Sghmc o
    /\ SGHMC.lr o = SGHMC.lr o0 /\ SGHMC.alpha o = SGHMC.alpha o0
    /\ SGHMC.beta o = SGHMC.beta o0
    /\ SGHMC.n_iter_resample_v o = SGHMC.n_iter_resample_v o0
    /\ SGMCMC.t (SGHMC.base o) = SGMCMC.t (SGHMC.base o0)
    /\ ivars s1 = ivars s0.
Proof.
  intros H. apply sample_ok in H as (_ & _ & r & g & Hdef & _ & _).
  destruct (store_arguments_sghmc o0 mm observed latent) as (b0 & Ht & Hstore).
  rewrite Hstore in Hdef. simpl in Hdef.
  apply bind_ok in Hdef as ([o s'] & Hdef & Hret). injection Hret as _ <- <-.
  apply sghmc_define_variables in Hdef as (_ & Hb & Hlr & Ha & Hbeta & Hn & Hiv & _).
  simpl in *. exists o. rewrite Hb. auto 10.
Qed.

(** C1, on the code: a bound SGHMC sampler built with n_iter_resample_v
    None or 0 has resample interval 0, and every run of its sample
    operation evaluates the remainder of the counter by 0: the run fails
    with the division error of the engine. *)
Theorem sghmc_zero_interval_divides_by_zero :
  forall (lr alpha beta : tensor) (n : option Z) (s00 : session) (o0 : SGHMC.obj)
    (s0 : session) (mm : meta_model_t) (observed : dict tensor) (latent : dict pyobj)
    (b : bound) (o : SGHMC.obj) (s1 : session) (env : run_env) (s : session),
    n = None \/ n = Some 0%Z ->
    SGHMC.__init__ lr alpha beta n s00 = Ok (o0, s0) ->
    sample (Sghmc o0) mm observed latent s0 = (Ok b, Sghmc o, s1) ->
    ready (Sghmc o) (handles (map snd latent)) s = true ->
    gradients_ready env s (handles (map snd latent)) = true ->
    SGHMC.n_iter_resample_v o = 0%Z
    /\ (forall new_t, tf_mod new_t (SGHMC.n_iter_resample_v o)
                      = Raise (InvalidArgumentError "Integer division by zero"))
    /\ sample_op b env s = Raise (InvalidArgumentError "Integer division by zero").
Proof.
  intros lr alpha beta n s00 o0 s0 mm observed latent b o s1 env s Hn Hinit Hsample
    Hready Hgrads.
  apply sghmc_init_interval in Hinit as [Hn0 _].
  assert (H0 : SGHMC.n_iter_resample_v o0 = 0%Z) by (destruct Hn; subst n; exact Hn0).
  pose proof Hsample as Hs. apply sample_sghmc in Hs as (o' & Ho & _ & _ & _ & Hn' & _ & _).
  injection Ho as <-. rewrite H0 in Hn'.
  split; [exact Hn'|]. split; [intros new_t; rewrite Hn'; reflexivity|].
  apply sample_ok in Hsample as (Hne & Hall & r & g & _ & Hupd & ->).
  pose proof (handles_length latent Hall) as Hlenq.
  remember (handles (map snd latent)) as qs eqn:Eqs.
  simpl in Hupd. injection Hupd as <-.
  pose proof (ready_velocities _ _ _ Hready) as Hvel. simpl in Hvel.
  destruct (SGHMC.vs o) as [vs|] eqn:Hvs; [|discriminate Hvel].
  destruct Hvel as [Hlen _].
  destruct (ready_counter _ _ _ Hready eq_refl) as (old & Hold). simpl in Hold.
  pose proof (gradients_ready_length _ _ _ Hgrads) as Hleng.
  simpl. unfold SGHMC._update.
  rewrite (assign_add_ok _ _ Hold). cbn [bind]. rewrite Hvs. cbn [bind attribute].
  rewrite (get_gradient_fvars env s (mkSession _ (fvars s)) qs eq_refl),
    (get_gradient_ready env s qs (ready_latents _ _ _ Hready)).
  cbn [bind].
  destruct latent as [|kv latent]; [contradiction|].
  destruct qs as [|q qs]; [discriminate Hlenq|].
  destruct vs as [|v vs]; [discriminate Hlen|].
  destruct (gradients env (map (value_at s) (q :: qs))) as [|grad grads];
    [discriminate Hleng|].
  simpl. unfold SGHMC._update_single at 1. rewrite Hn'. reflexivity.
Qed.

Lemma sghmc_zero_interval_divides_by_zero_witness :
  exists o0 s0 b o s1,
    (@None Z = None \/ None = Some 0%Z)
    /\ Demo.sghmc None = Ok (o0, s0)
    /\ sample (Sghmc o0) (Callable "log_joint") [] Demo.latent s0 = (Ok b, Sghmc o, s1)
    /\ ready (Sghmc o) Demo.qs s1 = true
    /\ gradients_ready Demo.env s1 Demo.qs = true
    /\ SGHMC.n_iter_resample_v o = 0%Z
    /\ (forall new_t, tf_mod new_t (SGHMC.n_iter_resample_v o)
                      = Raise (InvalidArgumentError "Integer division by zero"))
    /\ sample_op b Demo.env s1 = Raise (InvalidArgumentError "Integer division by zero").
Proof.
  eexists _, _, _, _, _. split; [left; reflexivity|].
  keep_computed Hinit. keep_computed Hsample. keep_computed Hready. keep_computed Hgrads.
  exact (@sghmc_zero_interval_divides_by_zero _ _ _ _ _ _ _ _ _ _ _ _ _ _ _
           (or_introl eq_refl) Hinit Hsample
           Hready Hgrads).
Defined.

(** ** The step counter *)

Lemma wrap32_small (z : Z) : (- 2 ^ 31 <= z < 2 ^ 31)%Z -> wrap32 z = z.
Proof. intros H. unfold wrap32. rewrite Z.mod_small; lia. Qed.

Lemma new_int_variable_read (init : Z) (s : session) :
  read_int (snd (new_int_variable init s)) (fst (new_int_variable init s)) = Ok init.
Proof.
  unfold read_int, new_int_variable. simpl.
  rewrite <- (Nat.add_0_r (length (ivars s))), nth_error_app_seq. reflexivity.
Qed.

(** Every constructor leaves the counter of the object at -1. *)
Lemma constructed_counter (self : sampler) (s : session) :
  constructed self s -> read_int s (SGMCMC.t (base_of self)) = Ok (-1)%Z.
Proof.
  intros H. destruct H as [s|lr s|lr a b n s o s' H|lr a t s].
  - apply (new_int_variable_read (-1) s).
  - apply (new_int_variable_read (-1) s).
  - unfold SGHMC.__init__ in H. destruct (SGHMC.int32 _); [|discriminate H].
    injection H as <- <-. apply (new_int_variable_read (-1) s).
  - apply (new_int_variable_read (-1) s).
Qed.

Lemma define_variables_counter (self self' : sampler) (qs : list var) (s s' : session)
  (r : returned unit) :
  call_define_variables self qs s = Ok (r, self', s') ->
  SGMCMC.t (base_of self') = SGMCMC.t (base_of self)
  /\ ivars s' = ivars s /\ uses_counter self' = uses_counter self.
Proof.
  destruct self as [o|o|o|o]; simpl; intros H.
  - injection H as _ <- <-. auto.
  - injection H as _ <- <-. auto.
  - apply bind_ok in H as ([o' s1] & Hdef & H). injection H as _ <- <-.
    apply sghmc_define_variables in Hdef as (_ & Hb & _ & _ & _ & _ & Hiv & _).
    simpl. rewrite Hb. auto.
  - apply bind_ok in H as ([o' s1] & Hdef & H). injection H as _ <- <-.
    apply sgnht_define_variables in Hdef as (_ & _ & Hb & _ & _ & _ & Hiv & _).
    simpl. rewrite Hb. auto.
Qed.

Lemma store_arguments_counter (self : sampler) (mm : meta_model_t)
  (observed : dict tensor) (latent : dict pyobj) :
  SGMCMC.t (base_of (store_arguments self mm observed latent)) = SGMCMC.t (base_of self)
  /\ uses_counter (store_arguments self mm observed latent) = uses_counter self.
Proof. destruct self, mm; split; reflexivity. Qed.

(** Binding leaves the counter alone. *)
Lemma sample_counter (self : sampler) (mm : meta_model_t) (observed : dict tensor)
  (latent : dict pyobj) (s0 : session) (b : bound) (self' : sampler) (s1 : session) :
  sample self mm observed latent s0 = (Ok b, self', s1) ->
  SGMCMC.t (base_of self') = SGMCMC.t (base_of self) /\ ivars s1 = ivars s0.
Proof.
  intros H. apply sample_ok in H as (_ & _ & r & g & Hdef & _ & _).
  apply define_variables_counter in Hdef as (Ht & Hiv & _).
  destruct (store_arguments_counter self mm observed latent) as [Ht' _].
  rewrite Ht, Ht'. auto.
Qed.

(** One run of the sample operation: one increment where the class uses
    the counter, none elsewhere. *)
Lemma sample_op_counter (self : sampler) (qs : list var) (g : graph) (keys : list pyobj)
  (env : run_env) (s s' : session) (old : Z) :
  call_update self qs get_gradient = Ok (Value g) ->
  sample_op (bound_of keys g) env s = Ok (tt, s') ->
  read_int s (SGMCMC.t (base_of self)) = Ok old ->
  read_int s' (SGMCMC.t (base_of self))
  = Ok (if uses_counter self then wrap32 (old + 1) else old).
Proof.
  intros Hupd Hop Hold. simpl in Hop.
  apply bind_ok in Hop as ([s2 rs] & Hg & Hop). injection Hop as <-.
  destruct (graph_singles _ _ _ _ Hupd Hg) as (new_t & grads & _ & Hc & _).
  unfold read_int. rewrite run_op_ivars.
  destruct (uses_counter self).
  - apply assign_add_fvars in Hc as (_ & old' & Hold' & -> & Hiv).
    rewrite Hold in Hold'. injection Hold' as <-. rewrite Hiv.
    apply (read_int_list_set s _ _ (fvars s) Hold).
  - subst s2. exact Hold.
Qed.

Lemma run_steps_counter (self : sampler) (qs : list var) (g : graph) (keys : list pyobj)
  (envs : list run_env) (s s' : session) (c : Z) :
  call_update self qs get_gradient = Ok (Value g) ->
  run_steps (bound_of keys g) envs s = Ok s' ->
  read_int s (SGMCMC.t (base_of self)) = Ok c ->
  (-1 <= c)%Z -> (c + Z.of_nat (length envs) < 2 ^ 31)%Z ->
  read_int s' (SGMCMC.t (base_of self))
  = Ok (if uses_counter self then c + Z.of_nat (length envs) else c)%Z.
Proof.
  intros Hupd. revert s c. induction envs as [|env envs IH]; intros s c Hrun Hc Hlo Hhi.
  - simpl in Hrun. injection Hrun as <-. rewrite Hc.
    destruct (uses_counter self); f_equal. simpl. lia.
  - cbn [run_steps] in Hrun. apply bind_ok in Hrun as ([u s1] & Hop & Hrun).
    destruct u.
    pose proof (sample_op_counter _ _ _ _ _ Hupd Hop Hc) as Hc1.
    cbn [length] in Hhi |- *. rewrite Nat2Z.inj_succ in Hhi |- *.
    destruct (uses_counter self) eqn:Huses.
    + rewrite wrap32_small in Hc1 by lia.
      rewrite (IH s1 (c + 1)%Z Hrun Hc1) by lia. f_equal. lia.
    + apply (IH s1 c Hrun Hc1); lia.
Qed.

(** C5, as the code has it: the constructor leaves the counter at -1 and
    binding does not touch it.  SGLD never increments it.  SGHMC and SGNHT
    increment it once at the start of every run, so in step K (K at most
    2^31, the counter being int32) every latent's update is evaluated with
    the same counter value K - 1. *)
Theorem step_counter :
  forall (self : sampler) (mm : meta_model_t) (observed : dict tensor)
    (latent : dict pyobj) (s0 : session) (b : bound) (self' : sampler) (s1 : session)
    (envs : list run_env) (s : session),
    constructed self s0 ->
    sample self mm observed latent s0 = (Ok b, self', s1) ->
    run_steps b envs s1 = Ok s ->
    (Z.of_nat (length envs) < 2 ^ 31)%Z ->
    let t := SGMCMC.t (base_of self') in
    let steps_done := Z.of_nat (length envs) in
    read_int s0 t = Ok (-1)%Z
    /\ read_int s1 t = Ok (-1)%Z
    /\ (forall o, self' = Sgld o -> read_int s t = Ok (-1)%Z)
    /\ ((exists o, self' = Sghmc o) \/ (exists o, self' = Sgnht o) ->
        read_int s t = Ok (steps_done - 1)%Z
        /\ forall env g s2 rs,
             call_update self' (handles (map snd latent)) get_gradient = Ok (Value g) ->
             g env s = Ok (s2, rs) ->
             read_int s2 t = Ok steps_done
             /\ exists grads, forall i r, nth_error rs i = Some r ->
                  single_at self' (handles (map snd latent)) env s2 steps_done grads i
                  = Ok r).
Proof.
  intros self mm observed latent s0 b self' s1 envs s Hc Hsample Hrun Hlt t steps_done.
  subst t steps_done.
  apply constructed_counter in Hc.
  destruct (sample_counter _ _ _ _ _ Hsample) as [Ht Hiv].
  assert (H0 : read_int s0 (SGMCMC.t (base_of self')) = Ok (-1)%Z)
    by (rewrite Ht; exact Hc).
  assert (H1 : read_int s1 (SGMCMC.t (base_of self')) = Ok (-1)%Z)
    by (unfold read_int in *; rewrite Hiv; exact H0).
  apply sample_ok in Hsample as (_ & _ & r & g & _ & Hupd & ->).
  pose proof (@run_steps_counter self' _ g _ envs s1 s (-1)%Z Hupd Hrun H1) as Hs.
  split; [exact H0|]. split; [exact H1|]. split.
  - intros o ->. apply Hs; lia.
  - intros Hcls.
    assert (Huses : uses_counter self' = true) by (destruct Hcls as [[o ->]|[o ->]]; reflexivity).
    rewrite Huses in Hs.
    assert (Hs' : read_int s (SGMCMC.t (base_of self'))
                  = Ok (Z.of_nat (length envs) - 1)%Z).
    { rewrite Hs by lia. f_equal. lia. }
    split; [exact Hs'|].
    intros env g' s2 rs Hupd' Hg. rewrite Hupd in Hupd'. injection Hupd' as <-.
    destruct (graph_singles _ _ _ _ Hupd Hg) as (new_t & grads & _ & Hinc & Hsingles).
    rewrite Huses in Hinc.
    apply assign_add_fvars in Hinc as (_ & old & Hold & -> & Hiv2).
    rewrite Hs' in Hold. injection Hold as <-.
    assert (E : wrap32 (Z.of_nat (length envs) - 1 + 1) = Z.of_nat (length envs)).
    { replace (Z.of_nat (length envs) - 1 + 1)%Z with (Z.of_nat (length envs)) by lia.
      apply wrap32_small. lia. }
    rewrite E in *. split.
    + unfold read_int. rewrite Hiv2. apply (read_int_list_set s _ _ (fvars s) Hs').
    + exists grads. exact Hsingles.
Qed.

Lemma step_counter_witness :
  exists o0 s0 b self' s1 s,
    Demo.sghmc (Some 20%Z) = Ok (o0, s0)
    /\ sample (Sghmc o0) (Callable "log_joint") [] Demo.latent s0 = (Ok b, self', s1)
    /\ run_steps b [Demo.env] s1 = Ok s
    /\ (Z.of_nat (length [Demo.env]) < 2 ^ 31)%Z
    /\ read_int s1 (SGMCMC.t (base_of self')) = Ok (-1)%Z
    /\ ((exists o, self' = Sghmc o) \/ (exists o, self' = Sgnht o) ->
        read_int s (SGMCMC.t (base_of self')) = Ok 0%Z).
Proof.
  eexists _, _, _, _, _, _. keep_computed Hinit. keep_computed Hsample.
  keep_computed Hrun. keep_computed Hlt.
  destruct (@step_counter _ _ _ _ _ _ _ _ _ _ (constructed_sghmc _ _ _ _ _ Hinit)
              Hsample Hrun Hlt) as (_ & H1 & _ & H).
  split; [exact H1|]. intros Hcls. exact (proj1 (H Hcls)).
Defined.

(** C5 as stated fails for SGLD: after one run of the sample operation the
    counter still holds -1, not 0. *)
Lemma sgld_counter_counterexample :
  exists b o s1 s,
    constructed (Sgld (fst Demo.sgld)) (snd Demo.sgld)
    /\ sample (Sgld (fst Demo.sgld)) (Callable "log_joint") [] Demo.latent (snd Demo.sgld)
       = (Ok b, Sgld o, s1)
    /\ run_steps b [Demo.env] s1 = Ok s
    /\ read_int s (SGMCMC.t (SGLD.base o)) = Ok (-1)%Z
    /\ read_int s (SGMCMC.t (SGLD.base o)) <> Ok (Z.of_nat (length [Demo.env]) - 1)%Z.
Proof.
  eexists _, _, _, _. split; [apply constructed_sgld|].
  split; [reflexivity|]. split; [reflexivity|]. split; [reflexivity|].
  intros H. discriminate H.
Qed.

(** ** What a triple reads and writes *)

Lemma assign_target (s : session) (v : var) (x : tensor) (w : write) :
  assign s v x = Ok w -> w = (v, x).
Proof.
  unfold assign. intros H. apply bind_ok in H as (old & _ & H).
  destruct (shape_eqb _ _); [|discriminate H]. injection H as <-. reflexivity.
Qed.

(** The update operation of latent [i] groups one assignment per slot of
    the latent, in the order of the slots. *)
Lemma single_at_writes (self : sampler) (qs : list var) (env : run_env) (s : session)
  (new_t : Z) (grads : list tensor) (i : nat) (r : single) :
  single_at self qs env s new_t grads i = Ok r ->
  length (update_op_of r) = assignments self
  /\ forall k w, nth_error (update_op_of r) k = Some w ->
       slot self qs i k = Some (fst w).
Proof.
  destruct self as [o|o|o|o]; simpl; intros H; try discriminate H.
  - apply bind_ok in H as (q & Hq & H). apply bind_ok in H as (grad & _ & H).
    unfold SGLD._update_single in H.
    repeat (apply bind_ok in H as (? & ? & H)).
    injection H as <-.
    match goal with Ha : assign _ _ _ = Ok _ |- _ => apply assign_target in Ha; subst end.
    unfold index in Hq. destruct (nth_error qs i) as [q'|] eqn:E; [|discriminate Hq].
    injection Hq as ->.
    split; [reflexivity|]. intros k w Hw.
    destruct k as [|[|k]]; try discriminate Hw. injection Hw as <-. exact E.
  - apply bind_ok in H as (q & Hq & H). apply bind_ok in H as (vs & Hvs & H).
    apply bind_ok in H as (v & Hv & H). apply bind_ok in H as (grad & _ & H).
    unfold SGHMC._update_single in H.
    repeat (apply bind_ok in H as (? & ? & H)).
    injection H as <-.
    repeat match goal with
      | Ha : assign _ _ _ = Ok _ |- _ => apply assign_target in Ha; subst
      end.
    unfold index in Hq, Hv.
    destruct (nth_error qs i) as [q'|] eqn:E; [|discriminate Hq]. injection Hq as ->.
    destruct (SGHMC.vs o) as [vs'|] eqn:Evs; [|discriminate Hvs]. injection Hvs as ->.
    destruct (nth_error vs i) as [v'|] eqn:E'; [|discriminate Hv]. injection Hv as ->.
    split; [reflexivity|]. intros k w Hw.
    destruct k as [|[|[|k]]]; try discriminate Hw; injection Hw as <-;
      unfold slot; cbn [auxiliary fst snd]; rewrite ?Evs; assumption.
  - apply bind_ok in H as (q & Hq & H). apply bind_ok in H as (vs & Hvs & H).
    apply bind_ok in H as (v & Hv & H). apply bind_ok in H as (xis & Hxis & H).
    apply bind_ok in H as (xi & Hxi & H). apply bind_ok in H as (grad & _ & H).
    unfold SGNHT._update_single in H.
    repeat (apply bind_ok in H as (? & ? & H)).
    injection H as <-.
    repeat match goal with
      | Ha : assign _ _ _ = Ok _ |- _ => apply assign_target in Ha; subst
      end.
    unfold index in Hq, Hv, Hxi.
    destruct (nth_error qs i) as [q'|] eqn:E; [|discriminate Hq]. injection Hq as ->.
    destruct (SGNHT.vs o) as [vs'|] eqn:Evs; [|discriminate Hvs]. injection Hvs as ->.
    destruct (nth_error vs i) as [v'|] eqn:E'; [|discriminate Hv]. injection Hv as ->.
    destruct (SGNHT.xis o) as [xis'|] eqn:Exis; [|discriminate Hxis]. injection Hxis as ->.
    destruct (nth_error xis i) as [xi'|] eqn:E''; [|discriminate Hxi]. injection Hxi as ->.
    split; [reflexivity|]. intros k w Hw.
    destruct k as [|[|[|[|k]]]]; try discriminate Hw; injection Hw as <-;
      unfold slot; cbn [auxiliary fst snd]; rewrite ?Evs, ?Exis; assumption.
Qed.


Lemma bind_congr {A B : Type} (m : result A) (k k' : A -> result B) :
  (forall a, m = Ok a -> k a = k' a) -> bind m k = bind m k'.
Proof. intros H. destruct m as [a|e]; simpl; [apply H; reflexivity | reflexivity]. Qed.

Lemma sgld_frame (o : SGLD.obj) (env : run_env) (s s' : session) (i : nat) (q : var)
  (grad : tensor) :
  read s' q = read s q ->
  SGLD._update_single o env s' i q grad = SGLD._update_single o env s i q grad.
Proof.
  intros Hq. unfold SGLD._update_single, assign. rewrite Hq. reflexivity.
Qed.

Lemma sghmc_frame (o : SGHMC.obj) (env : run_env) (s s' : session) (new_t : Z) (i : nat)
  (q v : var) (grad : tensor) :
  read s' q = read s q -> read s' v = read s v ->
  SGHMC._update_single o env s' new_t i q v grad
  = SGHMC._update_single o env s new_t i q v grad.
Proof.
  intros Hq Hv. unfold SGHMC._update_single, assign. rewrite Hq, Hv. reflexivity.
Qed.

Lemma sgnht_frame (o : SGNHT.obj) (env : run_env) (s s' : session) (new_t : Z) (i : nat)
  (q v xi : var) (grad : tensor) :
  read s' q = read s q -> read s' v = read s v -> read s' xi = read s xi ->
  SGNHT._update_single o env s' new_t i q v xi grad
  = SGNHT._update_single o env s new_t i q v xi grad.
Proof.
  intros Hq Hv Hxi. unfold SGNHT._update_single, assign. rewrite Hq, Hv, Hxi. reflexivity.
Qed.

Lemma index_ok {A : Type} (l : list A) (i : nat) (a : A) :
  index l i = Ok a -> nth_error l i = Some a.
Proof.
  unfold index. destruct (nth_error l i); intros H; [injection H as <-; reflexivity|discriminate H].
Qed.

Lemma attribute_ok {A : Type} (name : string) (x : option A) (a : A) :
  attribute name x = Ok a -> x = Some a.
Proof. destruct x; intros H; [injection H as <-; reflexivity|discriminate H]. Qed.

(** The triple of latent [i] depends on the session only through the
    variables of the slots of latent [i]. *)
Lemma single_at_frame (self : sampler) (qs : list var) (env : run_env) (s s' : session)
  (new_t : Z) (grads : list tensor) (i : nat) :
  (forall k v, slot self qs i k = Some v ->
     nth_error (fvars s') v = nth_error (fvars s) v) ->
  single_at self qs env s' new_t grads i = single_at self qs env s new_t grads i.
Proof.
  intros H.
  assert (Hread : forall k v, slot self qs i k = Some v -> read s' v = read s v).
  { intros k v Hk. unfold read. rewrite (H k v Hk). reflexivity. }
  destruct self as [o|o|o|o]; [reflexivity| | |]; unfold single_at.
  - apply bind_congr. intros q Hq. apply index_ok in Hq.
    apply bind_congr. intros grad _.
    apply sgld_frame. apply (Hread 0). exact Hq.
  - apply bind_congr. intros q Hq. apply index_ok in Hq.
    apply bind_congr. intros vs Hvs. apply attribute_ok in Hvs.
    apply bind_congr. intros v Hv. apply index_ok in Hv.
    apply bind_congr. intros grad _.
    apply sghmc_frame.
    + apply (Hread 0). exact Hq.
    + apply (Hread 1). unfold slot. cbn [auxiliary fst]. rewrite Hvs. exact Hv.
  - apply bind_congr. intros q Hq. apply index_ok in Hq.
    apply bind_congr. intros vs Hvs. apply attribute_ok in Hvs.
    apply bind_congr. intros v Hv. apply index_ok in Hv.
    apply bind_congr. intros xis Hxis. apply attribute_ok in Hxis.
    apply bind_congr. intros xi Hxi. apply index_ok in Hxi.
    apply bind_congr. intros grad _.
    apply sgnht_frame.
    + apply (Hread 0). exact Hq.
    + apply (Hread 1). unfold slot. cbn [auxiliary fst]. rewrite Hvs. exact Hv.
    + apply (Hread 2). unfold slot. cbn [auxiliary snd]. rewrite Hxis. exact Hxi.
Qed.

(** ** Binding leaves a session the sampler can step from *)

Lemma NoDup_distinct (l : list nat) : NoDup l -> distinct l = true.
Proof.
  induction 1 as [|a l Hnot _ IH]; simpl.
  - reflexivity.
  - rewrite IH, andb_true_r. apply negb_true_iff.
    destruct (existsb (Nat.eqb a) l) eqn:E; [|reflexivity].
    apply existsb_exists in E as (x & Hx & Heq). apply Nat.eqb_eq in Heq. subst x.
    contradiction.
Qed.

Lemma holds_allocated (s : session) (shp : list nat) (v : var) :
  holds s shp v = true -> v < length (fvars s).
Proof.
  intros H. apply holds_value in H as (H & _). apply nth_error_Some. rewrite H. discriminate.
Qed.

Lemma holds_app (s s' : session) (more : list tensor) (shp : list nat) (v : var) :
  fvars s' = fvars s ++ more -> holds s shp v = true -> holds s' shp v = true.
Proof.
  intros Hf H. pose proof (@holds_allocated s shp v H) as Hv.
  unfold holds in *. rewrite Hf, nth_error_app1 by exact Hv. exact H.
Qed.

Lemma shape_at_app (s s' : session) (more : list tensor) (v : var) :
  fvars s' = fvars s ++ more -> v < length (fvars s) -> shape_at s' v = shape_at s v.
Proof.
  intros Hf Hv. unfold shape_at, value_at. rewrite Hf, app_nth1 by exact Hv. reflexivity.
Qed.

Lemma latents_app (s s' : session) (more : list tensor) (qs : list var) :
  fvars s' = fvars s ++ more ->
  forallb (fun q => holds s (shape_at s q) q) qs = true ->
  forallb (fun q => holds s' (shape_at s' q) q) qs = true.
Proof.
  intros Hf H. rewrite forallb_forall in *. intros q Hq.
  pose proof (H q Hq) as Hh.
  rewrite (@shape_at_app s s' more q Hf (@holds_allocated s _ q Hh)).
  apply (@holds_app s s' more _ q Hf Hh).
Qed.

Lemma holds_zeros (s : session) (shp : list nat) (v : var) :
  nth_error (fvars s) v = Some (zeros shp) -> holds s shp v = true.
Proof.
  intros H. unfold holds. rewrite H. simpl. rewrite shape_eqb_refl. simpl.
  unfold wf_b. simpl. rewrite repeat_length. apply Nat.eqb_refl.
Qed.

(** The velocities [_define_variables] allocates hold zeros of the shapes
    of their latents. *)
Lemma velocities_allocated (s s' : session) (qs : list var) (more : list tensor) :
  fvars s' = fvars s ++ map (fun q => zeros_like (value_at s q)) qs ++ more ->
  forallb (fun q => holds s (shape_at s q) q) qs = true ->
  forallb (fun qv => holds s' (shape_at s' (fst qv)) (snd qv))
    (@combine var var qs (seq (length (fvars s)) (length qs))) = true.
Proof.
  intros Hf Hqs. apply forallb_forall. intros [q v] Hin.
  apply In_nth_error in Hin as (i & Hi). apply nth_error_combine in Hi as [Hq Hv].
  apply nth_error_seq_inv in Hv as [-> Hlt]. simpl.
  pose proof (@forallb_nth _ _ qs i q Hqs Hq) as Hh. simpl in Hh.
  rewrite (@shape_at_app s s' _ q Hf (@holds_allocated s _ q Hh)).
  apply holds_zeros. rewrite Hf, nth_error_app_seq.
  rewrite nth_error_app1 by (rewrite length_map; exact Hlt).
  rewrite nth_error_map, Hq. reflexivity.
Qed.

Lemma distinct_fresh (qs fresh : list var) (bound : nat) :
  distinct qs = true ->
  (forall q, In q qs -> q < bound) ->
  NoDup fresh ->
  (forall v, In v fresh -> bound <= v) ->
  distinct (qs ++ fresh) = true.
Proof.
  intros Hd Hlt Hnd Hge. apply NoDup_distinct.
  apply NoDup_app; [apply distinct_NoDup, Hd | exact Hnd|].
  intros a Ha Hb. pose proof (Hlt a Ha). pose proof (Hge a Hb). lia.
Qed.

(** A successful [sample] on distinct, allocated latents leaves the sampler
    and the session in the state the step rules start from. *)
Lemma sample_ready (self : sampler) (mm : meta_model_t) (observed : dict tensor)
  (latent : dict pyobj) (s0 : session) (b : bound) (self' : sampler) (s1 : session) :
  sample self mm observed latent s0 = (Ok b, self', s1) ->
  distinct (handles (map snd latent)) = true ->
  forallb (fun q => holds s0 (shape_at s0 q) q) (handles (map snd latent)) = true ->
  has_counter s0 (base_of self) = true ->
  (forall o, self = Sgnht o -> exists a, SGNHT.alpha o = scalar a) ->
  ready self' (handles (map snd latent)) s1 = true.
Proof.
  intros Hsample Hd Hqs Hc Halpha.
  apply sample_ok in Hsample as (_ & _ & r & g & Hdef & Hupd & _).
  remember (handles (map snd latent)) as qs eqn:Eqs.
  assert (Hlt : forall q, In q qs -> q < length (fvars s0)).
  { intros q Hq. rewrite forallb_forall in Hqs. apply (@holds_allocated s0 _ q (Hqs q Hq)). }
  destruct self as [o|o|o|o].
  - destruct mm; simpl in Hdef; injection Hdef as _ <- <-; discriminate Hupd.
  - destruct mm; simpl in Hdef; injection Hdef as _ <- <-; simpl;
      rewrite Hd, Hqs; reflexivity.
  - destruct (store_arguments_sghmc o mm observed latent) as (b0 & Ht & Hstore).
    rewrite Hstore in Hdef. simpl in Hdef.
    apply bind_ok in Hdef as ([o' s'] & Hdef & Hret). injection Hret as _ <- <-.
    apply sghmc_define_variables in Hdef as (Hvs & Hb & _ & _ & _ & _ & Hiv & Hf).
    simpl in Hb. simpl. rewrite Hvs, length_seq, Nat.eqb_refl.
    rewrite <- (app_nil_r (map _ qs)) in Hf.
    rewrite (@latents_app s0 s' _ qs Hf Hqs), (@velocities_allocated s0 s' qs _ Hf Hqs).
    rewrite (@distinct_fresh qs _ (length (fvars s0)) Hd Hlt (seq_NoDup _ _))
      by (intros v Hv; apply in_seq in Hv; lia).
    unfold has_counter in *. rewrite Hb, Hiv, Ht. simpl in Hc. rewrite Hc. reflexivity.
  - destruct (Halpha o eq_refl) as (a & Ha).
    destruct (store_arguments_sgnht o mm observed latent) as (b0 & Ht & Hstore).
    rewrite Hstore in Hdef. simpl in Hdef.
    apply bind_ok in Hdef as ([o' s'] & Hdef & Hret). injection Hret as _ <- <-.
    apply sgnht_define_variables in Hdef. simpl in Hdef.
    destruct Hdef as (Hvs & Hxis & Hb & _ & _ & _ & Hiv & Hf).
    simpl. rewrite Hvs, Hxis, !length_seq, Nat.eqb_refl.
    rewrite (@latents_app s0 s' _ qs Hf Hqs), (@velocities_allocated s0 s' qs _ Hf Hqs).
    assert (Hfresh : distinct (qs ++ @app var (seq (length (fvars s0)) (length qs))
                                 (seq (length (fvars s0) + length qs) (length qs))) = true).
    { apply (@distinct_fresh qs _ (length (fvars s0)) Hd Hlt).
      - apply NoDup_app; [apply seq_NoDup | apply seq_NoDup |].
        intros v Hv Hv'. apply in_seq in Hv, Hv'. lia.
      - intros v Hv. apply in_app_iff in Hv as [Hv|Hv]; apply in_seq in Hv; lia. }
    rewrite Hfresh.
    assert (Hth : @forallb var (holds s' []) (seq (length (fvars s0) + length qs) (length qs))
                  = true).
    { apply forallb_forall. intros v Hv. apply in_seq in Hv.
      unfold holds. rewrite Hf.
      replace v with (length (fvars s0) + (length qs + (v - (length (fvars s0) + length qs))))
        by lia.
      rewrite nth_error_app_seq.
      replace (length qs) with (length (map (fun q => zeros_like (value_at s0 q)) qs)) at 1
        by apply length_map.
      rewrite nth_error_app_seq, nth_error_map.
      destruct (nth_error qs (v - (length (fvars s0) + length qs))) as [q|] eqn:Hq;
        [|apply nth_error_None in Hq; lia].
      simpl. rewrite Ha. reflexivity. }
    rewrite Hth.
    unfold has_counter in *. rewrite Hb, Hiv, Ht. simpl in Hc. rewrite Hc. reflexivity.
Qed.

(** * Further properties of the module *)

(** ** What [sample] stores, and the [bn] property *)

Lemma define_variables_base (self self' : sampler) (qs : list var) (s s' : session)
  (r : returned unit) :
  call_define_variables self qs s = Ok (r, self', s') -> base_of self' = base_of self.
Proof.
  destruct self as [o|o|o|o]; simpl; intros H.
  - injection H as _ <- _. reflexivity.
  - injection H as _ <- _. reflexivity.
  - apply bind_ok in H as ([o' s1] & Hdef & H). injection H as _ <- _.
    apply sghmc_define_variables in Hdef as (_ & Hb & _). exact Hb.
  - apply bind_ok in H as ([o' s1] & Hdef & H). injection H as _ <- _.
    apply sgnht_define_variables in Hdef as (_ & _ & Hb & _). exact Hb.
Qed.

(** Whatever [sample] goes on to do, the sampler it leaves has the base part
    [store_arguments] gave it. *)
Lemma sample_base (self : sampler) (mm : meta_model_t) (observed : dict tensor)
  (latent : dict pyobj) (s : session) :
  base_of (snd (fst (sample self mm observed latent s)))
  = base_of (store_arguments self mm observed latent).
Proof.
  unfold sample.
  destruct (unpack2 (py_zip_star (iteritems latent))) as [[latent_k latent_v]|e];
    [|reflexivity].
  destruct (check_latent latent_k 0 latent_v) as [u|e]; [|reflexivity].
  destruct (call_define_variables _ _ s) as [[[r self1] s1]|e] eqn:Hdef; [|reflexivity].
  apply define_variables_base in Hdef.
  destruct (call_update self1 _ get_gradient) as [[g| |e]|e]; exact Hdef.
Qed.

Lemma base_of_with_base (self : sampler) (b : SGMCMC.obj) : base_of (with_base self b) = b.
Proof. destruct self; reflexivity. Qed.

Lemma sample_stored (self : sampler) (mm : meta_model_t) (observed : dict tensor)
  (latent : dict pyobj) (s : session) :
  let b := base_of (snd (fst (sample self mm observed latent s))) in
  SGMCMC._meta_model b
  = Some (match mm with Callable _ => None | BayesianNet m => Some m end)
  /\ SGMCMC._latent b = Some latent
  /\ SGMCMC._observed b = Some observed.
Proof.
  cbv zeta. rewrite sample_base. unfold store_arguments. rewrite base_of_with_base.
  destruct mm; simpl; auto.
Qed.

(** A sampler that was never bound has no [_meta_model] attribute: [bn]
    turns the AttributeError of the lookup into [None], for every class. *)
Theorem bn_is_none_before_sample :
  forall (net : Type) (w : models net) (self : sampler) (s : session),
    constructed self s -> bn w (base_of self) = Ok NoneValue.
Proof.
  intros net w self s H.
  destruct H as [s|lr s|lr a b n s o s' H|lr a t s]; try reflexivity.
  unfold SGHMC.__init__ in H. destruct (SGHMC.int32 _); [|discriminate H].
  injection H as <- _. reflexivity.
Qed.

Lemma bn_is_none_before_sample_witness :
  constructed (Sgnht (fst Demo.sgnht)) (snd Demo.sgnht)
  /\ bn (mkModels (fun _ => true) (fun _ d => Ok d) (fun a b => a ++ b))
       (base_of (Sgnht (fst Demo.sgnht))) = Ok NoneValue.
Proof.
  split; [apply constructed_sgnht|].
  apply (@bn_is_none_before_sample _ _ (Sgnht (fst Demo.sgnht)) (snd Demo.sgnht)).
  apply constructed_sgnht.
Defined.

(** After [sample] was called with a callable, [bn] is [None]: the call
    stores [None] as the meta-model before it does anything else, so this
    holds whether the call returned or raised. *)
Theorem bn_is_none_after_callable :
  forall (net : Type) (w : models net) (self : sampler) (f : string)
    (observed : dict tensor) (latent : dict pyobj) (s : session),
    bn w (base_of (snd (fst (sample self (Callable f) observed latent s)))) = Ok NoneValue.
Proof.
  intros net w self f observed latent s.
  destruct (sample_stored self (Callable f) observed latent s) as (Hm & _ & _).
  unfold bn. rewrite Hm. reflexivity.
Qed.

(** After [sample] was called with a meta-model object, [bn] observes that
    object on the latent and observed dictionaries of that call, merged in
    this order, also when the call raised.  An object that counts as false
    gives [None]; an AttributeError from [observe] gives [None]; any other
    exception of [observe] is raised. *)
Theorem bn_observes_arguments_of_last_sample :
  forall (net : Type) (w : models net) (self : sampler) (m : string)
    (observed : dict tensor) (latent : dict pyobj) (s : session),
    bn w (base_of (snd (fst (sample self (BayesianNet m) observed latent s))))
    = if truth w m then
        match observe w m (merge_dicts w latent (as_objects observed)) with
        | Ok r => Ok (Value r)
        | Raise (AttributeError _) => Ok NoneValue
        | Raise e => Raise e
        end
      else Ok NoneValue.
Proof.
  intros net w self m observed latent s.
  destruct (sample_stored self (BayesianNet m) observed latent s) as (Hm & Hl & Ho).
  unfold bn. rewrite Hm, Hl, Ho. cbn [attribute bind].
  destruct (truth w m); [|reflexivity].
  destruct (observe w m _) as [r|[]]; reflexivity.
Qed.

(** ** [sample] on an object of the base class *)

(** The hooks of the base class return an exception instance, so [sample]
    gets as far as unpacking what [_update] returned and fails there with a
    TypeError; NotImplementedError is never raised, and no variable is
    created. *)
Theorem sample_on_base_class_raises_type_error :
  forall (o : SGMCMC.obj) (mm : meta_model_t) (observed : dict tensor)
    (latent : dict pyobj) (s : session),
    latent <> [] ->
    forallb isinstance_Variable (map snd latent) = true ->
    exists msg self',
      sample (Base o) mm observed latent s = (Raise (TypeError msg), self', s)
      /\ self' = store_arguments (Base o) mm observed latent.
Proof.
  intros o mm observed latent s Hne Hall.
  destruct latent as [|kv latent]; [contradiction|].
  unfold sample. rewrite py_zip_star_iteritems. cbv beta iota delta [unpack2 copy].
  rewrite (check_latent_passes _ _ 0 Hall).
  destruct mm; eexists _, _; split; reflexivity.
Qed.

Lemma sample_on_base_class_raises_type_error_witness :
  Demo.latent <> []
  /\ forallb isinstance_Variable (map snd Demo.latent) = true
  /\ exists msg self',
       sample (Base (fst (SGMCMC.__init__ Demo.s0))) (Callable "log_joint") []
         Demo.latent Demo.s0
       = (Raise (TypeError msg), self', Demo.s0)
       /\ self' = store_arguments (Base (fst (SGMCMC.__init__ Demo.s0)))
                    (Callable "log_joint") [] Demo.latent.
Proof.
  split; [discriminate|]. split; [reflexivity|].
  apply (@sample_on_base_class_raises_type_error (fst (SGMCMC.__init__ Demo.s0))
           (Callable "log_joint") [] Demo.latent Demo.s0);
    [discriminate | reflexivity].
Defined.

(** ** What [sample] does to the session *)

Lemma define_variables_allocates (self self' : sampler) (qs : list var) (s s' : session)
  (r : returned unit) :
  call_define_variables self qs s = Ok (r, self', s') ->
  exists more,
    fvars s' = fvars s ++ more /\ length more = (assignments self - 1) * length qs.
Proof.
  destruct self as [o|o|o|o]; simpl; intros H.
  - injection H as _ _ <-. exists []. rewrite app_nil_r. auto.
  - injection H as _ _ <-. exists []. rewrite app_nil_r. auto.
  - apply bind_ok in H as ([o' s1] & Hdef & H). injection H as _ _ <-.
    apply sghmc_define_variables in Hdef as (_ & _ & _ & _ & _ & _ & _ & Hf).
    eexists. split; [exact Hf|]. rewrite length_map. lia.
  - apply bind_ok in H as ([o' s1] & Hdef & H). injection H as _ _ <-.
    apply sgnht_define_variables in Hdef. simpl in Hdef.
    destruct Hdef as (_ & _ & _ & _ & _ & _ & _ & Hf).
    eexists. split; [exact Hf|]. rewrite length_app, !length_map. lia.
Qed.

(** [sample] only creates variables: it leaves every integer variable and
    every variable that existed, the latent variables among them, as they
    were, and keeps the counter of the sampler.  A call that returns has
    created no variable for SGLD, one per latent for SGHMC and two per
    latent for SGNHT. *)
Theorem sample_only_allocates :
  forall (self : sampler) (mm : meta_model_t) (observed : dict tensor)
    (latent : dict pyobj) (s : session) (r : result bound) (self' : sampler)
    (s' : session),
    sample self mm observed latent s = (r, self', s') ->
    ivars s' = ivars s
    /\ SGMCMC.t (base_of self') = SGMCMC.t (base_of self)
    /\ exists more,
         fvars s' = fvars s ++ more
         /\ (forall b, r = Ok b -> length more = (assignments self - 1) * length latent).
Proof.
  intros self mm observed latent s r self' s' H.
  assert (Ht : SGMCMC.t (base_of self') = SGMCMC.t (base_of self)).
  { replace self' with (snd (fst (sample self mm observed latent s))) by (rewrite H; reflexivity).
    rewrite sample_base. apply store_arguments_counter. }
  assert (Hfail : forall e, (r, self', s') = (Raise e, store_arguments self mm observed latent, s) ->
            ivars s' = ivars s
            /\ SGMCMC.t (base_of self') = SGMCMC.t (base_of self)
            /\ exists more,
                 fvars s' = fvars s ++ more
                 /\ (forall b, r = Ok b -> length more = (assignments self - 1) * length latent)).
  { intros e E. injection E as -> -> ->.
    split; [reflexivity|]. split; [exact Ht|].
    exists []. rewrite app_nil_r. split; [reflexivity|].
    intros b Hb. discriminate Hb. }
  unfold sample in H.
  destruct latent as [|kv latent]; [apply (Hfail _ (eq_sym H))|].
  rewrite py_zip_star_iteritems in H. cbv beta iota delta [unpack2 copy] in H.
  destruct (check_latent _ 0 _) as [u|e] eqn:Hcheck; [|apply (Hfail _ (eq_sym H))].
  apply check_latent_ok in Hcheck.
  destruct (call_define_variables _ _ s) as [[[r1 self1] s1]|e] eqn:Hdef;
    [|apply (Hfail _ (eq_sym H))].
  pose proof (define_variables_counter _ _ _ Hdef) as (_ & Hiv & _).
  destruct (define_variables_allocates _ _ _ Hdef) as (more & Hf & Hlen).
  destruct self as [o|o|o|o].
  - simpl in Hdef. injection Hdef as _ <- <-.
    apply (Hfail _ (eq_sym H)).
  - simpl in Hdef. injection Hdef as _ <- <-. simpl in H. injection H as <- <- <-.
    split; [reflexivity|]. split; [exact Ht|].
    exists []. rewrite app_nil_r. split; [reflexivity|]. reflexivity.
  - assert (Hval : exists g, call_update self1 (handles (map snd (kv :: latent))) get_gradient
                             = Ok (Value g)).
    { simpl in Hdef. apply bind_ok in Hdef as ([o' s2] & _ & Hret). injection Hret as _ <- _.
      eexists. reflexivity. }
    destruct Hval as (g & Hval). rewrite Hval in H. injection H as <- <- <-.
    split; [exact Hiv|]. split; [exact Ht|].
    exists more. split; [exact Hf|].
    intros _ _. rewrite Hlen, (handles_length _ Hcheck).
    reflexivity.
  - assert (Hval : exists g, call_update self1 (handles (map snd (kv :: latent))) get_gradient
                             = Ok (Value g)).
    { simpl in Hdef. apply bind_ok in Hdef as ([o' s2] & _ & Hret). injection Hret as _ <- _.
      eexists. reflexivity. }
    destruct Hval as (g & Hval). rewrite Hval in H. injection H as <- <- <-.
    split; [exact Hiv|]. split; [exact Ht|].
    exists more. split; [exact Hf|].
    intros _ _. rewrite Hlen, (handles_length _ Hcheck).
    reflexivity.
Qed.

Lemma sample_only_allocates_witness :
  exists r self' s',
    sample (Sgnht (fst Demo.sgnht)) (Callable "log_joint") [] Demo.latent (snd Demo.sgnht)
    = (r, self', s')
    /\ ivars s' = ivars (snd Demo.sgnht)
    /\ SGMCMC.t (base_of self') = SGMCMC.t (base_of (Sgnht (fst Demo.sgnht)))
    /\ exists more,
         fvars s' = fvars (snd Demo.sgnht) ++ more
         /\ (forall b, r = Ok b -> length more = 2 * 2).
Proof.
  eexists _, _, _. keep_computed Hsample.
  apply (@sample_only_allocates _ _ _ _ _ _ _ _ Hsample).
Defined.

Lemma sghmc_bind (o : SGHMC.obj) (mm : meta_model_t) (observed : dict tensor)
  (latent : dict pyobj) (s : session) (b : bound) (self' : sampler) (s' : session) :
    sample (Sghmc o) mm observed latent s = (Ok b, self', s') ->
    exists o' vs,
      self' = Sghmc o'
      /\ SGHMC.vs o' = Some vs /\ length vs = length latent
      /\ SGHMC.lr o' = SGHMC.lr o /\ SGHMC.alpha o' = SGHMC.alpha o
      /\ SGHMC.beta o' = SGHMC.beta o
      /\ SGHMC.n_iter_resample_v o' = SGHMC.n_iter_resample_v o
      /\ forall i k q, nth_error latent i = Some (k, PyVariable q) ->
           exists x v,
             read s q = Ok x /\ read s' q = Ok x
             /\ nth_error vs i = Some v
             /\ length (fvars s) <= v
             /\ read s' v = Ok (zeros (shape x)).
Proof.
  intros H.
  apply sample_ok in H as (_ & Hall & r & g & Hdef & _ & _).
  pose proof (handles_length latent Hall) as Hlen.
  set (qs := handles (map snd latent)) in *.
  destruct (store_arguments_sghmc o mm observed latent) as (b0 & _ & Hstore).
  rewrite Hstore in Hdef. simpl in Hdef.
  apply bind_ok in Hdef as ([o' s1] & Hdef & Hret). injection Hret as _ <- <-.
  pose proof Hdef as Hreads.
  unfold SGHMC._define_variables in Hreads. apply bind_ok in Hreads as (qvs & Hreads & _).
  apply sghmc_define_variables in Hdef. simpl in Hdef.
  destruct Hdef as (Hvs & _ & Hlr & Halpha & Hbeta & Hn & _ & Hf).
  exists o', (seq (length (fvars s)) (length qs)).
  split; [reflexivity|]. split; [exact Hvs|].
  rewrite length_seq. split; [exact Hlen|].
  split; [exact Hlr|]. split; [exact Halpha|]. split; [exact Hbeta|]. split; [exact Hn|].
  intros i k q Hi.
  pose proof (handles_nth latent i Hall Hi) as Hq. fold qs in Hq.
  destruct (mapM_nth _ _ Hreads _ Hq) as (x & _ & Hx).
  assert (Hi' : i < length qs) by (apply nth_error_Some; rewrite Hq; discriminate).
  pose proof Hx as Hxn. apply read_value_at in Hxn.
  pose proof (nth_error_value_at _ _ Hxn) as Hval.
  assert (Hq' : nth_error (fvars s1) q = Some x).
  { rewrite Hf. rewrite nth_error_app1; [exact Hxn|].
    apply nth_error_Some. rewrite Hxn. discriminate. }
  assert (Hv' : nth_error (fvars s1) (length (fvars s) + i) = Some (zeros (shape x))).
  { rewrite Hf, nth_error_app_seq, nth_error_map, Hq. simpl. rewrite Hval. reflexivity. }
  exists x, (length (fvars s) + i).
  split; [exact Hx|]. split; [apply read_value_at, Hq'|].
  split; [apply nth_error_seq_Some, Hi'|]. split; [lia|].
  apply read_value_at, Hv'.
Qed.

(** Binding an SGHMC sampler gives every latent one new variable, its
    velocity, holding zeros in the shape the latent has at that moment; the
    hyper-parameters and the latent values are as before. *)
Theorem sghmc_velocities_at_bind :
  forall (o : SGHMC.obj) (mm : meta_model_t) (observed : dict tensor)
    (latent : dict pyobj) (s : session) (b : bound) (self' : sampler) (s' : session),
    sample (Sghmc o) mm observed latent s = (Ok b, self', s') ->
    exists o' vs,
      self' = Sghmc o'
      /\ SGHMC.vs o' = Some vs /\ length vs = length latent
      /\ SGHMC.lr o' = SGHMC.lr o /\ SGHMC.alpha o' = SGHMC.alpha o
      /\ SGHMC.beta o' = SGHMC.beta o
      /\ SGHMC.n_iter_resample_v o' = SGHMC.n_iter_resample_v o
      /\ forall i k q, nth_error latent i = Some (k, PyVariable q) ->
           exists x v,
             read s q = Ok x /\ read s' q = Ok x
             /\ nth_error vs i = Some v
             /\ length (fvars s) <= v
             /\ read s' v = Ok (zeros (shape x)).
Proof.
  intros o mm observed latent s b self' s' H. exact (@sghmc_bind o mm observed latent s b self' s' H).
Qed.

Lemma sghmc_velocities_at_bind_witness :
  exists o0 s0 b self' s',
    Demo.sghmc (Some 20%Z) = Ok (o0, s0)
    /\ sample (Sghmc o0) (Callable "log_joint") [] Demo.latent s0 = (Ok b, self', s')
    /\ exists o' vs,
         self' = Sghmc o'
         /\ SGHMC.vs o' = Some vs /\ length vs = 2
         /\ SGHMC.lr o' = scalar 0.1%R /\ SGHMC.alpha o' = scalar 0.25%R
         /\ SGHMC.beta o' = scalar 0%R
         /\ SGHMC.n_iter_resample_v o' = 20%Z
         /\ forall i k q, nth_error Demo.latent i = Some (k, PyVariable q) ->
              exists x v,
                read s0 q = Ok x /\ read s' q = Ok x
                /\ nth_error vs i = Some v
                /\ 2 <= v
                /\ read s' v = Ok (zeros (shape x)).
Proof.
  eexists _, _, _, _, _. keep_computed Hinit. keep_computed Hsample.
  apply (@sghmc_velocities_at_bind _ _ _ _ _ _ _ _ Hsample).
Defined.

(** ** What one run touches *)

Lemma run_op_length (ws : op) (s : session) :
  length (fvars (run_op ws s)) = length (fvars s).
Proof.
  revert s; induction ws as [|w ws IH]; intros s.
  - reflexivity.
  - change (run_op (w :: ws) s) with (run_op ws (commit s w)).
    rewrite IH. simpl. apply list_set_length.
Qed.

Lemma slot_in_all_vars (self : sampler) (qs : list var) (i k : nat) (v : var) :
  slot self qs i k = Some v -> In v (all_vars self qs).
Proof.
  unfold slot, all_vars. intros H.
  destruct k as [|[|[|k]]]; [| | |discriminate H].
  - apply in_or_app. left. eapply nth_error_In, H.
  - destruct (fst (auxiliary self)) as [vs|]; [|discriminate H].
    apply in_or_app. right. apply in_or_app. left. eapply nth_error_In, H.
  - destruct (snd (auxiliary self)) as [xis|]; [|discriminate H].
    apply in_or_app. right. apply in_or_app. right. eapply nth_error_In, H.
Qed.

(** Every assignment a run groups targets a variable of the sampler. *)
Lemma graph_writes (self : sampler) (qs : list var) (g : graph) (env : run_env)
  (s s2 : session) (rs : list single) (w : write) :
  call_update self qs get_gradient = Ok (Value g) ->
  g env s = Ok (s2, rs) ->
  In w (tf_group (map update_op_of rs)) ->
  In (fst w) (all_vars self qs).
Proof.
  intros Hupd Hg Hw.
  destruct (graph_singles _ _ _ _ Hupd Hg) as (new_t & grads & _ & _ & Hrs).
  apply in_group in Hw as (i & r & Hr & Hw).
  apply In_nth_error in Hw as (k & Hk).
  destruct (single_at_writes _ _ _ _ _ _ _ (Hrs i r Hr)) as [_ Hslot].
  eapply slot_in_all_vars, Hslot, Hk.
Qed.

(** What evaluating the triples does to the session: nothing for SGLD, one
    increment of the counter for the other classes. *)
Lemma graph_session (self : sampler) (qs : list var) (g : graph) (env : run_env)
  (s s2 : session) (rs : list single) :
  call_update self qs get_gradient = Ok (Value g) ->
  g env s = Ok (s2, rs) ->
  fvars s2 = fvars s
  /\ length (ivars s2) = length (ivars s)
  /\ (forall t, t <> SGMCMC.t (base_of self) ->
        nth_error (ivars s2) t = nth_error (ivars s) t)
  /\ (if uses_counter self
      then exists old,
             read_int s (SGMCMC.t (base_of self)) = Ok old
             /\ read_int s2 (SGMCMC.t (base_of self)) = Ok (wrap32 (old + 1))
      else s2 = s).
Proof.
  intros Hupd Hg.
  destruct (graph_singles _ _ _ _ Hupd Hg) as (new_t & grads & Hf & Hc & _).
  split; [exact Hf|].
  destruct (uses_counter self).
  - apply assign_add_fvars in Hc as (_ & old & Hold & -> & Hiv).
    rewrite Hiv. split; [apply list_set_length|].
    split; [intros t Ht; apply nth_error_list_set_neq; congruence|].
    exists old. split; [exact Hold|].
    unfold read_int. rewrite Hiv.
    apply (read_int_list_set s _ _ (fvars s) Hold).
  - subst s2. split; [reflexivity|]. split; reflexivity.
Qed.

(** One run of the sample operation assigns to the latent, velocity and
    thermostat variables of the sampler and to nothing else: every other
    variable keeps its value, no variable is created, and the only integer
    variable that can change is the counter of the sampler, which SGLD does
    not change either. *)
Theorem sample_op_writes_own_variables :
  forall (self : sampler) (mm : meta_model_t) (observed : dict tensor)
    (latent : dict pyobj) (s0 : session) (b : bound) (self' : sampler) (s1 : session)
    (env : run_env) (s s' : session),
    sample self mm observed latent s0 = (Ok b, self', s1) ->
    sample_op b env s = Ok (tt, s') ->
    length (fvars s') = length (fvars s)
    /\ length (ivars s') = length (ivars s)
    /\ (forall v, ~ In v (all_vars self' (handles (map snd latent))) ->
          nth_error (fvars s') v = nth_error (fvars s) v)
    /\ (forall t, t <> SGMCMC.t (base_of self') ->
          nth_error (ivars s') t = nth_error (ivars s) t)
    /\ (forall o, self' = Sgld o -> ivars s' = ivars s).
Proof.
  intros self mm observed latent s0 b self' s1 env s s' Hsample Hop.
  apply sample_ok in Hsample as (_ & _ & r & g & _ & Hupd & ->).
  simpl in Hop. apply bind_ok in Hop as ([s2 rs] & Hg & Hop). injection Hop as <-.
  destruct (graph_session _ _ _ _ Hupd Hg) as (Hf & Hlen & Hother & Hc).
  rewrite run_op_length, run_op_ivars, Hf.
  split; [reflexivity|]. split; [exact Hlen|].
  split.
  - intros v Hv. rewrite <- Hf. apply run_op_other.
    intros w Hw E. apply Hv. rewrite <- E.
    apply (graph_writes _ _ _ _ _ Hupd Hg Hw).
  - split; [exact Hother|].
    intros o ->. simpl in Hc. subst s2. reflexivity.
Qed.

Lemma sample_op_writes_own_variables_witness :
  exists o0 s0 b self' s1 s',
    Demo.sghmc (Some 20%Z) = Ok (o0, s0)
    /\ sample (Sghmc o0) (Callable "log_joint") [] Demo.latent s0 = (Ok b, self', s1)
    /\ sample_op b Demo.env s1 = Ok (tt, s')
    /\ length (fvars s') = 4
    /\ length (ivars s') = 1
    /\ (forall v, ~ In v (all_vars self' Demo.qs) ->
          nth_error (fvars s') v = nth_error (fvars s1) v)
    /\ (forall t, t <> SGMCMC.t (base_of self') ->
          nth_error (ivars s') t = nth_error (ivars s1) t)
    /\ (forall o, self' = Sgld o -> ivars s' = ivars s1).
Proof.
  eexists _, _, _, _, _, _. keep_computed Hinit. keep_computed Hsample.
  keep_computed Hop.
  apply (@sample_op_writes_own_variables _ _ _ _ _ _ _ _ _ _ _ Hsample Hop).
Defined.

(** Fetching the new samples or the diagnostics on their own assigns to no
    variable, but it is not free of effects for SGHMC and SGNHT: their
    values depend on the incremented counter, so the fetch performs the
    increment.  For SGLD the session is left as it was. *)
Theorem fetching_values_increments_counter :
  forall (self : sampler) (mm : meta_model_t) (observed : dict tensor)
    (latent : dict pyobj) (s0 : session) (b : bound) (self' : sampler) (s1 : session)
    (env : run_env) (s s2 : session),
    sample self mm observed latent s0 = (Ok b, self', s1) ->
    (exists samples, new_samples b env s = Ok (samples, s2))
    \/ (exists infos, sample_info b env s = Ok (infos, s2)) ->
    fvars s2 = fvars s
    /\ (forall t, t <> SGMCMC.t (base_of self') ->
          nth_error (ivars s2) t = nth_error (ivars s) t)
    /\ (uses_counter self' = true ->
        exists old,
          read_int s (SGMCMC.t (base_of self')) = Ok old
          /\ read_int s2 (SGMCMC.t (base_of self')) = Ok (wrap32 (old + 1)))
    /\ (uses_counter self' = false -> s2 = s).
Proof.
  intros self mm observed latent s0 b self' s1 env s s2 Hsample Hfetch.
  apply sample_ok in Hsample as (_ & _ & r & g & _ & Hupd & ->).
  assert (Hg : exists rs, g env s = Ok (s2, rs)).
  { destruct Hfetch as [(x & H)|(x & H)]; simpl in H;
      apply bind_ok in H as ([s3 rs] & Hg & H); injection H as _ <-;
      exists rs; exact Hg. }
  destruct Hg as (rs & Hg).
  destruct (graph_session _ _ _ _ Hupd Hg) as (Hf & _ & Hother & Hc).
  split; [exact Hf|]. split; [exact Hother|].
  destruct (uses_counter self'); split; intros E; try discriminate E; exact Hc.
Qed.

Lemma fetching_values_increments_counter_witness :
  exists o0 s0 b self' s1 samples s2,
    Demo.sghmc (Some 20%Z) = Ok (o0, s0)
    /\ sample (Sghmc o0) (Callable "log_joint") [] Demo.latent s0 = (Ok b, self', s1)
    /\ new_samples b Demo.env s1 = Ok (samples, s2)
    /\ fvars s2 = fvars s1
    /\ (forall t, t <> SGMCMC.t (base_of self') ->
          nth_error (ivars s2) t = nth_error (ivars s1) t)
    /\ (uses_counter self' = true ->
        exists old,
          read_int s1 (SGMCMC.t (base_of self')) = Ok old
          /\ read_int s2 (SGMCMC.t (base_of self')) = Ok (wrap32 (old + 1)))
    /\ (uses_counter self' = false -> s2 = s1).
Proof.
  eexists _, _, _, _, _, _, _. keep_computed Hinit. keep_computed Hsample.
  keep_computed Hfetch.
  apply (@fetching_values_increments_counter _ _ _ _ _ _ _ _ _ _ _ Hsample
           (or_introl (ex_intro _ _ Hfetch))).
Defined.

(** ** One run in closed form, whatever the class *)

Lemma is_scalar_elem (x : tensor) : is_scalar x = true -> x = scalar (elem x 0).
Proof.
  unfold is_scalar, as_scalar, elem.
  destruct x as [[|n shp] [|r [|r' d]]]; simpl; intros H; try discriminate H.
  reflexivity.
Qed.

Lemma counted_fvars (self : sampler) (s : session) : fvars (counted self s) = fvars s.
Proof. unfold counted. destruct (uses_counter self); reflexivity. Qed.

Lemma counted_ivars (self : sampler) (s : session) :
  length (ivars (counted self s)) = length (ivars s).
Proof.
  unfold counted. destruct (uses_counter self); [|reflexivity].
  simpl. apply list_set_length.
Qed.

Lemma counted_step (self : sampler) (qs : list var) (s : session) :
  ready self qs s = true ->
  if uses_counter self
  then assign_add s (SGMCMC.t (base_of self)) 1 = Ok (next_t self s, counted self s)
  else counted self s = s.
Proof.
  intros Hready. unfold counted, next_t.
  destruct (uses_counter self) eqn:Hc; [|reflexivity].
  destruct (ready_counter _ _ _ Hready Hc) as (old & Hold).
  assert (E : nth (SGMCMC.t (base_of self)) (ivars s) 0%Z = old).
  { unfold read_int in Hold.
    destruct (nth_error (ivars s) (SGMCMC.t (base_of self))) as [x|] eqn:Hn;
      [|discriminate Hold].
    injection Hold as ->. apply (nth_error_nth _ _ _ Hn). }
  rewrite E. apply assign_add_ok, Hold.
Qed.

Lemma expected_single_at (self : sampler) (qs : list var) (env : run_env) (s : session)
  (i : nat) :
  steppable self = true ->
  ready self qs s = true ->
  gradients_ready env s qs = true ->
  i < length qs ->
  single_at self qs env (counted self s) (next_t self s)
    (gradients env (map (value_at s) qs)) i
  = Ok (expected self (next_t self s) qs env s i).
Proof.
  intros Hstep Hready Hgrads Hi.
  pose proof (ready_velocities _ _ _ Hready) as Hvel.
  pose proof (ready_thermostats _ _ _ Hready) as Hth.
  pose proof (counted_fvars self s) as Hf.
  destruct self as [o|o|o|o]; [discriminate Hstep| | |]; cbn [steppable] in Hstep.
  - apply sgld_single_at; try assumption. apply is_scalar_elem, Hstep.
  - cbn [auxiliary fst] in Hvel.
    destruct (SGHMC.vs o) as [vs|] eqn:Hvs; [|discriminate Hvel].
    split_andb. unfold expected. rewrite Hvs.
    apply sghmc_single_at; try assumption; try (apply is_scalar_elem; assumption).
    match goal with
    | H : negb _ = true |- _ => apply negb_true_iff, Z.eqb_neq in H; exact H
    end.
  - cbn [auxiliary fst snd] in Hvel, Hth.
    destruct (SGNHT.vs o) as [vs|] eqn:Hvs; [|discriminate Hvel].
    destruct (SGNHT.xis o) as [xis|] eqn:Hxis; [|cbn in Hth; lia].
    split_andb. unfold expected. rewrite Hvs, Hxis.
    apply sgnht_single_at; try assumption; try (apply is_scalar_elem; assumption).
Qed.

Lemma step_graph (self : sampler) (qs : list var) (g : graph) (env : run_env)
  (s : session) :
  steppable self = true ->
  ready self qs s = true ->
  gradients_ready env s qs = true ->
  call_update self qs get_gradient = Ok (Value g) ->
  g env s
  = Ok (counted self s, map (expected self (next_t self s) qs env s) (seq 0 (length qs))).
Proof.
  intros Hstep Hready Hgrads Hupd.
  apply (@graph_total self qs g env s (counted self s) (next_t self s)
           (expected self (next_t self s) qs env s) Hready Hgrads Hupd).
  - apply (counted_step _ _ _ Hready).
  - intros i Hi. apply expected_single_at; assumption.
Qed.

Lemma expected_slots (self : sampler) (new_t : Z) (qs : list var) (env : run_env)
  (s : session) :
  ready self qs s = true ->
  forall i' k' w, i' < length qs ->
    nth_error (update_op_of (expected self new_t qs env s i')) k' = Some w ->
    slot self qs i' k' = Some (fst w).
Proof.
  intros Hready.
  pose proof (ready_velocities _ _ _ Hready) as Hvel.
  pose proof (ready_thermostats _ _ _ Hready) as Hth.
  destruct self as [o|o|o|o]; [discriminate Hready| | |].
  - apply sgld_expected_slots.
  - cbn [auxiliary fst] in Hvel.
    destruct (SGHMC.vs o) as [vs|] eqn:Hvs; [|discriminate Hvel].
    unfold expected. rewrite Hvs.
    apply sghmc_expected_slots; [exact Hvs | apply Hvel].
  - cbn [auxiliary fst snd] in Hvel, Hth.
    destruct (SGNHT.vs o) as [vs|] eqn:Hvs; [|discriminate Hvel].
    destruct (SGNHT.xis o) as [xis|] eqn:Hxis; [|cbn in Hth; lia].
    unfold expected. rewrite Hvs, Hxis.
    apply sgnht_expected_slots; [exact Hvs | exact Hxis | apply Hvel | apply Hth].
Qed.

(** The tensor the assignment of a slot carries is well formed and of the
    slot's shape. *)
Lemma expected_value (self : sampler) (new_t : Z) (qs : list var) (env : run_env)
  (s : session) (i k : nat) (q v : var) :
  ready self qs s = true ->
  nth_error qs i = Some q ->
  slot self qs i k = Some v ->
  exists x,
    nth_error (update_op_of (expected self new_t qs env s i)) k = Some (v, x)
    /\ shape x = (if k =? 2 then [] else shape_at s q)
    /\ wf_b x = true.
Proof.
  intros Hready Hq Hslot.
  destruct self as [o|o|o|o]; [discriminate Hready| | |].
  - destruct k as [|k]; [|destruct k as [|[|k]]; discriminate Hslot].
    cbn [slot] in Hslot. rewrite Hq in Hslot. injection Hslot as <-.
    eexists. unfold expected, sgld_expected, update_op_of. cbn [fst snd nth_error].
    rewrite (nth_error_nth _ _ _ Hq). split; [reflexivity|]. split; [reflexivity | apply wf_tab].
  - destruct k as [|[|k]]; [| |destruct k; discriminate Hslot];
      cbn [slot auxiliary fst] in Hslot.
    + rewrite Hq in Hslot. injection Hslot as <-.
      eexists. unfold expected, sghmc_expected, update_op_of. cbn [fst snd nth_error].
      rewrite (nth_error_nth _ _ _ Hq). split; [reflexivity|]. split; [reflexivity | apply wf_tab].
    + destruct (SGHMC.vs o) as [vs|] eqn:Hvs; [|discriminate Hslot].
      eexists. unfold expected, sghmc_expected, update_op_of. rewrite Hvs.
      cbn [fst snd nth_error].
      rewrite (nth_error_nth _ _ _ Hq), (nth_error_nth _ _ _ Hslot). split; [reflexivity|]. split; [reflexivity | apply wf_tab].
  - destruct k as [|[|[|k]]]; [| | |discriminate Hslot];
      cbn [slot auxiliary fst snd] in Hslot.
    + rewrite Hq in Hslot. injection Hslot as <-.
      eexists. unfold expected, sgnht_expected, update_op_of. cbn [fst snd nth_error].
      rewrite (nth_error_nth _ _ _ Hq). split; [reflexivity|]. split; [reflexivity | apply wf_tab].
    + destruct (SGNHT.vs o) as [vs|] eqn:Hvs; [|discriminate Hslot].
      eexists. unfold expected, sgnht_expected, update_op_of. rewrite Hvs.
      cbn [fst snd nth_error].
      rewrite (nth_error_nth _ _ _ Hq), (nth_error_nth _ _ _ Hslot). split; [reflexivity|]. split; [reflexivity | apply wf_tab].
    + destruct (SGNHT.xis o) as [xis|] eqn:Hxis; [|discriminate Hslot].
      eexists. unfold expected, sgnht_expected, update_op_of. rewrite Hxis.
      cbn [fst snd nth_error].
      rewrite (nth_error_nth _ _ _ Hslot). split; [reflexivity|]. split; reflexivity.
Qed.

Lemma in_all_vars_slot (self : sampler) (qs : list var) (s : session) (v : var) :
  ready self qs s = true ->
  In v (all_vars self qs) ->
  exists i k q, nth_error qs i = Some q /\ slot self qs i k = Some v.
Proof.
  intros Hready Hin.
  pose proof (ready_velocities _ _ _ Hready) as Hvel.
  pose proof (ready_thermostats _ _ _ Hready) as Hth.
  assert (Hq : forall i, i < length qs -> exists q, nth_error qs i = Some q).
  { intros i Hi. destruct (nth_error qs i) as [q|] eqn:E; [exists q; reflexivity|].
    apply nth_error_None in E. lia. }
  unfold all_vars in Hin. apply in_app_or in Hin as [Hin|Hin].
  - apply In_nth_error in Hin as (i & Hi). exists i, 0, v. split; exact Hi.
  - apply in_app_or in Hin as [Hin|Hin].
    + destruct (fst (auxiliary self)) as [vs|] eqn:Hvs; [|destruct Hin].
      apply In_nth_error in Hin as (i & Hi). destruct Hvel as [Hlen _].
      destruct (Hq i) as (q & Hqi).
      { rewrite <- Hlen. apply nth_error_Some. rewrite Hi. discriminate. }
      exists i, 1, q. split; [exact Hqi|]. unfold slot. rewrite Hvs. exact Hi.
    + destruct (snd (auxiliary self)) as [xis|] eqn:Hxis; [|destruct Hin].
      apply In_nth_error in Hin as (i & Hi). destruct Hth as (Hlen & _).
      destruct (Hq i) as (q & Hqi).
      { rewrite <- Hlen. apply nth_error_Some. rewrite Hi. discriminate. }
      exists i, 2, q. split; [exact Hqi|]. unfold slot. rewrite Hxis. exact Hi.
Qed.

Lemma value_at_nth_error (s s' : session) (v : var) :
  nth_error (fvars s') v = nth_error (fvars s) v -> value_at s' v = value_at s v.
Proof.
  intros H. unfold value_at.
  destruct (nth_error (fvars s) v) as [x|] eqn:E.
  - rewrite (nth_error_nth _ _ _ H), (nth_error_nth _ _ _ E). reflexivity.
  - apply nth_error_None in H, E. rewrite !nth_overflow by assumption. reflexivity.
Qed.

(** One run of the sample operation of a steppable sampler from a ready
    session: it succeeds, its session is [stepped], which is ready again. *)
Lemma stepped_spec (self : sampler) (qs : list var) (g : graph) (keys : list pyobj)
  (env : run_env) (s : session) :
  steppable self = true ->
  ready self qs s = true ->
  gradients_ready env s qs = true ->
  call_update self qs get_gradient = Ok (Value g) ->
  sample_op (bound_of keys g) env s = Ok (tt, stepped self qs env s)
  /\ ready self qs (stepped self qs env s) = true
  /\ (forall i k q v, nth_error qs i = Some q -> slot self qs i k = Some v ->
        exists x,
          nth_error (update_op_of (expected self (next_t self s) qs env s i)) k
          = Some (v, x)
          /\ nth_error (fvars (stepped self qs env s)) v = Some x)
  /\ (forall v, ~ In v (all_vars self qs) ->
        nth_error (fvars (stepped self qs env s)) v = nth_error (fvars s) v)
  /\ (forall v, shape_at (stepped self qs env s) v = shape_at s v).
Proof.
  intros Hstep Hready Hgrads Hupd.
  pose proof (@step_graph self qs g env s Hstep Hready Hgrads Hupd) as Hg.
  pose proof (@expected_slots self (next_t self s) qs env s Hready) as Hslots.
  assert (Hwrite : forall i k q v, nth_error qs i = Some q -> slot self qs i k = Some v ->
            exists x,
              nth_error (update_op_of (expected self (next_t self s) qs env s i)) k
              = Some (v, x)
              /\ nth_error (fvars (stepped self qs env s)) v = Some x
              /\ shape x = (if k =? 2 then [] else shape_at s q)
              /\ wf_b x = true).
  { intros i k q v Hq Hslot.
    destruct (@expected_value self (next_t self s) qs env s i k q v Hready Hq Hslot)
      as (x & Hx & Hshape & Hwf).
    exists x. split; [exact Hx|]. split; [|split; assumption].
    assert (Hi : i < length qs) by (apply nth_error_Some; rewrite Hq; discriminate).
    apply (@group_write self qs s (counted self s) _ (length qs) i k v x
             Hready (counted_fvars self s) Hslots Hi Hx). }
  assert (Hother : forall v, ~ In v (all_vars self qs) ->
            nth_error (fvars (stepped self qs env s)) v = nth_error (fvars s) v).
  { intros v Hv. rewrite <- (counted_fvars self s).
    apply (@group_other self qs (counted self s) _ (length qs) v Hslots).
    intros i k E. apply Hv. eapply slot_in_all_vars, E. }
  split; [simpl; rewrite Hg; reflexivity|].
  split.
  { apply (@ready_preserved self qs s _ Hready).
    - unfold stepped. rewrite run_op_ivars. apply counted_ivars.
    - intros i k q v Hq Hslot.
      destruct (Hwrite i k q v Hq Hslot) as (x & _ & Hx & Hshape & Hwf).
      unfold holds. rewrite Hx, Hshape, shape_eqb_refl. exact Hwf. }
  split.
  { intros i k q v Hq Hslot.
    destruct (Hwrite i k q v Hq Hslot) as (x & Hx & Hx' & _).
    exists x. split; assumption. }
  split; [exact Hother|].
  intros v. destruct (in_dec Nat.eq_dec v (all_vars self qs)) as [Hin|Hout].
  - destruct (@in_all_vars_slot self qs s v Hready Hin) as (i & k & q & Hq & Hslot).
    destruct (Hwrite i k q v Hq Hslot) as (x & _ & Hx & Hshape & _).
    pose proof (@slot_holds self qs s i k v q Hready Hq Hslot) as Hh.
    apply holds_value in Hh as (_ & Hs & _).
    unfold shape_at at 1. rewrite (nth_error_value_at _ _ Hx), Hshape.
    symmetry. exact Hs.
  - unfold shape_at. rewrite (@value_at_nth_error s (stepped self qs env s) v (Hother v Hout)). reflexivity.
Qed.

Lemma run_steps_ready (self : sampler) (qs : list var) (g : graph) (keys : list pyobj)
  (envs : list run_env) (s : session) :
  steppable self = true ->
  call_update self qs get_gradient = Ok (Value g) ->
  ready self qs s = true ->
  (forall env s', In env envs -> ready self qs s' = true ->
     gradients_ready env s' qs = true) ->
  exists s',
    run_steps (bound_of keys g) envs s = Ok s'
    /\ ready self qs s' = true
    /\ length (fvars s') = length (fvars s)
    /\ forall v, shape_at s' v = shape_at s v.
Proof.
  intros Hstep Hupd. revert s. induction envs as [|env envs IH]; intros s Hready Hgrads.
  - exists s. split; [reflexivity|]. split; [exact Hready|]. split; reflexivity.
  - assert (Hgr : gradients_ready env s qs = true)
      by (apply Hgrads; [left; reflexivity | exact Hready]).
    destruct (@stepped_spec self qs g keys env s Hstep Hready Hgr Hupd)
      as (Hop & Hready' & _ & _ & Hshape).
    destruct (IH (stepped self qs env s) Hready'
                (fun env' s' Hin => Hgrads env' s' (or_intror Hin)))
      as (s' & Hrun & Hready'' & Hlen & Hshape').
    exists s'. cbn [run_steps]. rewrite Hop. cbn [bind].
    split; [exact Hrun|]. split; [exact Hready''|].
    split.
    + rewrite Hlen. unfold stepped. rewrite run_op_length. apply f_equal, counted_fvars.
    + intros v. rewrite Hshape'. apply Hshape.
Qed.

(** A bound sampler can be stepped for as long as one likes.  With rank-0
    hyper-parameters (and, for SGHMC, a resample interval other than 0),
    from a session in which its variables are distinct and well formed, and
    with gradients that come in the shapes of the latents, every run of the
    sample operation succeeds; the session it leaves has the same variables
    in the same shapes and can be stepped again. *)
Theorem bound_sampler_keeps_stepping :
  forall (self : sampler) (mm : meta_model_t) (observed : dict tensor)
    (latent : dict pyobj) (s0 : session) (b : bound) (self' : sampler) (s1 : session)
    (envs : list run_env) (s : session),
    sample self mm observed latent s0 = (Ok b, self', s1) ->
    steppable self' = true ->
    ready self' (handles (map snd latent)) s = true ->
    (forall env s', In env envs ->
       ready self' (handles (map snd latent)) s' = true ->
       gradients_ready env s' (handles (map snd latent)) = true) ->
    exists s',
      run_steps b envs s = Ok s'
      /\ ready self' (handles (map snd latent)) s' = true
      /\ length (fvars s') = length (fvars s)
      /\ forall v, shape_at s' v = shape_at s v.
Proof.
  intros self mm observed latent s0 b self' s1 envs s Hsample Hstep Hready Hgrads.
  apply sample_ok in Hsample as (_ & _ & r & g & _ & Hupd & ->).
  apply (@run_steps_ready self' (handles (map snd latent)) g
           (map (fun kv => PyStr (fst kv)) latent) envs s Hstep Hupd Hready Hgrads).
Qed.

Lemma elementwise_gradients_ready (f : R -> R) (z : nat -> rand_site -> nat -> R)
  (self : sampler) (qs : list var) (s : session) :
  ready self qs s = true ->
  gradients_ready (mkEnv (map (tmap f)) z) s qs = true.
Proof.
  intros Hready. pose proof (@ready_latents self qs s Hready) as Hq.
  unfold gradients_ready. cbn [gradients].
  rewrite !length_map, Nat.eqb_refl. cbn [andb].
  apply forallb_forall. intros [x g] Hin.
  apply In_nth_error in Hin as (i & Hi). apply nth_error_combine in Hi as [Hx Hg].
  rewrite nth_error_map, Hx in Hg. injection Hg as <-.
  rewrite nth_error_map in Hx.
  destruct (nth_error qs i) as [q|] eqn:Hqi; [|discriminate Hx]. injection Hx as <-.
  pose proof (@forallb_nth _ _ qs i q Hq Hqi) as Hh. cbv beta in Hh.
  apply holds_value in Hh as (_ & _ & Hwf).
  cbn [fst snd tmap shape]. rewrite shape_eqb_refl. cbn [andb].
  unfold wf_b in *. unfold tmap. cbn [data shape]. rewrite length_map. exact Hwf.
Qed.

Lemma bound_sampler_keeps_stepping_witness :
  exists b self' s1,
    sample (Sgnht (fst Demo.sgnht)) (Callable "log_joint") [] Demo.latent (snd Demo.sgnht)
    = (Ok b, self', s1)
    /\ steppable self' = true
    /\ ready self' Demo.qs s1 = true
    /\ (forall env s', In env [Demo.env; Demo.env; Demo.env] ->
          ready self' Demo.qs s' = true -> gradients_ready env s' Demo.qs = true)
    /\ exists s',
         run_steps b [Demo.env; Demo.env; Demo.env] s1 = Ok s'
         /\ ready self' Demo.qs s' = true
         /\ length (fvars s') = 6
         /\ forall v, shape_at s' v = shape_at s1 v.
Proof.
  eexists _, _, _. keep_computed Hsample. keep_computed Hstep. keep_computed Hready.
  match goal with
  | |- ?A /\ _ => assert (Hgrads : A); [|split; [exact Hgrads|]]
  end.
  { intros env s' Hin Hr.
    assert (E : env = Demo.env) by (destruct Hin as [<-|[<-|[<-|[]]]]; reflexivity).
    rewrite E. apply (@elementwise_gradients_ready Ropp _ _ _ _ Hr). }
  apply (@bound_sampler_keeps_stepping _ _ _ _ _ _ _ _ _ _ Hsample Hstep Hready Hgrads).
Defined.

(** ** The state a bind leaves, for SGNHT *)

Lemma sgnht_bind (o : SGNHT.obj) (mm : meta_model_t) (observed : dict tensor)
  (latent : dict pyobj) (s : session) (b : bound) (self' : sampler) (s' : session) :
  sample (Sgnht o) mm observed latent s = (Ok b, self', s') ->
  exists o' vs xis,
    self' = Sgnht o'
    /\ SGNHT.vs o' = Some vs /\ SGNHT.xis o' = Some xis
    /\ length vs = length latent /\ length xis = length latent
    /\ SGNHT.lr o' = SGNHT.lr o /\ SGNHT.alpha o' = SGNHT.alpha o
    /\ SGNHT.tune_rate o' = SGNHT.tune_rate o
    /\ forall i k q, nth_error latent i = Some (k, PyVariable q) ->
         exists x v xi,
           read s q = Ok x /\ read s' q = Ok x
           /\ nth_error vs i = Some v /\ nth_error xis i = Some xi
           /\ read s' v = Ok (zeros (shape x))
           /\ read s' xi = Ok (SGNHT.alpha o).
Proof.
  intros H.
  apply sample_ok in H as (_ & Hall & r & g & Hdef & _ & _).
  set (qs := handles (map snd latent)) in *.
  destruct (store_arguments_sgnht o mm observed latent) as (b0 & _ & Hstore).
  rewrite Hstore in Hdef. simpl in Hdef.
  apply bind_ok in Hdef as ([o' s1] & Hdef & Hret). injection Hret as _ <- <-.
  pose proof Hdef as Hreads.
  unfold SGNHT._define_variables in Hreads. apply bind_ok in Hreads as (qvs & Hreads & _).
  apply sgnht_define_variables in Hdef. simpl in Hdef.
  destruct Hdef as (Hvs & Hxis & _ & Hlr & Halpha & Htune & _ & Hf).
  exists o', (seq (length (fvars s)) (length qs)), (seq (length (fvars s) + length qs) (length qs)).
  split; [reflexivity|]. split; [exact Hvs|]. split; [exact Hxis|].
  rewrite !length_seq. split; [apply (handles_length latent Hall)|].
  split; [apply (handles_length latent Hall)|].
  split; [exact Hlr|]. split; [exact Halpha|]. split; [exact Htune|].
  intros i k q Hi.
  pose proof (handles_nth latent i Hall Hi) as Hq. fold qs in Hq.
  destruct (mapM_nth _ _ Hreads _ Hq) as (x & _ & Hx).
  assert (Hi' : i < length qs) by (apply nth_error_Some; rewrite Hq; discriminate).
  pose proof Hx as Hxn. apply read_value_at in Hxn.
  pose proof (nth_error_value_at _ _ Hxn) as Hval.
  assert (Hq' : nth_error (fvars s1) q = Some x).
  { rewrite Hf. rewrite nth_error_app1; [exact Hxn|].
    apply nth_error_Some. rewrite Hxn. discriminate. }
  assert (Hv' : nth_error (fvars s1) (length (fvars s) + i) = Some (zeros (shape x))).
  { rewrite Hf, nth_error_app_seq, nth_error_app1 by (rewrite length_map; exact Hi').
    rewrite nth_error_map, Hq. simpl. rewrite Hval. reflexivity. }
  assert (Hxi' : nth_error (fvars s1) (length (fvars s) + length qs + i) = Some (SGNHT.alpha o)).
  { rewrite Hf, <- Nat.add_assoc, nth_error_app_seq.
    replace (length qs + i) with (length (map (fun q => zeros_like (value_at s q)) qs) + i)
      by (rewrite length_map; reflexivity).
    rewrite nth_error_app_seq, nth_error_map, Hq. reflexivity. }
  exists x, (length (fvars s) + i), (length (fvars s) + length qs + i).
  split; [exact Hx|]. split; [apply read_value_at, Hq'|].
  split; [apply nth_error_seq_Some, Hi'|]. split; [apply nth_error_seq_Some, Hi'|].
  split; [apply read_value_at, Hv' | apply read_value_at, Hxi'].
Qed.

(** ** The first run after construction and binding *)

Lemma bound_step (self : sampler) (mm : meta_model_t) (observed : dict tensor)
  (latent : dict pyobj) (s0 : session) (b : bound) (self' : sampler) (s1 : session)
  (env : run_env) (s : session) :
  sample self mm observed latent s0 = (Ok b, self', s1) ->
  steppable self' = true ->
  ready self' (handles (map snd latent)) s = true ->
  gradients_ready env s (handles (map snd latent)) = true ->
  sample_op b env s = Ok (tt, stepped self' (handles (map snd latent)) env s)
  /\ forall i k q, nth_error latent i = Some (k, PyVariable q) ->
       nth_error (handles (map snd latent)) i = Some q
       /\ forall j v, slot self' (handles (map snd latent)) i j = Some v ->
            exists x,
              nth_error
                (update_op_of
                   (expected self' (next_t self' s) (handles (map snd latent)) env s i)) j
              = Some (v, x)
              /\ read (stepped self' (handles (map snd latent)) env s) v = Ok x.
Proof.
  intros Hsample Hstep Hready Hgrads.
  apply sample_ok in Hsample as (_ & Hall & r & g & _ & Hupd & ->).
  destruct (@stepped_spec self' (handles (map snd latent)) g
              (map (fun kv => PyStr (fst kv)) latent) env s Hstep Hready Hgrads Hupd)
    as (Hop & _ & Hwrite & _).
  split; [exact Hop|].
  intros i k q Hi. pose proof (handles_nth latent i Hall Hi) as Hq.
  split; [exact Hq|].
  intros j v Hslot. destruct (Hwrite i j q v Hq Hslot) as (x & Hx & Hx').
  exists x. split; [exact Hx | apply read_value_at, Hx'].
Qed.

Lemma next_t_read (self : sampler) (s : session) (c : Z) :
  uses_counter self = true ->
  read_int s (SGMCMC.t (base_of self)) = Ok c ->
  next_t self s = wrap32 (c + 1)
  /\ read_int (counted self s) (SGMCMC.t (base_of self)) = Ok (wrap32 (c + 1)).
Proof.
  intros Hc Hread. unfold counted, next_t. rewrite Hc.
  assert (E : nth (SGMCMC.t (base_of self)) (ivars s) 0%Z = c).
  { unfold read_int in Hread.
    destruct (nth_error (ivars s) (SGMCMC.t (base_of self))) as [x|] eqn:Hn;
      [|discriminate Hread].
    injection Hread as ->. apply (nth_error_nth _ _ _ Hn). }
  rewrite E. split; [reflexivity|].
  apply (read_int_list_set s _ _ (fvars s) Hread).
Qed.

Lemma stepped_counter (self : sampler) (qs : list var) (env : run_env) (s : session) (c : Z) :
  uses_counter self = true ->
  read_int s (SGMCMC.t (base_of self)) = Ok c ->
  read_int (stepped self qs env s) (SGMCMC.t (base_of self)) = Ok (wrap32 (c + 1)).
Proof.
  intros Hc Hread. unfold stepped, read_int. rewrite run_op_ivars.
  apply (next_t_read self s Hc Hread).
Qed.

Lemma read_int_has_counter (s : session) (b : SGMCMC.obj) (c : Z) :
  read_int s (SGMCMC.t b) = Ok c -> has_counter s b = true.
Proof.
  unfold read_int, has_counter. intros H. apply Nat.ltb_lt, nth_error_Some.
  destruct (nth_error (ivars s) (SGMCMC.t b)); [discriminate | discriminate H].
Qed.

Lemma sghmc_init_fields (lr alpha beta : tensor) (n : option Z) (s : session)
  (o : SGHMC.obj) (s' : session) :
  SGHMC.__init__ lr alpha beta n s = Ok (o, s') ->
  SGHMC.lr o = lr /\ SGHMC.alpha o = alpha /\ SGHMC.beta o = beta
  /\ SGHMC.n_iter_resample_v o = match n with None => 0%Z | Some n => n end.
Proof.
  unfold SGHMC.__init__. destruct (SGHMC.int32 _); [|intros H; discriminate H].
  intros H. injection H as <- _. auto.
Qed.

(** The runs of a freshly constructed and bound SGHMC sampler with a
    resample interval n other than 0.  The counter starts at -1 and every
    run increments it before it is used, so the run that follows K earlier
    runs sees K: it replaces the momentum by a fresh Normal(0, lr) draw
    exactly when n divides K, and uses the stored velocity otherwise.  The
    first run (K = 0) always resamples, so the zeros the velocities are
    created with are never used. *)
Theorem sghmc_resamples_when_interval_divides_run_count :
  forall (lr alpha beta : R) (n : Z) (s00 : session) (o0 : SGHMC.obj) (s0 : session)
    (mm : meta_model_t) (observed : dict tensor) (latent : dict pyobj) (b : bound)
    (self' : sampler) (s1 : session) (envs : list run_env) (s : session) (env : run_env),
    SGHMC.__init__ (scalar lr) (scalar alpha) (scalar beta) (Some n) s00 = Ok (o0, s0) ->
    n <> 0%Z ->
    sample (Sghmc o0) mm observed latent s0 = (Ok b, self', s1) ->
    distinct (handles (map snd latent)) = true ->
    forallb (fun q => holds s0 (shape_at s0 q) q) (handles (map snd latent)) = true ->
    (forall env' s', In env' envs ->
       ready self' (handles (map snd latent)) s' = true ->
       gradients_ready env' s' (handles (map snd latent)) = true) ->
    run_steps b envs s1 = Ok s ->
    (Z.of_nat (length envs) < 2 ^ 31 - 1)%Z ->
    gradients_ready env s (handles (map snd latent)) = true ->
    exists s' o' vs,
      sample_op b env s = Ok (tt, s')
      /\ self' = Sghmc o' /\ SGHMC.vs o' = Some vs
      /\ read_int s' (SGMCMC.t (SGHMC.base o')) = Ok (Z.of_nat (length envs))
      /\ forall i k q, nth_error latent i = Some (k, PyVariable q) ->
           let x := value_at s q in
           let g :=
             nth i (gradients env (map (value_at s) (handles (map snd latent))))
               (scalar 0%R) in
           exists v,
             nth_error vs i = Some v
             /\ let old_v j :=
                  if (Z.of_nat (length envs) mod n =? 0)%Z
                  then Spec.normal_draw lr (normal env i Momentum j)
                  else elem (value_at s v) j in
                let new_v j :=
                  Spec.sghmc_new_v lr alpha beta (old_v j) (elem g j)
                    (normal env i Noise j) in
                read s' v = Ok (tab (shape x) new_v)
                /\ read s' q = Ok (tab (shape x) (fun j => Spec.new_q (elem x j) (new_v j))).
Proof.
  intros lr alpha beta n s00 o0 s0 mm observed latent b self' s1 envs s env
    Hinit Hn Hsample Hdistinct Hholds Hgrads Hrun Hlen Hgr.
  pose proof (constructed_counter (constructed_sghmc _ _ _ _ _ Hinit)) as Ht0.
  cbn [base_of] in Ht0.
  destruct (sample_counter _ _ _ _ _ Hsample) as [Ht Hiv]. cbn [base_of] in Ht.
  assert (Hready1 : ready self' (handles (map snd latent)) s1 = true).
  { apply (@sample_ready (Sghmc o0) mm observed latent s0 b self' s1 Hsample Hdistinct Hholds).
    - apply (read_int_has_counter _ _ Ht0).
    - intros o E. discriminate E. }
  destruct (@sghmc_bind o0 mm observed latent s0 b self' s1 Hsample)
    as (o' & vs & -> & Hvs & _ & Hlr & Halpha & Hbeta & Hn' & _).
  destruct (@sghmc_init_fields _ _ _ _ _ _ _ Hinit) as (E1 & E2 & E3 & E4).
  rewrite E1 in Hlr. rewrite E2 in Halpha. rewrite E3 in Hbeta. rewrite E4 in Hn'.
  assert (Hstep : steppable (Sghmc o') = true).
  { cbn [steppable]. rewrite Hlr, Halpha, Hbeta, Hn'.
    apply Z.eqb_neq in Hn. rewrite Hn. reflexivity. }
  cbn [base_of] in Ht.
  assert (Ht1 : read_int s1 (SGMCMC.t (SGHMC.base o')) = Ok (-1)%Z).
  { unfold read_int. rewrite Ht, Hiv. exact Ht0. }
  pose proof Hsample as Hok.
  apply sample_ok in Hok as (_ & _ & r & g & _ & Hupd & Hb).
  assert (Hs : ready (Sghmc o') (handles (map snd latent)) s = true
               /\ read_int s (SGMCMC.t (SGHMC.base o')) = Ok (Z.of_nat (length envs) - 1)%Z).
  { rewrite Hb in Hrun.
    destruct (@run_steps_ready (Sghmc o') (handles (map snd latent)) g
                (map (fun kv => PyStr (fst kv)) latent) envs s1 Hstep Hupd Hready1 Hgrads)
      as (s2 & Hrun2 & Hready2 & _).
    rewrite Hrun in Hrun2. injection Hrun2 as <-. split; [exact Hready2|].
    pose proof (@run_steps_counter (Sghmc o') (handles (map snd latent)) g
                  (map (fun kv => PyStr (fst kv)) latent) envs s1 s (-1)%Z
                  Hupd Hrun Ht1) as Hcount.
    cbn [uses_counter base_of] in Hcount. rewrite Hcount by lia. f_equal. lia. }
  destruct Hs as [Hready Hts].
  destruct (@bound_step (Sghmc o0) mm observed latent s0 b (Sghmc o') s1 env s
              Hsample Hstep Hready Hgr) as (Hop & Hstepped).
  destruct (@next_t_read (Sghmc o') s _ eq_refl Hts) as [Hnext _].
  replace (Z.of_nat (length envs) - 1 + 1)%Z with (Z.of_nat (length envs)) in Hnext by lia.
  rewrite wrap32_small in Hnext by lia.
  exists (stepped (Sghmc o') (handles (map snd latent)) env s), o', vs.
  split; [exact Hop|]. split; [reflexivity|]. split; [exact Hvs|].
  split.
  { pose proof (@stepped_counter (Sghmc o') (handles (map snd latent)) env s _ eq_refl Hts)
      as Hc.
    replace (Z.of_nat (length envs) - 1 + 1)%Z with (Z.of_nat (length envs)) in Hc by lia.
    rewrite wrap32_small in Hc by lia. exact Hc. }
  intros i k q Hi x gr.
  destruct (Hstepped i k q Hi) as (Hq & Hslots).
  pose proof (ready_velocities _ _ _ Hready) as Hvel. cbn [auxiliary fst] in Hvel.
  rewrite Hvs in Hvel. destruct Hvel as [Hlenv _].
  assert (Hv : nth_error vs i = Some (nth i vs 0)).
  { apply nth_error_nth'. rewrite Hlenv. apply nth_error_Some. rewrite Hq. discriminate. }
  exists (nth i vs 0). split; [exact Hv|].
  intros old_v new_v.
  assert (Hs0 : slot (Sghmc o') (handles (map snd latent)) i 0 = Some q) by exact Hq.
  assert (Hs1 : slot (Sghmc o') (handles (map snd latent)) i 1 = Some (nth i vs 0)).
  { cbn [slot auxiliary fst]. rewrite Hvs. exact Hv. }
  destruct (Hslots 0 q Hs0) as (y0 & Hy0 & Hread0).
  destruct (Hslots 1 _ Hs1) as (y1 & Hy1 & Hread1).
  rewrite Hread0, Hread1.
  rewrite Hnext in Hy0, Hy1.
  unfold expected, sghmc_expected, update_op_of in Hy0, Hy1.
  rewrite Hlr, Halpha, Hbeta, Hvs in Hy0, Hy1.
  cbn [fst snd nth_error] in Hy0, Hy1.
  rewrite (nth_error_nth _ _ _ Hq) in Hy0, Hy1.
  injection Hy0 as <-. injection Hy1 as <-.
  unfold Spec.sghmc_old_v. rewrite Hn'.
  split; reflexivity.
Qed.

Lemma sghmc_resamples_when_interval_divides_run_count_witness :
  exists o0 s0 b self' s1,
    SGHMC.__init__ (scalar 0.1%R) (scalar 0.25%R) (scalar 0%R) (Some 20%Z) Demo.s0
    = Ok (o0, s0)
    /\ 20%Z <> 0%Z
    /\ sample (Sghmc o0) (Callable "log_joint") [] Demo.latent s0 = (Ok b, self', s1)
    /\ distinct (handles (map snd Demo.latent)) = true
    /\ forallb (fun q => holds s0 (shape_at s0 q) q) (handles (map snd Demo.latent)) = true
    /\ (forall env' s', In env' [Demo.env; Demo.env] ->
          ready self' (handles (map snd Demo.latent)) s' = true ->
          gradients_ready env' s' (handles (map snd Demo.latent)) = true)
    /\ exists s,
         run_steps b [Demo.env; Demo.env] s1 = Ok s
         /\ (Z.of_nat (length [Demo.env; Demo.env]) < 2 ^ 31 - 1)%Z
         /\ gradients_ready Demo.env s (handles (map snd Demo.latent)) = true
         /\ exists s' o' vs,
              sample_op b Demo.env s = Ok (tt, s')
              /\ self' = Sghmc o' /\ SGHMC.vs o' = Some vs
              /\ read_int s' (SGMCMC.t (SGHMC.base o')) = Ok 2%Z.
Proof.
  eexists _, _, _, _, _. keep_computed Hinit.
  split; [discriminate|].
  keep_computed Hsample. keep_computed Hdistinct. keep_computed Hholds.
  match goal with
  | |- ?A /\ _ => assert (Hgrads : A); [|split; [exact Hgrads|]]
  end.
  { intros env s' Hin Hr.
    assert (E : env = Demo.env) by (destruct Hin as [<-|[<-|[]]]; reflexivity).
    rewrite E. apply (@elementwise_gradients_ready Ropp _ _ _ _ Hr). }
  pose proof Hsample as Hok.
  apply sample_ok in Hok as (_ & _ & r & g & _ & Hupd & Hb).
  match type of Hsample with
  | _ = (_, ?self', ?s1) =>
      assert (Hstep : steppable self' = true) by reflexivity;
      assert (Hready1 : ready self' (handles (map snd Demo.latent)) s1 = true)
        by reflexivity;
      destruct (@run_steps_ready self' (handles (map snd Demo.latent)) g
                  (map (fun kv => PyStr (fst kv)) Demo.latent)
                  [Demo.env; Demo.env] s1 Hstep Hupd Hready1 Hgrads)
        as (s & Hrun & Hready & _)
  end.
  rewrite <- Hb in Hrun.
  exists s. split; [exact Hrun|]. split; [simpl; lia|].
  assert (Hgr : gradients_ready Demo.env s (handles (map snd Demo.latent)) = true)
    by apply (@elementwise_gradients_ready Ropp _ _ _ _ Hready).
  split; [exact Hgr|].
  destruct (@sghmc_resamples_when_interval_divides_run_count _ _ _ _ _ _ _ _ _ _ _ _ _
              [Demo.env; Demo.env] s Demo.env
              Hinit ltac:(discriminate) Hsample Hdistinct Hholds Hgrads Hrun
              ltac:(simpl; lia) Hgr)
    as (s' & o' & vs & Hop & Hself & Hvs & Ht & _).
  exists s', o', vs. split; [exact Hop|]. split; [exact Hself|].
  split; [exact Hvs | exact Ht].
Defined.

Lemma elem_zeros (shp : list nat) (j : nat) : elem (zeros shp) j = 0%R.
Proof.
  unfold elem, zeros. cbn [data].
  destruct (Nat.lt_ge_cases j (numel shp)) as [H|H].
  - apply nth_repeat_lt. exact H.
  - apply nth_overflow. rewrite repeat_length. exact H.
Qed.

(** The first run after an SGNHT sampler was bound, with the counter at c
    when it was bound.  A sampler bound right after its construction has
    c = -1: the run takes the counter to 0 and draws the momentum from
    Normal(0, lr).  A sampler that has run before and is bound again has
    c >= 0: binding gives it new velocities of zeros and does not reset the
    counter, so no momentum is ever drawn for them and the first run starts
    from velocity 0.  In both cases the thermostat variable holds alpha. *)
Theorem sgnht_first_run_after_bind :
  forall (o : SGNHT.obj) (lr alpha tune_rate : R) (c : Z) (mm : meta_model_t)
    (observed : dict tensor) (latent : dict pyobj) (s0 : session) (b : bound)
    (self' : sampler) (s1 : session) (env : run_env),
    SGNHT.lr o = scalar lr -> SGNHT.alpha o = scalar alpha ->
    SGNHT.tune_rate o = scalar tune_rate ->
    read_int s0 (SGMCMC.t (SGNHT.base o)) = Ok c ->
    (-1 <= c < 2 ^ 31 - 1)%Z ->
    sample (Sgnht o) mm observed latent s0 = (Ok b, self', s1) ->
    distinct (handles (map snd latent)) = true ->
    forallb (fun q => holds s0 (shape_at s0 q) q) (handles (map snd latent)) = true ->
    gradients_ready env s1 (handles (map snd latent)) = true ->
    exists s' o' vs,
      sample_op b env s1 = Ok (tt, s')
      /\ self' = Sgnht o' /\ SGNHT.vs o' = Some vs
      /\ read_int s' (SGMCMC.t (SGNHT.base o')) = Ok (c + 1)%Z
      /\ forall i k q, nth_error latent i = Some (k, PyVariable q) ->
           let x := value_at s1 q in
           let g :=
             nth i (gradients env (map (value_at s1) (handles (map snd latent))))
               (scalar 0%R) in
           let old_v j :=
             if (c =? -1)%Z then Spec.normal_draw lr (normal env i Momentum j) else 0%R in
           let new_v j :=
             Spec.sgnht_new_v lr alpha alpha (old_v j) (elem g j) (normal env i Noise j) in
           exists v,
             nth_error vs i = Some v
             /\ read s1 v = Ok (zeros (shape x))
             /\ read s' v = Ok (tab (shape x) new_v)
             /\ read s' q = Ok (tab (shape x) (fun j => Spec.new_q (elem x j) (new_v j))).
Proof.
  intros o lr alpha tune_rate c mm observed latent s0 b self' s1 env
    Hlr Halpha Htune Ht0 Hc Hsample Hdistinct Hholds Hgrads.
  destruct (sample_counter _ _ _ _ _ Hsample) as [Ht Hiv]. cbn [base_of] in Ht.
  assert (Hready : ready self' (handles (map snd latent)) s1 = true).
  { apply (@sample_ready (Sgnht o) mm observed latent s0 b self' s1 Hsample Hdistinct Hholds).
    - apply (read_int_has_counter _ _ Ht0).
    - intros o1 E. injection E as <-. exists alpha. exact Halpha. }
  destruct (@sgnht_bind o mm observed latent s0 b self' s1 Hsample)
    as (o' & vs & xis & -> & Hvs & Hxis & _ & _ & Hlr' & Halpha' & Htune' & Hbind).
  rewrite Hlr in Hlr'. rewrite Halpha in Halpha'. rewrite Htune in Htune'.
  assert (Hstep : steppable (Sgnht o') = true).
  { cbn [steppable]. rewrite Hlr', Halpha', Htune'. reflexivity. }
  cbn [base_of] in Ht.
  assert (Ht1 : read_int s1 (SGMCMC.t (SGNHT.base o')) = Ok c).
  { unfold read_int. rewrite Ht, Hiv. exact Ht0. }
  destruct (@bound_step (Sgnht o) mm observed latent s0 b (Sgnht o') s1 env s1
              Hsample Hstep Hready Hgrads) as (Hop & Hrun).
  destruct (@next_t_read (Sgnht o') s1 c eq_refl Ht1) as [Hnext _].
  rewrite wrap32_small in Hnext by lia.
  exists (stepped (Sgnht o') (handles (map snd latent)) env s1), o', vs.
  split; [exact Hop|]. split; [reflexivity|]. split; [exact Hvs|].
  split.
  { rewrite <- (@wrap32_small (c + 1)%Z) by lia.
    apply (@stepped_counter (Sgnht o') _ env s1 c eq_refl Ht1). }
  intros i k q Hi x g old_v new_v.
  destruct (Hrun i k q Hi) as (Hq & Hslots).
  destruct (Hbind i k q Hi) as (x0 & v & xi & _ & Hx1 & Hv & Hxi & Hv1 & Hxi1).
  assert (Ex : x = x0) by (apply nth_error_value_at, read_value_at, Hx1).
  assert (Ey : value_at s1 v = zeros (shape x)).
  { rewrite Ex. apply nth_error_value_at, read_value_at, Hv1. }
  assert (Exi : value_at s1 xi = scalar alpha).
  { rewrite <- Halpha. apply nth_error_value_at, read_value_at, Hxi1. }
  assert (Eold : forall j,
            Spec.sgnht_old_v (c + 1) lr (elem (zeros (shape x)) j) (normal env i Momentum j)
            = old_v j).
  { intros j. unfold Spec.sgnht_old_v, old_v. rewrite elem_zeros.
    destruct (Z.eqb_spec (c + 1) 0) as [E|E]; destruct (Z.eqb_spec c (-1)) as [E'|E'];
      try reflexivity; lia. }
  exists v. split; [exact Hv|]. split; [rewrite <- Ex in Hv1; exact Hv1|].
  assert (Hs0 : slot (Sgnht o') (handles (map snd latent)) i 0 = Some q) by exact Hq.
  assert (Hs1 : slot (Sgnht o') (handles (map snd latent)) i 1 = Some v).
  { cbn [slot auxiliary fst]. rewrite Hvs. exact Hv. }
  destruct (Hslots 0 q Hs0) as (y0 & Hy0 & Hread0).
  destruct (Hslots 1 v Hs1) as (y1 & Hy1 & Hread1).
  rewrite Hread0, Hread1.
  rewrite Hnext in Hy0, Hy1.
  unfold expected, sgnht_expected, update_op_of in Hy0, Hy1.
  rewrite Hlr', Halpha', Htune', Hvs, Hxis in Hy0, Hy1.
  cbn [fst snd nth_error] in Hy0, Hy1.
  rewrite (nth_error_nth _ _ _ Hq), (nth_error_nth _ _ _ Hv), (nth_error_nth _ _ _ Hxi)
    in Hy0, Hy1.
  rewrite Ey, Exi in Hy0, Hy1.
  injection Hy0 as <-. injection Hy1 as <-.
  split; f_equal; apply tab_ext; intros j _; unfold new_v; rewrite <- Eold; reflexivity.
Qed.

Lemma sgnht_first_run_after_bind_witness :
  exists b self' s1,
    SGNHT.lr (fst Demo.sgnht) = scalar 0.1%R
    /\ SGNHT.alpha (fst Demo.sgnht) = scalar 0%R
    /\ SGNHT.tune_rate (fst Demo.sgnht) = scalar 1%R
    /\ read_int (mkSession [7%Z] (fvars Demo.s0)) (SGMCMC.t (SGNHT.base (fst Demo.sgnht)))
       = Ok 7%Z
    /\ (-1 <= 7 < 2 ^ 31 - 1)%Z
    /\ sample (Sgnht (fst Demo.sgnht)) (Callable "log_joint") [] Demo.latent
         (mkSession [7%Z] (fvars Demo.s0))
       = (Ok b, self', s1)
    /\ distinct (handles (map snd Demo.latent)) = true
    /\ forallb
         (fun q =>
            holds (mkSession [7%Z] (fvars Demo.s0))
              (shape_at (mkSession [7%Z] (fvars Demo.s0)) q) q)
         (handles (map snd Demo.latent)) = true
    /\ gradients_ready Demo.env s1 (handles (map snd Demo.latent)) = true
    /\ exists s' o' vs,
         sample_op b Demo.env s1 = Ok (tt, s')
         /\ self' = Sgnht o' /\ SGNHT.vs o' = Some vs
         /\ read_int s' (SGMCMC.t (SGNHT.base o')) = Ok 8%Z.
Proof.
  eexists _, _, _.
  keep_computed Hlr. keep_computed Halpha. keep_computed Htune. keep_computed Ht.
  split; [lia|].
  keep_computed Hsample. keep_computed Hdistinct. keep_computed Hholds.
  keep_computed Hgrads.
  destruct (@sgnht_first_run_after_bind _ _ _ _ _ _ _ _ _ _ _ _ Demo.env
              Hlr Halpha Htune Ht ltac:(lia) Hsample Hdistinct Hholds Hgrads)
    as (s' & o' & vs & Hop & Hself & Hvs & Ht' & _).
  exists s', o', vs. split; [exact Hop|]. split; [exact Hself|].
  split; [exact Hvs | exact Ht'].
Defined.

(** ** Constructors and their counters *)

Lemma construction_session (s : session) (self : sampler) (s' : session) :
  construction s self s' ->
  SGMCMC.t (base_of self) = length (ivars s)
  /\ ivars s' = ivars s ++ [(-1)%Z]
  /\ fvars s' = fvars s
  /\ auxiliary self = (None, None).
Proof.
  intros H. destruct H as [|lr|lr a b n o s' H|lr a t].
  - repeat split.
  - repeat split.
  - unfold SGHMC.__init__ in H. destruct (SGHMC.int32 _); [|discriminate H].
    injection H as <- <-. repeat split.
  - repeat split.
Qed.

Lemma sample_op_other_counters (self : sampler) (mm : meta_model_t)
  (observed : dict tensor) (latent : dict pyobj) (s0 : session) (b : bound)
  (self' : sampler) (s1 : session) (env : run_env) (s s' : session) (t : ivar) :
  sample self mm observed latent s0 = (Ok b, self', s1) ->
  sample_op b env s = Ok (tt, s') ->
  t <> SGMCMC.t (base_of self) ->
  nth_error (ivars s') t = nth_error (ivars s) t.
Proof.
  intros Hsample Hop Ht.
  destruct (sample_counter _ _ _ _ _ Hsample) as [Et _].
  apply sample_ok in Hsample as (_ & _ & r & g & _ & Hupd & ->).
  simpl in Hop. apply bind_ok in Hop as ([s2 rs] & Hg & Hop). injection Hop as <-.
  destruct (graph_session _ _ _ _ Hupd Hg) as (_ & _ & Hother & _).
  rewrite run_op_ivars. apply Hother. rewrite Et. exact Ht.
Qed.

(** Every constructor creates exactly one variable, the int32 counter of
    the new sampler, at -1, and touches nothing else: the counter is not
    the counter of any sampler that exists, whose counter keeps its value.
    Two samplers therefore never share a step count: a run of the sample
    operation of one of them leaves the counter of the other where it
    was. *)
Theorem samplers_have_their_own_counters :
  forall (s : session) (selfA selfB : sampler) (sB : session),
    has_counter s (base_of selfA) = true ->
    construction s selfB sB ->
    SGMCMC.t (base_of selfB) <> SGMCMC.t (base_of selfA)
    /\ read_int sB (SGMCMC.t (base_of selfB)) = Ok (-1)%Z
    /\ read_int sB (SGMCMC.t (base_of selfA)) = read_int s (SGMCMC.t (base_of selfA))
    /\ length (ivars sB) = S (length (ivars s))
    /\ fvars sB = fvars s
    /\ (forall mm observed latent s0 b self' s1 env s2 s3,
          sample selfA mm observed latent s0 = (Ok b, self', s1) ->
          sample_op b env s2 = Ok (tt, s3) ->
          read_int s3 (SGMCMC.t (base_of selfB)) = read_int s2 (SGMCMC.t (base_of selfB)))
    /\ (forall mm observed latent s0 b self' s1 env s2 s3,
          sample selfB mm observed latent s0 = (Ok b, self', s1) ->
          sample_op b env s2 = Ok (tt, s3) ->
          read_int s3 (SGMCMC.t (base_of selfA)) = read_int s2 (SGMCMC.t (base_of selfA))).
Proof.
  intros s selfA selfB sB HA HB.
  destruct (construction_session HB) as (Ht & Hiv & Hf & _).
  unfold has_counter in HA. apply Nat.ltb_lt in HA.
  assert (Hne : SGMCMC.t (base_of selfB) <> SGMCMC.t (base_of selfA)) by lia.
  split; [exact Hne|].
  split.
  { unfold read_int. rewrite Hiv, Ht.
    rewrite <- (Nat.add_0_r (length (ivars s))), nth_error_app_seq. reflexivity. }
  split.
  { unfold read_int. rewrite Hiv, nth_error_app1 by exact HA. reflexivity. }
  split; [rewrite Hiv, length_app; simpl; lia|].
  split; [exact Hf|].
  split.
  - intros mm observed latent s0 b self' s1 env s2 s3 Hsample Hop.
    unfold read_int.
    rewrite (@sample_op_other_counters selfA mm observed latent s0 b self' s1 env s2 s3
               (SGMCMC.t (base_of selfB)) Hsample Hop Hne).
    reflexivity.
  - intros mm observed latent s0 b self' s1 env s2 s3 Hsample Hop.
    unfold read_int.
    rewrite (@sample_op_other_counters selfB mm observed latent s0 b self' s1 env s2 s3
               (SGMCMC.t (base_of selfA)) Hsample Hop (not_eq_sym Hne)).
    reflexivity.
Qed.

Lemma samplers_have_their_own_counters_witness :
  has_counter (snd Demo.sgld) (base_of (Sgld (fst Demo.sgld))) = true
  /\ construction (snd Demo.sgld)
       (Sgnht (fst (SGNHT.__init__ (scalar 0.1%R) (scalar 0%R) (scalar 1%R) (snd Demo.sgld))))
       (snd (SGNHT.__init__ (scalar 0.1%R) (scalar 0%R) (scalar 1%R) (snd Demo.sgld)))
  /\ SGMCMC.t (base_of
                 (Sgnht (fst (SGNHT.__init__ (scalar 0.1%R) (scalar 0%R) (scalar 1%R)
                                (snd Demo.sgld)))))
     <> SGMCMC.t (base_of (Sgld (fst Demo.sgld))).
Proof.
  split; [reflexivity|]. split; [apply construction_sgnht|].
  apply (@samplers_have_their_own_counters (snd Demo.sgld) (Sgld (fst Demo.sgld)) _ _
           eq_refl
           (construction_sgnht (snd Demo.sgld) (scalar 0.1%R) (scalar 0%R) (scalar 1%R))).
Defined.

(** ** The dictionary handed to the log joint *)

Lemma dict_set_fresh {A : Type} (d : dict A) (k : string) (a : A) :
  ~ In k (map fst d) -> dict_set d k a = d ++ [(k, a)].
Proof.
  induction d as [|[k' a'] d IH]; simpl; intros H.
  - reflexivity.
  - destruct (String.eqb_spec k k') as [E|E].
    + exfalso. apply H. left. symmetry. exact E.
    + rewrite IH; [reflexivity|]. intros Hin. apply H. right. exact Hin.
Qed.

Lemma fold_dict_set_fresh {A : Type} (pairs d : dict A) :
  NoDup (map fst (d ++ pairs)) ->
  fold_left (fun d kv => dict_set d (fst kv) (snd kv)) pairs d = d ++ pairs.
Proof.
  revert d; induction pairs as [|[k a] pairs IH]; intros d H; simpl.
  - rewrite app_nil_r. reflexivity.
  - assert (Hk : ~ In k (map fst d)).
    { rewrite map_app in H. simpl in H. apply NoDup_remove_2 in H.
      intros Hin. apply H. apply in_or_app. left. exact Hin. }
    rewrite (dict_set_fresh d k a Hk), IH; rewrite <- app_assoc; [reflexivity | exact H].
Qed.

(** [dict] applied to pairs with distinct keys keeps them as they are. *)
Lemma py_dict_distinct {A : Type} (pairs : dict A) :
  NoDup (map fst pairs) -> py_dict pairs = pairs.
Proof. intros H. unfold py_dict. apply (fold_dict_set_fresh pairs [] H). Qed.

Lemma combine_fst_snd {A B : Type} (l : list (A * B)) :
  combine (map fst l) (map snd l) = l.
Proof.
  induction l as [|[a b] l IH]; simpl; [reflexivity|]. rewrite IH. reflexivity.
Qed.

(** Unzipping the latent mapping into keys and values, copying the values
    and zipping the keys back onto them rebuilds the mapping: the log joint
    is evaluated on [merge_dicts(latent, observed)], every latent variable
    under its own key, which is the dictionary [bn] observes. *)
Theorem log_joint_sees_latent_under_its_keys :
  forall (net : Type) (w : models net) (latent : dict pyobj) (observed : dict tensor)
    (latent_k latent_v : list pyobj),
    NoDup (map fst latent) ->
    forallb isinstance_Variable (map snd latent) = true ->
    unpack2 (py_zip_star (iteritems latent)) = Ok (latent_k, latent_v) ->
    py_dict (combine (map format_key latent_k) (map PyVariable (handles (copy latent_v))))
    = latent
    /\ joint_obs w latent_k (handles (copy latent_v)) observed
       = merge_dicts w latent (as_objects observed).
Proof.
  intros net w latent observed latent_k latent_v Hkeys Hall Hunpack.
  destruct latent as [|kv latent]; [discriminate Hunpack|].
  rewrite py_zip_star_iteritems in Hunpack. cbv beta iota delta [unpack2] in Hunpack.
  injection Hunpack as <- <-.
  assert (E : py_dict
                (combine (map format_key (map (fun kv => PyStr (fst kv)) (kv :: latent)))
                   (map PyVariable (handles (copy (map snd (kv :: latent))))))
              = kv :: latent).
  { unfold copy. rewrite (handles_variables _ Hall), map_map.
    change (map (fun x => format_key (PyStr (fst x))) (kv :: latent))
      with (map fst (kv :: latent)).
    rewrite combine_fst_snd. apply py_dict_distinct, Hkeys. }
  split; [exact E|]. unfold joint_obs. f_equal. exact E.
Qed.

Lemma log_joint_sees_latent_under_its_keys_witness :
  NoDup (map fst Demo.latent)
  /\ forallb isinstance_Variable (map snd Demo.latent) = true
  /\ unpack2 (py_zip_star (iteritems Demo.latent))
     = Ok ([PyStr "w"; PyStr "b"], [PyVariable 0; PyVariable 1])
  /\ joint_obs (mkModels (fun _ => true) (fun _ d => Ok d) (fun a b => a ++ b))
       [PyStr "w"; PyStr "b"] (handles (copy [PyVariable 0; PyVariable 1])) []
     = Demo.latent ++ [].
Proof.
  assert (Hkeys : NoDup (map fst Demo.latent)).
  { repeat constructor; simpl; intuition discriminate. }
  split; [exact Hkeys|]. split; [reflexivity|]. split; [reflexivity|].
  apply (@log_joint_sees_latent_under_its_keys _
           (mkModels (fun _ => true) (fun _ d => Ok d) (fun a b => a ++ b))
           Demo.latent [] [PyStr "w"; PyStr "b"] [PyVariable 0; PyVariable 1]
           Hkeys eq_refl eq_refl).
Defined.

(** ** The kinetic-energy diagnostic *)

Lemma rsum_squares (l : list R) : (0 <= rsum (map (fun a => a ^ 2) l))%R.
Proof.
  induction l as [|a l IH]; simpl.
  - apply Rle_refl.
  - apply Rplus_le_le_0_compat; [|exact IH]. rewrite Rmult_1_r. apply Rle_0_sqr.
Qed.

Lemma reduce_mean_squares (x : tensor) :
  exists r, reduce_mean (tpow2 x) = scalar r /\ (0 <= r)%R.
Proof.
  unfold reduce_mean, tpow2, tmap. cbn [data].
  eexists. split; [reflexivity|].
  unfold Rdiv. apply Rmult_le_pos; [apply rsum_squares|].
  rewrite length_map. destruct (data x) as [|a l].
  - simpl. rewrite Rinv_0. apply Rle_refl.
  - apply Rlt_le, Rinv_0_lt_compat, lt_0_INR. simpl. lia.
Qed.

(** The diagnostic [mean_k] that SGHMC and SGNHT report for a latent, the
    mean of the squares of its new velocity, is never negative.  (Stated
    for a latent with at least one element: the engine has no mean of an
    empty tensor.)  SGHMC reports nothing else; SGNHT reports the new
    thermostat value under [xi] as well. *)
Theorem mean_k_is_never_negative :
  (forall (self : SGHMC.obj) (env : run_env) (s : session) (new_t : Z) (i : nat)
     (q v : var) (grad : tensor) (update_op : op) (new_q : tensor) (infos : option info),
     SGHMC._update_single self env s new_t i q v grad = Ok (update_op, new_q, infos) ->
     data new_q <> [] ->
     exists r, infos = Some [("mean_k"%string, scalar r)] /\ (0 <= r)%R)
  /\ (forall (self : SGNHT.obj) (env : run_env) (s : session) (new_t : Z) (i : nat)
        (q v xi : var) (grad : tensor) (update_op : op) (new_q : tensor)
        (infos : option info),
        SGNHT._update_single self env s new_t i q v xi grad = Ok (update_op, new_q, infos) ->
        data new_q <> [] ->
        exists r new_xi,
          infos = Some [("mean_k"%string, scalar r); ("xi"%string, new_xi)]
          /\ (0 <= r)%R).
Proof.
  split.
  - intros self env s new_t i q v grad update_op new_q infos H _.
    unfold SGHMC._update_single in H.
    repeat (apply bind_ok in H; destruct H as (? & _ & H)).
    injection H as _ _ <-.
    match goal with
    | |- context [reduce_mean (tpow2 ?x)] =>
        destruct (reduce_mean_squares x) as (r & -> & Hr)
    end.
    exists r. split; [reflexivity | exact Hr].
  - intros self env s new_t i q v xi grad update_op new_q infos H _.
    unfold SGNHT._update_single in H.
    apply bind_ok in H; destruct H as (old_v & _ & H).
    do 9 (apply bind_ok in H; destruct H as (? & _ & H)).
    match type of H with
    | context [reduce_mean (tpow2 ?x)] =>
        destruct (reduce_mean_squares x) as (r & Er & Hr); rewrite Er in H
    end.
    repeat (apply bind_ok in H; destruct H as (? & _ & H)).
    injection H as _ _ <-.
    eexists r, _. split; [reflexivity | exact Hr].
Qed.

Lemma mean_k_is_never_negative_witness :
  exists update_op new_q infos,
    SGHMC._update_single
      (SGHMC.mk (SGMCMC.mk 0 None None None None) (scalar 0.1%R) (scalar 0.25%R)
         (scalar 0%R) 20%Z (Some [2; 3]))
      Demo.env (mkSession [0%Z] (fvars Demo.s0 ++ [zeros [2]; zeros []])) 0%Z 1 1 3
      (scalar (-3)%R)
    = Ok (update_op, new_q, infos)
    /\ data new_q <> []
    /\ exists r, infos = Some [("mean_k"%string, scalar r)] /\ (0 <= r)%R.
Proof.
  eexists _, _, _. keep_computed Hsingle.
  match goal with
  | |- ?A /\ _ => assert (Hdata : A) by discriminate; split; [exact Hdata|]
  end.
  apply (proj1 mean_k_is_never_negative _ _ _ _ _ _ _ _ _ _ _ Hsingle Hdata).
Defined.

(** ** The dictionaries [sample] returns *)

Lemma get_gradient_length (env : run_env) (s : session) (qs : list var)
  (grads : list tensor) :
  (forall values, length (gradients env values) = length values) ->
  get_gradient env s qs = Ok grads -> length grads = length qs.
Proof.
  intros Hone H. unfold get_gradient in H.
  apply bind_ok in H as (values & Hvalues & H). injection H as <-.
  rewrite Hone. apply (mapM_length _ _ Hvalues).
Qed.

(** The triples of a bound sampler: one per latent, with the diagnostics
    of the class. *)
Lemma bound_graph_triples (self : sampler) (mm : meta_model_t) (observed : dict tensor)
  (latent : dict pyobj) (s0 : session) (b : bound) (self' : sampler) (s1 : session)
  (g : graph) (env : run_env) (s s2 : session) (rs : list single) :
  sample self mm observed latent s0 = (Ok b, self', s1) ->
  call_update self' (handles (map snd latent)) get_gradient = Ok (Value g) ->
  (forall values, length (gradients env values) = length values) ->
  g env s = Ok (s2, rs) ->
  length rs = length latent
  /\ forall r, In r rs ->
       match self' with
       | Base _ => False
       | Sgld _ => info_of r = None
       | Sghmc _ => exists m, info_of r = Some [("mean_k"%string, m)]
       | Sgnht _ => exists m x, info_of r = Some [("mean_k"%string, m); ("xi"%string, x)]
       end.
Proof.
  intros Hsample Hupd Hone Hg.
  pose proof Hsample as Hok. apply sample_ok in Hok as (_ & Hall & _).
  pose proof (handles_length latent Hall) as Hlen.
  destruct self as [o|o|o|o].
  - apply sample_ok in Hsample as (_ & _ & r & g' & Hdef & Hupd' & _).
    destruct mm; simpl in Hdef; injection Hdef as _ <- _; discriminate Hupd'.
  - assert (E : exists o', self' = Sgld o').
    { apply sample_ok in Hsample as (_ & _ & r & g' & Hdef & _).
      destruct mm; simpl in Hdef; injection Hdef as _ <- _; eexists; reflexivity. }
    destruct E as (o' & ->). simpl in Hupd. injection Hupd as <-.
    unfold SGLD._update in Hg.
    apply bind_ok in Hg as (grads & Hgrads & Hg).
    apply bind_ok in Hg as (rs' & Hrs & Hg). injection Hg as _ <-.
    pose proof (@get_gradient_length _ _ _ _ Hone Hgrads) as Hlg.
    split.
    + rewrite (mapM_length _ _ Hrs), !length_combine, length_seq. lia.
    + intros r Hr. apply In_nth_error in Hr as (i & Hr).
      destruct (mapM_nth_inv _ _ Hrs _ Hr) as ([i' [q grad]] & _ & Hf).
      unfold SGLD._update_single in Hf.
      repeat (apply bind_ok in Hf; destruct Hf as (? & _ & Hf)).
      injection Hf as <-. reflexivity.
  - destruct (@sghmc_bind o mm observed latent s0 b self' s1 Hsample)
      as (o' & vs & -> & Hvs & Hlv & _).
    simpl in Hupd. injection Hupd as <-.
    unfold SGHMC._update in Hg.
    apply bind_ok in Hg as ([new_t s3] & _ & Hg).
    rewrite Hvs in Hg. cbn [attribute bind] in Hg.
    apply bind_ok in Hg as (grads & Hgrads & Hg).
    apply bind_ok in Hg as (rs' & Hrs & Hg). injection Hg as _ <-.
    pose proof (@get_gradient_length _ _ _ _ Hone Hgrads) as Hlg.
    split.
    + rewrite (mapM_length _ _ Hrs), !length_combine, length_seq. lia.
    + intros r Hr. apply In_nth_error in Hr as (i & Hr).
      destruct (mapM_nth_inv _ _ Hrs _ Hr) as ([i' [q [v grad]]] & _ & Hf).
      unfold SGHMC._update_single in Hf.
      repeat (apply bind_ok in Hf; destruct Hf as (? & _ & Hf)).
      injection Hf as <-. eexists. reflexivity.
  - destruct (@sgnht_bind o mm observed latent s0 b self' s1 Hsample)
      as (o' & vs & xis & -> & Hvs & Hxis & Hlv & Hlx & _).
    simpl in Hupd. injection Hupd as <-.
    unfold SGNHT._update in Hg.
    apply bind_ok in Hg as ([new_t s3] & _ & Hg).
    rewrite Hvs, Hxis in Hg. cbn [attribute bind] in Hg.
    apply bind_ok in Hg as (grads & Hgrads & Hg).
    apply bind_ok in Hg as (rs' & Hrs & Hg). injection Hg as _ <-.
    pose proof (@get_gradient_length _ _ _ _ Hone Hgrads) as Hlg.
    split.
    + rewrite (mapM_length _ _ Hrs), !length_combine, length_seq. lia.
    + intros r Hr. apply In_nth_error in Hr as (i & Hr).
      destruct (mapM_nth_inv _ _ Hrs _ Hr) as ([i' [q [v [xi grad]]]] & _ & Hf).
      unfold SGNHT._update_single in Hf.
      repeat (apply bind_ok in Hf; destruct Hf as (? & _ & Hf)).
      injection Hf as <-. eexists _, _. reflexivity.
Qed.

Lemma map_fst_combine {A B : Type} (l : list A) (l' : list B) :
  length l = length l' -> map fst (combine l l') = l.
Proof.
  revert l'; induction l as [|a l IH]; intros [|b l'] H; simpl in *; try lia.
  - reflexivity.
  - rewrite IH by lia. reflexivity.
Qed.

(** The two dictionaries [sample] returns have exactly the keys of the
    latent mapping, in its order.  What [sample_info] holds under a key
    depends on the class: [None] for SGLD, a dictionary with the one key
    [mean_k] for SGHMC, and one with the keys [mean_k] and [xi] for SGNHT. *)
Theorem returned_dictionaries_have_the_latent_keys :
  forall (self : sampler) (mm : meta_model_t) (observed : dict tensor)
    (latent : dict pyobj) (s0 : session) (b : bound) (self' : sampler) (s1 : session)
    (env : run_env) (s s2 s3 : session) (samples : dict tensor)
    (infos : dict (option info)),
    sample self mm observed latent s0 = (Ok b, self', s1) ->
    (forall values, length (gradients env values) = length values) ->
    new_samples b env s = Ok (samples, s2) ->
    sample_info b env s = Ok (infos, s3) ->
    map fst samples = map fst latent
    /\ map fst infos = map fst latent
    /\ forall k i, In (k, i) infos ->
         match self' with
         | Base _ => False
         | Sgld _ => i = None
         | Sghmc _ => exists m, i = Some [("mean_k"%string, m)]
         | Sgnht _ => exists m x, i = Some [("mean_k"%string, m); ("xi"%string, x)]
         end.
Proof.
  intros self mm observed latent s0 b self' s1 env s s2 s3 samples infos
    Hsample Hone Hnew Hinfo.
  pose proof Hsample as Hok.
  apply sample_ok in Hok as (_ & _ & r & g & _ & Hupd & ->).
  simpl in Hnew, Hinfo.
  apply bind_ok in Hnew as ([s4 rs] & Hg & Hnew). injection Hnew as <- _.
  rewrite Hg in Hinfo. cbn [bind] in Hinfo. injection Hinfo as <- _.
  destruct (@bound_graph_triples self mm observed latent s0 _ self' s1 g env s s4 rs
              Hsample Hupd Hone Hg) as (Hlen & Hinfos).
  assert (Ekeys : map format_key (map (fun kv => PyStr (fst kv)) latent) = map fst latent).
  { rewrite map_map. reflexivity. }
  rewrite Ekeys.
  split; [apply map_fst_combine; rewrite !length_map; symmetry; exact Hlen|].
  split; [apply map_fst_combine; rewrite !length_map; symmetry; exact Hlen|].
  intros k i Hin. apply in_combine_r in Hin. apply in_map_iff in Hin as (r' & <- & Hr').
  apply (Hinfos r' Hr').
Qed.

Lemma returned_dictionaries_have_the_latent_keys_witness :
  exists b self' s1 samples s2 infos s3,
    sample (Sgnht (fst Demo.sgnht)) (Callable "log_joint") [] Demo.latent (snd Demo.sgnht)
    = (Ok b, self', s1)
    /\ (forall values, length (gradients Demo.env values) = length values)
    /\ new_samples b Demo.env s1 = Ok (samples, s2)
    /\ sample_info b Demo.env s1 = Ok (infos, s3)
    /\ map fst samples = ["w"%string; "b"%string]
    /\ map fst infos = ["w"%string; "b"%string].
Proof.
  eexists _, _, _, _, _, _, _. keep_computed Hsample.
  match goal with
  | |- ?A /\ _ => assert (Hone : A) by (intros values; apply length_map); split; [exact Hone|]
  end.
  keep_computed Hnew. keep_computed Hinfo.
  destruct (@returned_dictionaries_have_the_latent_keys _ _ _ _ _ _ _ _ _ _ _ _ _ _
              Hsample Hone Hnew Hinfo) as (H1 & H2 & _).
  split; [exact H1 | exact H2].
Defined.


(** ** The grouped update, latent by latent *)

Lemma run_schedule_app (self : sampler) (qs : list var) (env : run_env)
  (l l' : list node) (m : machine) :
  run_schedule self qs env (l ++ l') m
  = (m' <- run_schedule self qs env l m ;; run_schedule self qs env l' m').
Proof.
  revert m; induction l as [|x l IH]; intros m; simpl.
  - reflexivity.
  - destruct (exec self qs env x m) as [m1|e]; simpl; [apply IH | reflexivity].
Qed.

Lemma ready_same_fvars (self : sampler) (qs : list var) (s s' : session) :
  fvars s' = fvars s -> length (ivars s') = length (ivars s) ->
  ready self qs s' = ready self qs s.
Proof.
  destruct s as [iv fv], s' as [iv' fv']. cbn [fvars ivars]. intros -> Hlen.
  unfold ready, has_counter, holds, shape_at, value_at. cbn [fvars ivars].
  rewrite Hlen. reflexivity.
Qed.

Lemma gradients_ready_same_fvars (env : run_env) (qs : list var) (s s' : session) :
  fvars s' = fvars s -> gradients_ready env s' qs = gradients_ready env s qs.
Proof.
  intros H. unfold gradients_ready, value_at. rewrite H. reflexivity.
Qed.

Lemma expected_same_fvars (self : sampler) (new_t : Z) (qs : list var) (env : run_env)
  (s s' : session) (i : nat) :
  fvars s' = fvars s -> expected self new_t qs env s' i = expected self new_t qs env s i.
Proof.
  intros H. unfold expected, sgld_expected, sghmc_expected, sgnht_expected, value_at.
  rewrite H. reflexivity.
Qed.

(** The triple of latent [i] evaluated against a ready session, with the
    gradients taken at the values that session holds. *)
Lemma expected_at (self : sampler) (qs : list var) (env : run_env) (s : session)
  (new_t : Z) (i : nat) :
  steppable self = true ->
  ready self qs s = true ->
  gradients_ready env s qs = true ->
  i < length qs ->
  single_at self qs env s new_t (gradients env (map (value_at s) qs)) i
  = Ok (expected self new_t qs env s i).
Proof.
  intros Hstep Hready Hgrads Hi.
  pose proof (ready_velocities _ _ _ Hready) as Hvel.
  pose proof (ready_thermostats _ _ _ Hready) as Hth.
  destruct self as [o|o|o|o]; [discriminate Hstep| | |]; cbn [steppable] in Hstep.
  - apply (@sgld_single_at o qs env s (elem (SGLD.lr o) 0) i Hready Hgrads
             (is_scalar_elem _ Hstep) Hi).
  - cbn [auxiliary fst] in Hvel.
    destruct (SGHMC.vs o) as [vs|] eqn:Hvs; [|discriminate Hvel].
    split_andb. unfold expected. rewrite Hvs.
    apply sghmc_single_at; try assumption; try (apply is_scalar_elem; assumption);
      try reflexivity.
    match goal with
    | H : negb _ = true |- _ => apply negb_true_iff, Z.eqb_neq in H; exact H
    end.
  - cbn [auxiliary fst snd] in Hvel, Hth.
    destruct (SGNHT.vs o) as [vs|] eqn:Hvs; [|discriminate Hvel].
    destruct (SGNHT.xis o) as [xis|] eqn:Hxis; [|cbn in Hth; lia].
    split_andb. unfold expected. rewrite Hvs, Hxis.
    apply sgnht_single_at; try assumption; try (apply is_scalar_elem; assumption);
      reflexivity.
Qed.

(** The assignments of one latent, performed one after the other, commit
    its update operation. *)
Lemma run_assigns (self : sampler) (qs : list var) (env : run_env) (i : nat) (r : single)
  (ws : op) (k0 : nat) (m : machine) :
  lookup_single i (m_values m) = Some r ->
  (forall k w, nth_error ws k = Some w -> nth_error (update_op_of r) (k0 + k) = Some w) ->
  run_schedule self qs env (map (NAssign i) (seq k0 (length ws))) m
  = Ok (mkMachine (run_op ws (m_session m)) (m_counter m) (m_grads m) (m_values m)).
Proof.
  revert k0 m. induction ws as [|w ws IH]; intros k0 m Hr Hws.
  - destruct m. reflexivity.
  - cbn [length seq map run_schedule exec]. rewrite Hr. cbn [evaluated bind].
    assert (Hw : index (update_op_of r) k0 = Ok w).
    { apply index_nth. rewrite <- (Nat.add_0_r k0). apply Hws. reflexivity. }
    rewrite Hw. cbn [bind].
    rewrite (IH (S k0)); [reflexivity | exact Hr|].
    intros k w' Hk. rewrite Nat.add_succ_comm. apply Hws. exact Hk.
Qed.

(** Committing the update operation of one latent: its variables hold the
    assigned tensors, every other variable is as before, and the session
    is one the sampler can go on from. *)
Lemma latent_committed (self : sampler) (new_t : Z) (qs : list var) (env : run_env)
  (s : session) (i : nat) :
  ready self qs s = true ->
  i < length qs ->
  let s' := run_op (update_op_of (expected self new_t qs env s i)) s in
  ready self qs s' = true
  /\ (forall k v x,
        nth_error (update_op_of (expected self new_t qs env s i)) k = Some (v, x) ->
        nth_error (fvars s') v = Some x).
Proof.
  intros Hready Hi s'.
  pose proof (@expected_slots self new_t qs env s Hready) as Hslots.
  assert (Hwrite : forall k v x,
            nth_error (update_op_of (expected self new_t qs env s i)) k = Some (v, x) ->
            nth_error (fvars s') v = Some x).
  { intros k v x Hk. pose proof (Hslots i k _ Hi Hk) as Hslot. cbn [fst] in Hslot.
    apply run_op_write.
    - eapply nth_error_In, Hk.
    - intros x' Hin. apply In_nth_error in Hin as (k' & Hk').
      pose proof (Hslots i k' _ Hi Hk') as Hslot'. cbn [fst] in Hslot'.
      destruct (@slot_inj self qs s i k i k' v Hready Hslot Hslot') as [_ <-].
      pose proof (eq_trans (eq_sym Hk') Hk) as E. injection E as ->. reflexivity.
    - apply (@slot_allocated self qs s i k v Hready Hslot). }
  split; [|exact Hwrite].
  apply (@ready_preserved self qs s s' Hready).
  - unfold s'. rewrite run_op_ivars. reflexivity.
  - intros i' k q v Hq Hslot.
    destruct (Nat.eq_dec i' i) as [->|Hne].
    + destruct (@expected_value self new_t qs env s i k q v Hready Hq Hslot)
        as (x & Hx & Hshape & Hwf).
      unfold holds. rewrite (Hwrite k v x Hx), Hshape, shape_eqb_refl. exact Hwf.
    + pose proof (@slot_holds self qs s i' k v q Hready Hq Hslot) as Hh.
      unfold holds in *. unfold s'. rewrite run_op_other; [exact Hh|].
      intros w Hin E. apply In_nth_error in Hin as (k' & Hk').
      pose proof (Hslots i k' _ Hi Hk') as Hslot'. rewrite E in Hslot'.
      destruct (@slot_inj self qs s i' k i k' v Hready Hslot Hslot') as [E' _].
      contradiction.
Qed.

(** The gradient, the values and the assignments of latent [i], evaluated
    one after the other from the machine's session. *)
Lemma run_latent (self : sampler) (qs : list var) (env : run_env) (new_t : Z) (i : nat)
  (m : machine) :
  steppable self = true ->
  ready self qs (m_session m) = true ->
  gradients_ready env (m_session m) qs = true ->
  (if uses_counter self then evaluated (m_counter m) else Ok 0%Z) = Ok new_t ->
  i < length qs ->
  run_schedule self qs env
    (NGradient i :: NValues i :: map (NAssign i) (seq 0 (assignments self))) m
  = Ok (mkMachine
          (run_op (update_op_of (expected self new_t qs env (m_session m) i)) (m_session m))
          (m_counter m)
          ((i, gradients env (map (value_at (m_session m)) qs)) :: m_grads m)
          ((i, expected self new_t qs env (m_session m) i) :: m_values m)).
Proof.
  intros Hstep Hready Hgrads Ht Hi.
  pose proof (@expected_at self qs env (m_session m) new_t i Hstep Hready Hgrads Hi)
    as Hsingle.
  destruct (single_at_writes _ _ _ _ _ _ _ Hsingle) as [Hlen _].
  cbn [run_schedule exec].
  rewrite (get_gradient_ready env (m_session m) qs (@ready_latents self qs _ Hready)).
  cbn [bind m_session m_counter m_grads m_values lookup_grads].
  rewrite Ht, Nat.eqb_refl. cbn [bind evaluated]. rewrite Hsingle. cbn [bind].
  rewrite <- Hlen.
  rewrite (@run_assigns self qs env i (expected self new_t qs env (m_session m) i)
             (update_op_of (expected self new_t qs env (m_session m) i)) 0).
  - reflexivity.
  - cbn [m_values lookup_single]. rewrite Nat.eqb_refl. reflexivity.
  - intros k w Hk. exact Hk.
Qed.

(** C9, on the code: the assignments of a latent wait for the new values of
    that latent only, and its new values for its own gradient only.  For a
    sampler bound to two latents, the order that handles latent 0 and then
    latent 1 is therefore an order of evaluation the graph allows, and in
    it the gradient of latent 1 is computed from the session in which
    latent 0 already holds its new value: the new values of latent 1 are
    those of the update rule at a gradient read from half-updated state,
    not at the gradient of the state before the run. *)
Theorem grouped_update_reads_half_updated_state :
  forall (self : sampler) (mm : meta_model_t) (observed : dict tensor)
    (k0 k1 : string) (q0 q1 : var) (s0 : session) (b : bound) (self' : sampler)
    (s1 : session) (env : run_env) (s : session),
    let qs := [q0; q1] in
    let new_t := next_t self' s in
    let r0 := expected self' new_t qs env s 0 in
    let mid := run_op (update_op_of r0) (counted self' s) in
    let r1 := expected self' new_t qs env mid 1 in
    sample self mm observed [(k0, PyVariable q0); (k1, PyVariable q1)] s0
    = (Ok b, self', s1) ->
    steppable self' = true ->
    ready self' qs s = true ->
    gradients_ready env s qs = true ->
    gradients_ready env mid qs = true ->
    valid_schedule self' 2 (nodes self' 2) = true
    /\ computed_before_assignments (nodes self' 2) = false
    /\ read mid q0 = Ok (new_q_of r0)
    /\ exists m,
         run_schedule self' qs env (nodes self' 2) (start s) = Ok m
         /\ lookup_grads 1 (m_grads m) = Some (gradients env (map (value_at mid) qs))
         /\ lookup_single 0 (m_values m) = Some r0
         /\ lookup_single 1 (m_values m) = Some r1
         /\ m_session m = run_op (update_op_of r1) mid.
Proof.
  intros self mm observed k0 k1 q0 q1 s0 b self' s1 env s qs new_t r0 mid r1
    _ Hstep Hready Hgrads Hgrads'.
  pose proof (counted_fvars self' s) as Hf.
  assert (Hready0 : ready self' qs (counted self' s) = true).
  { rewrite (@ready_same_fvars self' qs s (counted self' s) Hf (counted_ivars self' s)).
    exact Hready. }
  assert (Hgrads0 : gradients_ready env (counted self' s) qs = true).
  { rewrite (@gradients_ready_same_fvars env qs s (counted self' s) Hf). exact Hgrads. }
  assert (Er0 : expected self' new_t qs env (counted self' s) 0 = r0)
    by apply (@expected_same_fvars self' new_t qs env s (counted self' s) 0 Hf).
  destruct (@latent_committed self' new_t qs env (counted self' s) 0 Hready0
              ltac:(simpl; lia)) as [Hready1 Hwrite].
  rewrite Er0 in Hready1, Hwrite. fold mid in Hready1, Hwrite.
  assert (Hcounter : exists m0,
            run_schedule self' qs env (if uses_counter self' then [NCounter] else [])
              (start s) = Ok m0
            /\ m_session m0 = counted self' s
            /\ m_grads m0 = [] /\ m_values m0 = []
            /\ (if uses_counter self' then evaluated (m_counter m0) else Ok 0%Z)
               = Ok new_t).
  { pose proof (@counted_step self' qs s Hready) as Hc. unfold new_t, next_t in *.
    destruct (uses_counter self').
    - eexists. cbn [run_schedule exec start m_session]. rewrite Hc.
      cbn [bind]. split; [reflexivity|]. repeat split.
    - exists (start s). split; [reflexivity|]. rewrite Hc. repeat split. }
  destruct Hcounter as (m0 & Hrun0 & Hs0 & Hg0 & Hv0 & Ht0).
  split; [destruct self'; try discriminate Hstep; reflexivity|].
  split; [destruct self'; try discriminate Hstep; reflexivity|].
  split.
  { assert (Hq0 : nth_error qs 0 = Some q0) by reflexivity.
    destruct (@expected_value self' new_t qs env s 0 0 q0 q0 Hready Hq0 Hq0)
      as (x & Hx & _).
    apply read_value_at. rewrite (Hwrite 0 q0 x Hx). f_equal.
    unfold r0 in *. clear - Hx Hready.
    destruct self' as [o|o|o|o]; [discriminate Hready| | |];
      unfold expected, sgld_expected, sghmc_expected, sgnht_expected, update_op_of,
        new_q_of in *; cbn [fst snd nth_error] in *; injection Hx as <-; reflexivity. }
  assert (Hnodes : nodes self' 2
                   = (if uses_counter self' then [NCounter] else [])
                     ++ (NGradient 0 :: NValues 0
                         :: map (NAssign 0) (seq 0 (assignments self')))
                     ++ (NGradient 1 :: NValues 1
                         :: map (NAssign 1) (seq 0 (assignments self')))).
  { unfold nodes. cbn [seq flat_map]. rewrite app_nil_r. reflexivity. }
  rewrite Hnodes, run_schedule_app, Hrun0. cbn [bind]. rewrite run_schedule_app.
  rewrite <- Hs0 in Hready0, Hgrads0.
  rewrite (@run_latent self' qs env new_t 0 m0 Hstep Hready0 Hgrads0 Ht0 ltac:(simpl; lia)).
  cbn [bind]. rewrite Hs0, Er0. fold mid.
  match goal with
  | |- context [run_schedule _ _ _ _ ?m1] =>
      rewrite (@run_latent self' qs env new_t 1 m1 Hstep Hready1 Hgrads' Ht0
                 ltac:(simpl; lia))
  end.
  cbn [m_session m_counter m_grads m_values]. fold r1.
  eexists. split; [reflexivity|].
  cbn [m_session m_grads m_values lookup_grads lookup_single Nat.eqb].
  repeat split.
Qed.

Lemma grouped_update_reads_half_updated_state_witness :
  exists o0 s0 b self' s1,
    Coupled.sghmc = Ok (o0, s0)
    /\ sample (Sghmc o0) (Callable "log_joint") [] Coupled.latent s0 = (Ok b, self', s1)
    /\ steppable self' = true
    /\ ready self' [0; 1] s1 = true
    /\ gradients_ready Coupled.env s1 [0; 1] = true
    /\ gradients_ready Coupled.env
         (run_op
            (update_op_of (expected self' (next_t self' s1) [0; 1] Coupled.env s1 0))
            (counted self' s1)) [0; 1] = true
    /\ valid_schedule self' 2 (nodes self' 2) = true
    /\ computed_before_assignments (nodes self' 2) = false
    /\ new_q_of (expected self' (next_t self' s1) [0; 1] Coupled.env s1 1)
       = scalar 4.5%R
    /\ exists m,
         run_schedule self' [0; 1] Coupled.env (nodes self' 2) (start s1) = Ok m
         /\ read (m_session m) 0 = Ok (mkTensor [2] [3%R; 4%R])
         /\ read (m_session m) 1 = Ok (scalar 6.5%R).
Proof.
  eexists _, _, _, _, _. keep_computed Hinit. keep_computed Hsample.
  keep_computed Hstep. keep_computed Hready. keep_computed Hgrads.
  keep_computed Hgrads'.
  destruct (@grouped_update_reads_half_updated_state _ _ _ "a"%string "b"%string 0 1
              _ _ _ _ Coupled.env _ Hsample Hstep Hready Hgrads Hgrads')
    as (Hvalid & Horder & _ & m & Hrun & _ & _ & _ & Hs).
  split; [exact Hvalid|]. split; [exact Horder|].
  split.
  { cbn. unfold Spec.new_q, Spec.sghmc_new_v, Spec.sghmc_old_v, Spec.normal_draw, tab,
      scalar.
    cbn. repeat f_equal; lra. }
  exists m. split; [exact Hrun|].
  rewrite Hs.
  split.
  - cbn. unfold Spec.new_q, Spec.sghmc_new_v, Spec.sghmc_old_v, Spec.normal_draw, tab.
    cbn. repeat f_equal; lra.
  - cbn. unfold Spec.new_q, Spec.sghmc_new_v, Spec.sghmc_old_v, Spec.normal_draw, tab,
      scalar.
    cbn. repeat f_equal; lra.
Defined.

(** ** The same variable under two keys *)

(** [sample] does not check that the latent variables are distinct.  Bound
    to one variable under two keys, an SGLD sampler builds two updates of
    that variable, each with noise of its own, and groups both
    assignments; nothing orders them, and the value the variable ends up
    with is the one of whichever assignment is performed last. *)
Theorem same_variable_twice_is_assigned_twice :
  forall (o : SGLD.obj) (lr : R) (k1 k2 : string) (q : var) (mm : meta_model_t)
    (observed : dict tensor) (s0 : session) (env : run_env) (s : session),
    SGLD.lr o = scalar lr ->
    holds s (shape_at s q) q = true ->
    gradients_ready env s [q; q] = true ->
    let latent := [(k1, PyVariable q); (k2, PyVariable q)] in
    let x := value_at s q in
    let new_q i :=
      tab (shape x)
        (fun j =>
           Spec.sgld_new_q lr (elem x j)
             (elem (nth i (gradients env [x; x]) (scalar 0%R)) j) (normal env i Noise j)) in
    exists b self' m1 m2,
      sample (Sgld o) mm observed latent s0 = (Ok b, self', s0)
      /\ valid_schedule self' 2
           [NGradient 0; NGradient 1; NValues 0; NValues 1; NAssign 0 0; NAssign 1 0] = true
      /\ valid_schedule self' 2
           [NGradient 0; NGradient 1; NValues 0; NValues 1; NAssign 1 0; NAssign 0 0] = true
      /\ run_schedule self' (handles (map snd latent)) env
           [NGradient 0; NGradient 1; NValues 0; NValues 1; NAssign 0 0; NAssign 1 0]
           (start s) = Ok m1
      /\ run_schedule self' (handles (map snd latent)) env
           [NGradient 0; NGradient 1; NValues 0; NValues 1; NAssign 1 0; NAssign 0 0]
           (start s) = Ok m2
      /\ read (m_session m1) q = Ok (new_q 1)
      /\ read (m_session m2) q = Ok (new_q 0).
Proof.
  intros o lr k1 k2 q mm observed s0 env s Hlr Hholds Hgrads latent x new_q.
  assert (Hq : forallb (fun q => holds s (shape_at s q) q) [q; q] = true).
  { simpl. rewrite Hholds. reflexivity. }
  pose proof (get_gradient_ready env s [q; q] Hq) as Hget.
  change (map (value_at s) [q; q]) with [x; x] in Hget.
  pose proof (holds_tab _ _ _ Hholds) as Hread. fold x in Hread.
  assert (Hlt : q < length (fvars s)) by (apply (holds_allocated _ _ _ Hholds)).
  assert (Hsample : exists b,
            sample (Sgld o) mm observed latent s0
            = (Ok b, store_arguments (Sgld o) mm observed latent, s0)).
  { destruct mm; eexists; reflexivity. }
  destruct Hsample as (b & Hsample).
  assert (Eself : exists o', store_arguments (Sgld o) mm observed latent = Sgld o'
                             /\ SGLD.lr o' = scalar lr).
  { destruct mm; eexists; (split; [reflexivity|]); exact Hlr. }
  destruct Eself as (o' & Eself & Hlr').
  assert (Hsingle' : forall i, i < 2 ->
            single_at (Sgld o') [q; q] env s 0 (gradients env [x; x]) i
            = Ok ([(q, new_q i)], new_q i, None)).
  { intros i Hi.
    assert (Hqi : nth_error [q; q] i = Some q) by (destruct i as [|[|i]]; [reflexivity..|lia]).
    destruct (@gradients_ready_nth env s [q; q] i q Hgrads Hqi) as [Hg Etab].
    change (map (value_at s) [q; q]) with [x; x] in Hg, Etab.
    unfold single_at. rewrite (index_nth _ _ Hqi), (index_nth _ _ Hg). cbn [bind].
    rewrite Etab at 1.
    apply (@sgld_single o' env s i q lr (shape_at s q) (elem x)
             (elem (nth i (gradients env [x; x]) (scalar 0%R))) Hlr' Hread). }
  eexists b, _, _, _. split; [exact Hsample|]. rewrite Eself.
  split; [reflexivity|]. split; [reflexivity|].
  change (handles (map snd latent)) with [q; q].
  cbn [run_schedule exec start m_session m_counter m_grads m_values uses_counter bind].
  rewrite Hget. cbn [bind m_session m_counter m_grads m_values].
  rewrite Hget.
  cbn [bind evaluated lookup_grads Nat.eqb m_session m_counter m_grads m_values].
  rewrite (Hsingle' 0 ltac:(lia)).
  cbn [bind evaluated lookup_grads Nat.eqb m_session m_counter m_grads m_values].
  rewrite (Hsingle' 1 ltac:(lia)).
  cbn [bind evaluated lookup_single Nat.eqb update_op_of fst snd index nth_error
         m_session m_counter m_grads m_values].
  split; [reflexivity|]. split; [reflexivity|].
  cbn [m_session]. unfold read, commit. cbn [fvars fst snd].
  rewrite !nth_error_list_set_eq by (rewrite ?list_set_length; exact Hlt).
  split; reflexivity.
Qed.

Lemma same_variable_twice_is_assigned_twice_witness :
  SGLD.lr (fst Demo.sgld) = scalar 0%R
  /\ holds Demo.s0 (shape_at Demo.s0 0) 0 = true
  /\ gradients_ready Demo.env Demo.s0 [0; 0] = true
  /\ exists b self' m1 m2,
       sample (Sgld (fst Demo.sgld)) (Callable "log_joint") []
         [("a"%string, PyVariable 0); ("b"%string, PyVariable 0)] (snd Demo.sgld)
       = (Ok b, self', snd Demo.sgld)
       /\ run_schedule self' [0; 0] Demo.env
            [NGradient 0; NGradient 1; NValues 0; NValues 1; NAssign 0 0; NAssign 1 0]
            (start Demo.s0)
          = Ok m1
       /\ run_schedule self' [0; 0] Demo.env
            [NGradient 0; NGradient 1; NValues 0; NValues 1; NAssign 1 0; NAssign 0 0]
            (start Demo.s0)
          = Ok m2.
Proof.
  keep_computed Hlr. keep_computed Hholds. keep_computed Hgrads.
  destruct (@same_variable_twice_is_assigned_twice (fst Demo.sgld) 0%R "a"%string
              "b"%string 0 (Callable "log_joint") [] (snd Demo.sgld) Demo.env Demo.s0
              Hlr Hholds Hgrads)
    as (b & self' & m1 & m2 & Hsample & _ & _ & Hrun1 & Hrun2 & _).
  exists b, self', m1, m2. split; [exact Hsample|]. split; [exact Hrun1 | exact Hrun2].
Defined.
